(** * OBS WebSocket client of the Twitch chat highlighter

    A shallow embedding of the background service worker
    ([background.js]): the authentication digest, the request
    multiplexer, the handshake state machine, the reconnect supervisor
    and the composed highlight operation, followed by the properties the
    specification states about them. *)

From Stdlib Require Import ZArith NArith List Lia Strings.Byte Ascii String.
From Stdlib Require Import DecimalString DecimalN.
From stdpp Require Import base decidable option list gmap.

Local Open Scope N_scope.

(** ** JavaScript strings

    A JavaScript string is a sequence of UTF-16 code units.  String
    literals of the source are ASCII and are written through [js]. *)

Abbreviation jsstring := (list N).

Definition js (s : string) : jsstring :=
  map N_of_ascii (list_ascii_of_string s).

(** Code unit of the double quote, which the source writes inside a
    template literal. *)
Definition dquote : N := 34.

(** [TextEncoder.encode]: UTF-8 bytes of a string.  A high surrogate
    followed by a low surrogate is one supplementary code point; a lone
    surrogate is replaced by U+FFFD. *)
Definition byte_of_N (n : N) : byte :=
  match Byte.of_N (n mod 256) with
  | Some b => b
  | None => x00
  end.

Definition is_high_surrogate (c : N) : bool := (0xD800 <=? c) && (c <=? 0xDBFF).
Definition is_low_surrogate (c : N) : bool := (0xDC00 <=? c) && (c <=? 0xDFFF).

Definition utf8_of_code_point (p : N) : list byte :=
  if p <? 0x80 then [byte_of_N p]
  else if p <? 0x800 then
    [byte_of_N (N.lor 0xC0 (N.shiftr p 6));
     byte_of_N (N.lor 0x80 (N.land p 0x3F))]
  else if p <? 0x10000 then
    [byte_of_N (N.lor 0xE0 (N.shiftr p 12));
     byte_of_N (N.lor 0x80 (N.land (N.shiftr p 6) 0x3F));
     byte_of_N (N.lor 0x80 (N.land p 0x3F))]
  else
    [byte_of_N (N.lor 0xF0 (N.shiftr p 18));
     byte_of_N (N.lor 0x80 (N.land (N.shiftr p 12) 0x3F));
     byte_of_N (N.lor 0x80 (N.land (N.shiftr p 6) 0x3F));
     byte_of_N (N.lor 0x80 (N.land p 0x3F))].

Definition replacement_character : N := 0xFFFD.

Fixpoint TextEncoder_encode (s : jsstring) : list byte :=
  match s with
  | [] => []
  | c :: rest =>
      if is_high_surrogate c then
        match rest with
        | d :: rest' =>
            if is_low_surrogate d then
              utf8_of_code_point
                (0x10000 + N.shiftl (c - 0xD800) 10 + (d - 0xDC00))
                ++ TextEncoder_encode rest'
            else utf8_of_code_point replacement_character ++ TextEncoder_encode rest
        | [] => utf8_of_code_point replacement_character
        end
      else if is_low_surrogate c then
        utf8_of_code_point replacement_character ++ TextEncoder_encode rest
      else utf8_of_code_point c ++ TextEncoder_encode rest
  end.

(** ** SHA-256 (FIPS 180-4), the digest behind
    [crypto.subtle.digest('SHA-256', data)] *)

Module SHA256.

Definition mask32 (x : N) : N := x mod 2 ^ 32.
Definition add32 (x y : N) : N := mask32 (x + y).
Definition rotr (n x : N) : N :=
  N.lor (N.shiftr x n) (mask32 (N.shiftl x (32 - n))).
Definition not32 (x : N) : N := N.lxor x 0xFFFFFFFF.

Definition Ch (x y z : N) : N := N.lxor (N.land x y) (N.land (not32 x) z).
Definition Maj (x y z : N) : N :=
  N.lxor (N.lxor (N.land x y) (N.land x z)) (N.land y z).
Definition bsig0 (x : N) : N := N.lxor (N.lxor (rotr 2 x) (rotr 13 x)) (rotr 22 x).
Definition bsig1 (x : N) : N := N.lxor (N.lxor (rotr 6 x) (rotr 11 x)) (rotr 25 x).
Definition ssig0 (x : N) : N := N.lxor (N.lxor (rotr 7 x) (rotr 18 x)) (N.shiftr x 3).
Definition ssig1 (x : N) : N := N.lxor (N.lxor (rotr 17 x) (rotr 19 x)) (N.shiftr x 10).

(** The round constants are the first 32 bits of the fractional parts
    of the cube roots of the first 64 primes, the initial hash value
    those of the square roots of the first 8 primes. *)
Definition is_prime (n : N) : bool :=
  (2 <=? n) &&
  forallb (fun d => negb (n mod d =? 0) || (n <=? d))
          (map N.of_nat (seq 2 (N.to_nat (N.sqrt n)))).

Definition primes64 : list N :=
  Eval vm_compute in filter (fun n => is_prime n) (map N.of_nat (seq 2 310)).

(** Integer cube root, one bit at a time from bit [b - 1] down. *)
Fixpoint icbrt_bits (b : nat) (n acc : N) : N :=
  match b with
  | O => acc
  | S b' =>
      let cand := N.lor acc (N.shiftl 1 (N.of_nat b')) in
      icbrt_bits b' n (if cand * cand * cand <=? n then cand else acc)
  end.
Definition icbrt (n : N) : N := icbrt_bits 40 n 0.

Definition K : list N :=
  Eval vm_compute in map (fun p => mask32 (icbrt (p * 2 ^ 96))) primes64.
Definition H0 : list N :=
  Eval vm_compute in map (fun p => mask32 (N.sqrt (p * 2 ^ 64))) (firstn 8 primes64).

(** Padding (section 5.1.1): a one bit, zero bits up to 448 mod 512,
    and the length in bits as a 64-bit big-endian integer. *)
Fixpoint be_bytes (count : nat) (x : N) : list byte :=
  match count with
  | O => []
  | S c => byte_of_N (N.shiftr x (8 * N.of_nat c)) :: be_bytes c x
  end.

Definition pad (msg : list byte) : list byte :=
  let len := N.of_nat (length msg) in
  let zeros := N.to_nat ((55 + 64 - len mod 64) mod 64) in
  msg ++ x80 :: repeat x00 zeros ++ be_bytes 8 (8 * len).

Fixpoint be_words (bs : list byte) : list N :=
  match bs with
  | a :: b :: c :: d :: rest =>
      (Byte.to_N a * 2 ^ 24 + Byte.to_N b * 2 ^ 16 + Byte.to_N c * 2 ^ 8 + Byte.to_N d)
        :: be_words rest
  | _ => []
  end.

Record hash := Hash { ha : N; hb : N; hc : N; hd : N; he : N; hf : N; hg : N; hh : N }.

Definition hash_of_list (l : list N) : hash :=
  Hash (nth 0 l 0) (nth 1 l 0) (nth 2 l 0) (nth 3 l 0)
       (nth 4 l 0) (nth 5 l 0) (nth 6 l 0) (nth 7 l 0).

Definition round (k wt : N) (s : hash) : hash :=
  let t1 := add32 (add32 (add32 (add32 (hh s) (bsig1 (he s))) (Ch (he s) (hf s) (hg s))) k) wt in
  let t2 := add32 (bsig0 (ha s)) (Maj (ha s) (hb s) (hc s)) in
  Hash (add32 t1 t2) (ha s) (hb s) (hc s) (add32 (hd s) t1) (he s) (hf s) (hg s).

(** The message schedule is kept as a window of the last sixteen
    words, oldest first. *)
Definition slide (win : list N) : list N :=
  tl win ++
    [add32 (add32 (add32 (ssig1 (nth 14 win 0)) (nth 9 win 0)) (ssig0 (nth 1 win 0)))
           (nth 0 win 0)].

Fixpoint rounds (ks win : list N) (s : hash) : hash :=
  match ks with
  | [] => s
  | k :: ks' => rounds ks' (slide win) (round k (nth 0 win 0) s)
  end.

Definition compress (s : hash) (block : list N) : hash :=
  let r := rounds K block s in
  Hash (add32 (ha s) (ha r)) (add32 (hb s) (hb r)) (add32 (hc s) (hc r))
       (add32 (hd s) (hd r)) (add32 (he s) (he r)) (add32 (hf s) (hf r))
       (add32 (hg s) (hg r)) (add32 (hh s) (hh r)).

Fixpoint blocks (fuel : nat) (ws : list N) (s : hash) : hash :=
  match fuel, ws with
  | S fuel', _ :: _ => blocks fuel' (skipn 16 ws) (compress s (firstn 16 ws))
  | _, _ => s
  end.

Definition digest (msg : list byte) : list byte :=
  let ws := be_words (pad msg) in
  let r := blocks (length ws) ws (hash_of_list H0) in
  concat (map (be_bytes 4) [ha r; hb r; hc r; hd r; he r; hf r; hg r; hh r]).

End SHA256.

(** ** Base64: [btoa] *)

Definition base64_alphabet : jsstring :=
  js "ABCDEFGHIJKLMNOPQRSTUVWXYZabcdefghijklmnopqrstuvwxyz0123456789+/".

Definition base64_digit (i : N) : N := nth (N.to_nat i) base64_alphabet 0.

Definition equals_sign : N := 61.

(** RFC 4648 section 4 on a sequence of octets, with padding. *)
Fixpoint base64_encode (bs : list N) : jsstring :=
  match bs with
  | [] => []
  | [a] =>
      [base64_digit (N.shiftr a 2);
       base64_digit (N.shiftl (N.land a 3) 4);
       equals_sign; equals_sign]
  | [a; b] =>
      [base64_digit (N.shiftr a 2);
       base64_digit (N.lor (N.shiftl (N.land a 3) 4) (N.shiftr b 4));
       base64_digit (N.shiftl (N.land b 15) 2);
       equals_sign]
  | a :: b :: c :: rest =>
      [base64_digit (N.shiftr a 2);
       base64_digit (N.lor (N.shiftl (N.land a 3) 4) (N.shiftr b 4));
       base64_digit (N.lor (N.shiftl (N.land b 15) 2) (N.shiftr c 6));
       base64_digit (N.land c 63)] ++ base64_encode rest
  end.

(** Errors a JavaScript computation can throw or reject with. *)
Inductive JSError :=
| Error (message : jsstring)
| TypeError (message : jsstring)
| InvalidCharacterError (message : jsstring).

Definition error_message (e : JSError) : jsstring :=
  match e with
  | Error m | TypeError m | InvalidCharacterError m => m
  end.

(** Outcome of a promise (or of a call that may throw). *)
Inductive Settled (A : Type) :=
| Fulfilled (value : A)
| Rejected (reason : JSError).
Arguments Fulfilled {A} value.
Arguments Rejected {A} reason.

Definition settled_bind {A B} (x : Settled A) (k : A -> Settled B) : Settled B :=
  match x with
  | Fulfilled a => k a
  | Rejected e => Rejected e
  end.

Notation "'await' x <- e ; k" := (settled_bind e (fun x => k))
  (at level 10, x name, e at level 100, k at level 200).

(** [btoa(s)] throws when a code unit is above 0xFF and otherwise
    encodes the code units as octets. *)
Definition btoa (s : jsstring) : Settled jsstring :=
  if forallb (fun c => c <=? 0xFF) s then Fulfilled (base64_encode s)
  else Rejected (InvalidCharacterError (js "Invalid character")).

(** [String.fromCharCode(...bytes)] *)
Definition String_fromCharCode (bs : list byte) : jsstring := map Byte.to_N bs.

(** ** Authentication engine *)

Definition sha256Base64 (message : jsstring) : Settled jsstring :=
  let data := TextEncoder_encode message in
  let hashArray := SHA256.digest data in
  btoa (String_fromCharCode hashArray).

Definition generateAuthString (password salt challenge : jsstring) : Settled jsstring :=
  let saltedPassword := password ++ salt in
  await saltedHash <- sha256Base64 saltedPassword;
  let challengeString := saltedHash ++ challenge in
  await authResponse <- sha256Base64 challengeString;
  Fulfilled authResponse.


(** ** Values exchanged with OBS

    [JSON.parse] yields these values; a property that is absent reads as
    [undefined], which is [None] on the Rocq side. *)

#[warnings="-register-all"]
Inductive JSON :=
| JNull
| JBool (b : bool)
| JNum (n : Z)
| JStr (s : jsstring)
| JArr (items : list JSON)
| JObj (fields : list (jsstring * JSON)).

Definition truthy (v : option JSON) : bool :=
  match v with
  | None | Some JNull => false
  | Some (JBool b) => b
  | Some (JNum n) => negb (n =? 0)%Z
  | Some (JStr s) => match s with [] => false | _ => true end
  | Some (JArr _) | Some (JObj _) => true
  end.

Fixpoint assoc (k : jsstring) (fields : list (jsstring * JSON)) : option JSON :=
  match fields with
  | [] => None
  | (k', v) :: rest => if decide (k = k') then Some v else assoc k rest
  end.

(** [v?.k] for the property names the source reads ([inputSettings],
    [url]), which no prototype defines: only an object can have them. *)
Definition optional_get (v : option JSON) (k : jsstring) : option JSON :=
  match v with
  | Some (JObj fields) => assoc k fields
  | _ => None
  end.

(** [s || fallback] on a stored string that may be absent. *)
Definition or_default (s : option jsstring) (fallback : jsstring) : jsstring :=
  match s with
  | Some (c :: r) => c :: r
  | _ => fallback
  end.

(** [n.toString()] of a non-negative integer. *)
Definition Number_toString (n : N) : jsstring :=
  js (NilEmpty.string_of_uint (N.to_uint n)).

(** ** URL encoding of the highlight payload *)

Definition question_mark : N := 63.
Definition ampersand : N := 38.
Definition plus_sign : N := 43.
Definition percent_sign : N := 37.
Definition space : N := 32.

(** [s.split(sep)] for a separator of one code unit. *)
Fixpoint String_split (sep : N) (s : jsstring) : list jsstring :=
  match s with
  | [] => [[]]
  | c :: rest =>
      if c =? sep then [] :: String_split sep rest
      else match String_split sep rest with
           | piece :: pieces => (c :: piece) :: pieces
           | [] => [[c]]
           end
  end.

(** [baseUrl.split('?')[0]] *)
Definition before_question_mark (baseUrl : jsstring) : jsstring :=
  nth 0 (String_split question_mark baseUrl) [].

(** Bytes the application/x-www-form-urlencoded serializer leaves as
    they are: ASCII alphanumerics and [*-._]. *)
Definition urlencoded_plain (b : N) : bool :=
  ((48 <=? b) && (b <=? 57)) || ((65 <=? b) && (b <=? 90)) || ((97 <=? b) && (b <=? 122))
  || (b =? 42) || (b =? 45) || (b =? 46) || (b =? 95).

Definition upper_hex_digit (d : N) : N := if d <? 10 then 48 + d else 55 + d.

Definition urlencoded_byte (b : byte) : jsstring :=
  let n := Byte.to_N b in
  if urlencoded_plain n then [n]
  else if n =? space then [plus_sign]
  else [percent_sign; upper_hex_digit (n / 16); upper_hex_digit (n mod 16)].

Definition urlencoded_string (s : jsstring) : jsstring :=
  concat (map urlencoded_byte (TextEncoder_encode s)).

(** [new URLSearchParams(record).toString()] *)
Fixpoint URLSearchParams_toString (pairs : list (jsstring * jsstring)) : jsstring :=
  match pairs with
  | [] => []
  | [(k, v)] => urlencoded_string k ++ equals_sign :: urlencoded_string v
  | (k, v) :: rest =>
      urlencoded_string k ++ equals_sign :: urlencoded_string v
        ++ ampersand :: URLSearchParams_toString rest
  end.

Record MessageData := {
  username : jsstring;
  message : jsstring;
  userColor : jsstring;
  timestamp : jsstring;
  extractedAt : N
}.

Definition highlight_params (messageData : MessageData) (now displayDuration : N)
  : list (jsstring * jsstring) :=
  [(js "username", username messageData);
   (js "message", message messageData);
   (js "color", userColor messageData);
   (js "timestamp", Number_toString now);
   (js "duration", Number_toString displayDuration)].

(** ** Frames of the control protocol *)

(** A parsed inbound message, by the value of [op].  [Malformed] stands
    for data on which the handler throws before it touches any state:
    text [JSON.parse] rejects, or a Hello, Event or RequestResponse
    without its [d]. *)
Inductive ServerFrame :=
| Hello (authentication : option (jsstring * jsstring))
| Identified
| Event (eventType : option JSON)
| RequestResponse (requestId : jsstring)
                  (requestStatus : option (bool * option jsstring))
                  (responseData : option JSON)
| RequestBatchResponse
| OtherOp
| Malformed.

(** The [challenge] and [salt] of a Hello that demands authentication. *)
Definition challenge (authentication : jsstring * jsstring) : jsstring := fst authentication.
Definition salt (authentication : jsstring * jsstring) : jsstring := snd authentication.

Inductive ClientFrame :=
| Identify (rpcVersion : N) (authentication : option jsstring)
| Request (requestType requestId : jsstring) (requestData : JSON).

(** ** State of the service worker *)

Inductive ReadyState := CONNECTING | OPEN | CLOSING | CLOSED.

#[global] Instance ReadyState_eq_dec : EqDecision ReadyState.
Proof. solve_decision. Defined.

(** What [chrome.storage.local] holds. *)
Record Storage := {
  obsUrl : option jsstring;
  obsPassword : option jsstring;
  browserSourceName : option jsstring;
  displayDuration : option N;
  stored_autoReconnect : option bool
}.

(** ** Asynchronous procedures

    An [async] function that talks to OBS is a tree of the effects it
    performs on the way to its result: reading the [isAuthenticated]
    global, awaiting [chrome.storage.local.get], reading [Date.now()],
    and awaiting a [sendRequest] promise. *)

Inductive Proc (R : Type) :=
| Return (r : R)
| Throw (e : JSError)
| ReadAuthenticated (k : bool -> Proc R)
| StorageGet (k : Storage -> Proc R)
| DateNow (k : N -> Proc R)
| SendRequest (requestType : jsstring) (requestData : JSON)
              (k : Settled (option JSON) -> Proc R).
Arguments Return {R} r.
Arguments Throw {R} e.
Arguments ReadAuthenticated {R} k.
Arguments StorageGet {R} k.
Arguments DateNow {R} k.
Arguments SendRequest {R} requestType requestData k.

Fixpoint proc_bind {A B} (p : Proc A) (f : A -> Proc B) : Proc B :=
  match p with
  | Return a => f a
  | Throw e => Throw e
  | ReadAuthenticated k => ReadAuthenticated (fun b => proc_bind (k b) f)
  | StorageGet k => StorageGet (fun s => proc_bind (k s) f)
  | DateNow k => DateNow (fun t => proc_bind (k t) f)
  | SendRequest t d k => SendRequest t d (fun o => proc_bind (k o) f)
  end.

(** [try { p } catch (error) { handler }] *)
Fixpoint try_catch {A} (p : Proc A) (handler : JSError -> Proc A) : Proc A :=
  match p with
  | Return a => Return a
  | Throw e => handler e
  | ReadAuthenticated k => ReadAuthenticated (fun b => try_catch (k b) handler)
  | StorageGet k => StorageGet (fun s => try_catch (k s) handler)
  | DateNow k => DateNow (fun t => try_catch (k t) handler)
  | SendRequest t d k => SendRequest t d (fun o => try_catch (k o) handler)
  end.

#[global] Instance Proc_ret : MRet Proc := @Return.
#[global] Instance Proc_bind : MBind Proc := fun A B f p => proc_bind p f.

(** [await promise]: the value, or the rejection thrown. *)
Definition awaited {A} (o : Settled A) : Proc A :=
  match o with
  | Fulfilled v => Return v
  | Rejected e => Throw e
  end.

(** The code waiting on the promise of a [sendRequest] call: the rest of
    the keepalive callback, or the rest of a highlight whose runtime
    message had the [sendResponse] callback [sender]. *)
Inductive Waiter :=
| KeepAlivePing
| HighlightWaiter (k : Settled (option JSON) -> Proc bool) (sender : nat).

(** Code suspended at an [await] (or [then]) on a storage or digest
    promise, with the values it captured. *)
Inductive Task :=
| ConnectAfterStorage (stored_obsUrl : option jsstring)
| HelloAfterStorage (authentication : option (jsstring * jsstring))
                    (stored_obsPassword : option jsstring)
| HelloAfterDigest (identifyMessage : ClientFrame)
| HighlightAfterStorage (rest : Proc bool) (sender : nat)
| SaveSettingsAfterStorage (sender : nat)
| GetSettingsAfterStorage (stored : Storage) (sender : nat)
| InitAfterStorage (stored : option bool).

Inductive TimerKind :=
| RequestTimeout (requestId : jsstring)
| Reconnect
| SaveSettingsReconnect
| KeepAliveTick (id : nat).

#[global] Instance TimerKind_eq_dec : EqDecision TimerKind.
Proof. solve_decision. Defined.

Record Timer := { deadline : N; kind : TimerKind }.

Inductive Response :=
| Success
| Failure (error : jsstring)
| Status (connected authenticated : bool)
| Settings (url password sourceName : jsstring) (duration : N).

Inductive RuntimeMessage :=
| HIGHLIGHT_MESSAGE (data : MessageData)
| CONNECT_OBS
| DISCONNECT_OBS
| GET_STATUS
| SAVE_SETTINGS (data : Storage)
| GET_SETTINGS
| OtherMessage.

(** What the worker does that the outside can observe, and, for the
    ordering properties, what it was handed. *)
Inductive Action :=
| Received (socket : nat) (frame : ServerFrame)
| SocketCreated (socket : nat) (url : jsstring)
| SocketClose (socket : nat)
| Sent (socket : nat) (frame : ClientFrame)
| StatusUpdate (connected authenticated : bool) (error : option jsstring)
| Settle (requestId : jsstring) (outcome : Settled (option JSON))
| KeepAliveStarted (id : nat)
| KeepAliveStopped (id : nat)
| ReconnectScheduled (delay : N)
| Responded (sender : nat) (response : Response).

Record World := {
  (* the globals of the script *)
  obsWebSocket : option nat;
  isConnected : bool;
  isAuthenticated : bool;
  messageRequestId : N;
  pendingRequests : gmap (list N) Waiter;
  reconnectAttempts : N;
  autoReconnect : bool;
  keepAliveInterval : option nat;
  (* the host: sockets by creation order, armed timers, suspended
     code, storage, clock, and the log of actions, newest first *)
  sockets : list ReadyState;
  timers : list Timer;
  tasks : list Task;
  storage : Storage;
  clock : N;
  next_timer : nat;
  trace : list Action
}.

Definition set_obsWebSocket v w : World :=
  {|
    obsWebSocket := v; isConnected := isConnected w; isAuthenticated := isAuthenticated w;
    messageRequestId := messageRequestId w; pendingRequests := pendingRequests w;
    reconnectAttempts := reconnectAttempts w; autoReconnect := autoReconnect w;
    keepAliveInterval := keepAliveInterval w; sockets := sockets w; timers := timers w;
    tasks := tasks w; storage := storage w; clock := clock w; next_timer := next_timer w;
    trace := trace w
  |}.
Definition set_isConnected v w : World :=
  {|
    obsWebSocket := obsWebSocket w; isConnected := v; isAuthenticated := isAuthenticated w;
    messageRequestId := messageRequestId w; pendingRequests := pendingRequests w;
    reconnectAttempts := reconnectAttempts w; autoReconnect := autoReconnect w;
    keepAliveInterval := keepAliveInterval w; sockets := sockets w; timers := timers w;
    tasks := tasks w; storage := storage w; clock := clock w; next_timer := next_timer w;
    trace := trace w
  |}.
Definition set_isAuthenticated v w : World :=
  {|
    obsWebSocket := obsWebSocket w; isConnected := isConnected w; isAuthenticated := v;
    messageRequestId := messageRequestId w; pendingRequests := pendingRequests w;
    reconnectAttempts := reconnectAttempts w; autoReconnect := autoReconnect w;
    keepAliveInterval := keepAliveInterval w; sockets := sockets w; timers := timers w;
    tasks := tasks w; storage := storage w; clock := clock w; next_timer := next_timer w;
    trace := trace w
  |}.
Definition set_messageRequestId v w : World :=
  {|
    obsWebSocket := obsWebSocket w; isConnected := isConnected w;
    isAuthenticated := isAuthenticated w; messageRequestId := v;
    pendingRequests := pendingRequests w; reconnectAttempts := reconnectAttempts w;
    autoReconnect := autoReconnect w; keepAliveInterval := keepAliveInterval w;
    sockets := sockets w; timers := timers w; tasks := tasks w; storage := storage w;
    clock := clock w; next_timer := next_timer w; trace := trace w
  |}.
Definition set_pendingRequests v w : World :=
  {|
    obsWebSocket := obsWebSocket w; isConnected := isConnected w;
    isAuthenticated := isAuthenticated w; messageRequestId := messageRequestId w;
    pendingRequests := v; reconnectAttempts := reconnectAttempts w;
    autoReconnect := autoReconnect w; keepAliveInterval := keepAliveInterval w;
    sockets := sockets w; timers := timers w; tasks := tasks w; storage := storage w;
    clock := clock w; next_timer := next_timer w; trace := trace w
  |}.
Definition set_reconnectAttempts v w : World :=
  {|
    obsWebSocket := obsWebSocket w; isConnected := isConnected w;
    isAuthenticated := isAuthenticated w; messageRequestId := messageRequestId w;
    pendingRequests := pendingRequests w; reconnectAttempts := v;
    autoReconnect := autoReconnect w; keepAliveInterval := keepAliveInterval w;
    sockets := sockets w; timers := timers w; tasks := tasks w; storage := storage w;
    clock := clock w; next_timer := next_timer w; trace := trace w
  |}.
Definition set_autoReconnect v w : World :=
  {|
    obsWebSocket := obsWebSocket w; isConnected := isConnected w;
    isAuthenticated := isAuthenticated w; messageRequestId := messageRequestId w;
    pendingRequests := pendingRequests w; reconnectAttempts := reconnectAttempts w;
    autoReconnect := v; keepAliveInterval := keepAliveInterval w; sockets := sockets w;
    timers := timers w; tasks := tasks w; storage := storage w; clock := clock w;
    next_timer := next_timer w; trace := trace w
  |}.
Definition set_keepAliveInterval v w : World :=
  {|
    obsWebSocket := obsWebSocket w; isConnected := isConnected w;
    isAuthenticated := isAuthenticated w; messageRequestId := messageRequestId w;
    pendingRequests := pendingRequests w; reconnectAttempts := reconnectAttempts w;
    autoReconnect := autoReconnect w; keepAliveInterval := v; sockets := sockets w;
    timers := timers w; tasks := tasks w; storage := storage w; clock := clock w;
    next_timer := next_timer w; trace := trace w
  |}.
Definition set_sockets v w : World :=
  {|
    obsWebSocket := obsWebSocket w; isConnected := isConnected w;
    isAuthenticated := isAuthenticated w; messageRequestId := messageRequestId w;
    pendingRequests := pendingRequests w; reconnectAttempts := reconnectAttempts w;
    autoReconnect := autoReconnect w; keepAliveInterval := keepAliveInterval w;
    sockets := v; timers := timers w; tasks := tasks w; storage := storage w;
    clock := clock w; next_timer := next_timer w; trace := trace w
  |}.
Definition set_timers v w : World :=
  {|
    obsWebSocket := obsWebSocket w; isConnected := isConnected w;
    isAuthenticated := isAuthenticated w; messageRequestId := messageRequestId w;
    pendingRequests := pendingRequests w; reconnectAttempts := reconnectAttempts w;
    autoReconnect := autoReconnect w; keepAliveInterval := keepAliveInterval w;
    sockets := sockets w; timers := v; tasks := tasks w; storage := storage w;
    clock := clock w; next_timer := next_timer w; trace := trace w
  |}.
Definition set_tasks v w : World :=
  {|
    obsWebSocket := obsWebSocket w; isConnected := isConnected w;
    isAuthenticated := isAuthenticated w; messageRequestId := messageRequestId w;
    pendingRequests := pendingRequests w; reconnectAttempts := reconnectAttempts w;
    autoReconnect := autoReconnect w; keepAliveInterval := keepAliveInterval w;
    sockets := sockets w; timers := timers w; tasks := v; storage := storage w;
    clock := clock w; next_timer := next_timer w; trace := trace w
  |}.
Definition set_storage v w : World :=
  {|
    obsWebSocket := obsWebSocket w; isConnected := isConnected w;
    isAuthenticated := isAuthenticated w; messageRequestId := messageRequestId w;
    pendingRequests := pendingRequests w; reconnectAttempts := reconnectAttempts w;
    autoReconnect := autoReconnect w; keepAliveInterval := keepAliveInterval w;
    sockets := sockets w; timers := timers w; tasks := tasks w; storage := v;
    clock := clock w; next_timer := next_timer w; trace := trace w
  |}.
Definition set_clock v w : World :=
  {|
    obsWebSocket := obsWebSocket w; isConnected := isConnected w;
    isAuthenticated := isAuthenticated w; messageRequestId := messageRequestId w;
    pendingRequests := pendingRequests w; reconnectAttempts := reconnectAttempts w;
    autoReconnect := autoReconnect w; keepAliveInterval := keepAliveInterval w;
    sockets := sockets w; timers := timers w; tasks := tasks w; storage := storage w;
    clock := v; next_timer := next_timer w; trace := trace w
  |}.
Definition set_next_timer v w : World :=
  {|
    obsWebSocket := obsWebSocket w; isConnected := isConnected w;
    isAuthenticated := isAuthenticated w; messageRequestId := messageRequestId w;
    pendingRequests := pendingRequests w; reconnectAttempts := reconnectAttempts w;
    autoReconnect := autoReconnect w; keepAliveInterval := keepAliveInterval w;
    sockets := sockets w; timers := timers w; tasks := tasks w; storage := storage w;
    clock := clock w; next_timer := v; trace := trace w
  |}.
Definition set_trace v w : World :=
  {|
    obsWebSocket := obsWebSocket w; isConnected := isConnected w;
    isAuthenticated := isAuthenticated w; messageRequestId := messageRequestId w;
    pendingRequests := pendingRequests w; reconnectAttempts := reconnectAttempts w;
    autoReconnect := autoReconnect w; keepAliveInterval := keepAliveInterval w;
    sockets := sockets w; timers := timers w; tasks := tasks w; storage := storage w;
    clock := clock w; next_timer := next_timer w; trace := v
  |}.

(** ** The composed highlight operation *)

Definition OBS_CONFIG_url : jsstring := js "ws://localhost:4455".
Definition OBS_CONFIG_password : jsstring := [].
Definition OBS_CONFIG_browserSourceName : jsstring := js "TwitchHighlight".

(** [await sendRequest(requestType, requestData)] inside a procedure. *)
Definition sendRequest_await (requestType : jsstring) (requestData : JSON)
  : Proc (option JSON) :=
  SendRequest requestType requestData awaited.

Definition source_not_found (sourceName : jsstring) : jsstring :=
  js "Browser source " ++ dquote :: sourceName ++ dquote ::
  js " not found or has no URL. Please create a browser source named " ++
  dquote :: sourceName ++ dquote :: js " in OBS.".

(** [x || ''] *)
Definition or_empty (v : option JSON) : option JSON :=
  if truthy v then v else Some (JStr []).

Definition sendHighlightToOBS (messageData : MessageData) : Proc bool :=
  authenticated ← ReadAuthenticated Return;
  if negb authenticated then Throw (Error (js "Not connected to OBS")) else
  stored ← StorageGet Return;
  let sourceName := or_default (browserSourceName stored) OBS_CONFIG_browserSourceName in
  let displayDuration :=
    match displayDuration stored with Some (N.pos d) => N.pos d | _ => 8 end in
  now ← DateNow Return;
  let params := highlight_params messageData now displayDuration in
  try_catch
    (currentSettings ← sendRequest_await (js "GetInputSettings")
                         (JObj [(js "inputName", JStr sourceName)]);
     let baseUrl := or_empty (optional_get (optional_get currentSettings (js "inputSettings"))
                                           (js "url")) in
     if negb (truthy baseUrl) then Throw (Error (source_not_found sourceName)) else
     match baseUrl with
     | Some (JStr baseUrl) =>
         let urlBase := before_question_mark baseUrl in
         let newUrl := urlBase ++ question_mark :: URLSearchParams_toString params in
         _ ← sendRequest_await (js "SetInputSettings")
               (JObj [(js "inputName", JStr sourceName);
                      (js "inputSettings", JObj [(js "url", JStr newUrl)])]);
         _ ← sendRequest_await (js "PressInputPropertiesButton")
               (JObj [(js "inputName", JStr sourceName);
                      (js "propertyName", JStr (js "refreshnocache"))]);
         Return true
     | _ => Throw (TypeError (js "baseUrl.split is not a function"))
     end)
    (fun error => Throw error).

(** A procedure run against a host that answers its requests in order:
    the requests it issued, oldest first, and its outcome, if it got
    that far. *)
Fixpoint run_proc {R} (p : Proc R) (authenticated : bool) (stored : Storage) (now : N)
         (answers : list (Settled (option JSON)))
  : list (jsstring * JSON) * option (Settled R) :=
  match p with
  | Return r => ([], Some (Fulfilled r))
  | Throw e => ([], Some (Rejected e))
  | ReadAuthenticated k => run_proc (k authenticated) authenticated stored now answers
  | StorageGet k => run_proc (k stored) authenticated stored now answers
  | DateNow k => run_proc (k now) authenticated stored now answers
  | SendRequest t d k =>
      match answers with
      | [] => ([(t, d)], None)
      | a :: rest =>
          let '(issued, outcome) := run_proc (k a) authenticated stored now rest in
          ((t, d) :: issued, outcome)
      end
  end.

(** The listener's [.then(...).catch(...)] on the highlight promise. *)
Definition highlight_response (outcome : Settled bool) : Response :=
  match outcome with
  | Fulfilled _ => Success
  | Rejected error => Failure (error_message error)
  end.

(** ** The event handlers of the service worker *)

Section Client.

(** Whether [new WebSocket(url)] accepts the URL (it throws a
    SyntaxError otherwise); a property of the browser. *)
Variable WebSocket_accepts : jsstring -> bool.

Definition emit (a : Action) (w : World) : World := set_trace (a :: trace w) w.

Definition suspend (t : Task) (w : World) : World := set_tasks (tasks w ++ [t]) w.

Definition setTimeout (k : TimerKind) (delay : N) (w : World) : World :=
  set_timers (timers w ++ [{| deadline := clock w + delay; kind := k |}]) w.

(** [obsWebSocket && obsWebSocket.readyState === WebSocket.OPEN] *)
Definition open_socket (w : World) : option nat :=
  match obsWebSocket w with
  | Some s => if decide (sockets w !! s = Some OPEN) then Some s else None
  | None => None
  end.

Definition sendToOBS (frame : ClientFrame) (w : World) : bool * World :=
  match open_socket w with
  | Some s => (true, emit (Sent s frame) w)
  | None => (false, w)
  end.

Definition broadcastStatus (error : option jsstring) (w : World) : World :=
  emit (StatusUpdate (isConnected w) (isAuthenticated w) error) w.

Definition respond (sender : nat) (r : Response) (w : World) : World :=
  emit (Responded sender r) w.

Definition request_id (n : N) : jsstring := js "req_" ++ Number_toString n.

(** [sendRequest]: the promise stays pending ([None]) or is rejected
    on the spot ([Some error]); the caller then runs what awaits it. *)
Definition sendRequest (requestType : jsstring) (requestData : JSON) (waiter : Waiter)
           (w : World) : option JSError * World :=
  let requestId := request_id (messageRequestId w) in
  let w := set_messageRequestId (messageRequestId w + 1) w in
  let w := set_pendingRequests (<[requestId := waiter]> (pendingRequests w)) w in
  let w := setTimeout (RequestTimeout requestId) 10000 w in
  let '(sent, w) := sendToOBS (Request requestType requestId requestData) w in
  if sent then (None, w)
  else
    let w := set_pendingRequests (delete requestId (pendingRequests w)) w in
    let error := Error (js "WebSocket not connected") in
    (Some error, emit (Settle requestId (Rejected error)) w).

Definition connectToOBS (userInitiated : bool) (w : World) : World :=
  match open_socket w with
  | Some _ => w
  | None =>
      let w := if userInitiated
               then set_reconnectAttempts 0 (set_autoReconnect true w)
               else w in
      suspend (ConnectAfterStorage (obsUrl (storage w))) w
  end.

Definition connectToOBS_resume (stored_obsUrl : option jsstring) (w : World) : World :=
  let url := or_default stored_obsUrl OBS_CONFIG_url in
  if WebSocket_accepts url then
    let s := length (sockets w) in
    let w := set_sockets (sockets w ++ [CONNECTING]) w in
    let w := set_obsWebSocket (Some s) w in
    emit (SocketCreated s url) w
  else broadcastStatus (Some (js "Failed to connect")) w.

Definition stopKeepAlive (w : World) : World :=
  match keepAliveInterval w with
  | Some id =>
      let w := set_timers
                 (filter (fun t => kind t ≠ KeepAliveTick id) (timers w)) w in
      let w := set_keepAliveInterval None w in
      emit (KeepAliveStopped id) w
  | None => w
  end.

Definition startKeepAlive (w : World) : World :=
  let w := stopKeepAlive w in
  let id := next_timer w in
  let w := set_next_timer (S id) w in
  let w := setTimeout (KeepAliveTick id) 20000 w in
  let w := set_keepAliveInterval (Some id) w in
  emit (KeepAliveStarted id) w.

(** The highlight procedure run by the worker up to its next
    suspension; its end answers the runtime message. *)
Fixpoint exec (p : Proc bool) (sender : nat) (w : World) : World :=
  match p with
  | Return r => respond sender (highlight_response (Fulfilled r)) w
  | Throw e => respond sender (highlight_response (Rejected e)) w
  | ReadAuthenticated k => exec (k (isAuthenticated w)) sender w
  | StorageGet k => suspend (HighlightAfterStorage (k (storage w)) sender) w
  | DateNow k => exec (k (clock w)) sender w
  | SendRequest t d k =>
      match sendRequest t d (HighlightWaiter k sender) w with
      | (None, w) => w
      | (Some error, w) => exec (k (Rejected error)) sender w
      end
  end.

(** The keepalive callback after its ping failed. *)
Definition keepAlive_failed (w : World) : World :=
  connectToOBS true (set_reconnectAttempts 0 w).

(** A [sendRequest] promise settles: the code awaiting it runs. *)
Definition resume_waiter (waiter : Waiter) (outcome : Settled (option JSON))
           (w : World) : World :=
  match waiter with
  | KeepAlivePing =>
      match outcome with
      | Fulfilled _ => w
      | Rejected _ => keepAlive_failed w
      end
  | HighlightWaiter k sender => exec (k outcome) sender w
  end.

Definition settle (requestId : jsstring) (waiter : Waiter)
           (outcome : Settled (option JSON)) (w : World) : World :=
  resume_waiter waiter outcome (emit (Settle requestId outcome) w).

(** The callback [sendRequest] hands to [setTimeout]. *)
Definition request_timeout (requestId : jsstring) (w : World) : World :=
  match pendingRequests w !! requestId with
  | Some waiter =>
      let w := set_pendingRequests (delete requestId (pendingRequests w)) w in
      settle requestId waiter (Rejected (Error (js "Request timeout"))) w
  | None => w
  end.

Definition handleRequestResponse (requestId : jsstring)
           (requestStatus : option (bool * option jsstring))
           (responseData : option JSON) (w : World) : World :=
  match pendingRequests w !! requestId with
  | Some pending =>
      let w := set_pendingRequests (delete requestId (pendingRequests w)) w in
      match requestStatus with
      | Some (true, _) => settle requestId pending (Fulfilled responseData) w
      | Some (false, comment) =>
          settle requestId pending
                 (Rejected (Error (or_default comment (js "Request failed")))) w
      | None => w (* [requestStatus.result] throws a TypeError *)
      end
  | None => w
  end.

Definition handleHello (authentication : option (jsstring * jsstring)) (w : World) : World :=
  suspend (HelloAfterStorage authentication (obsPassword (storage w))) w.

Definition handleHello_resume (authentication : option (jsstring * jsstring))
           (stored_obsPassword : option jsstring) (w : World) : World :=
  let password := or_default stored_obsPassword OBS_CONFIG_password in
  match authentication with
  | Some authentication =>
      match password with
      | [] => broadcastStatus (Some (js "Password required")) w
      | _ =>
          match generateAuthString password (salt authentication)
                                   (challenge authentication) with
          | Fulfilled authString =>
              suspend (HelloAfterDigest (Identify 1 (Some authString))) w
          | Rejected _ => w
          end
      end
  | None => snd (sendToOBS (Identify 1 None) w)
  end.

Definition handleOBSMessage (socket : nat) (frame : ServerFrame) (w : World) : World :=
  match frame with
  | Malformed => w
  | _ =>
      let w := emit (Received socket frame) w in
      match frame with
      | Hello authentication => handleHello authentication w
      | Identified =>
          let w := set_isAuthenticated true w in
          let w := startKeepAlive w in
          broadcastStatus None w
      | RequestResponse requestId requestStatus responseData =>
          handleRequestResponse requestId requestStatus responseData w
      | _ => w
      end
  end.

Definition onopen (w : World) : World :=
  let w := set_isConnected true w in
  let w := set_reconnectAttempts 0 w in
  broadcastStatus None w.

Definition onerror (w : World) : World :=
  broadcastStatus (Some (js "Connection error - is OBS running?")) w.

Definition reconnect_delay (attempts : N) : N := N.min (attempts * 2000) 30000.

Definition onclose (w : World) : World :=
  let wasConnected := isConnected w in
  let w := set_isConnected false w in
  let w := set_isAuthenticated false w in
  let w := set_obsWebSocket None w in
  let w := stopKeepAlive w in
  let w := if wasConnected then broadcastStatus (Some (js "Disconnected")) w else w in
  if autoReconnect w then
    let w := set_reconnectAttempts (reconnectAttempts w + 1) w in
    let delay := reconnect_delay (reconnectAttempts w) in
    let w := emit (ReconnectScheduled delay) w in
    setTimeout Reconnect delay w
  else w.

(** [socket.close()] *)
Definition WebSocket_close (s : nat) (w : World) : World :=
  match sockets w !! s with
  | Some CONNECTING | Some OPEN =>
      emit (SocketClose s) (set_sockets (<[s := CLOSING]> (sockets w)) w)
  | _ => w
  end.

Definition disconnectFromOBS (w : World) : World :=
  let w := set_autoReconnect false w in
  let w := set_reconnectAttempts 0 w in
  let w := stopKeepAlive w in
  let w := match obsWebSocket w with
           | Some s => set_obsWebSocket None (WebSocket_close s w)
           | None => w
           end in
  let w := set_isConnected false w in
  set_isAuthenticated false w.

(** The callback [startKeepAlive] hands to [setInterval]. *)
Definition keepAlive_tick (w : World) : World :=
  if isAuthenticated w && bool_decide (is_Some (open_socket w)) then
    match sendRequest (js "GetVersion") (JObj []) KeepAlivePing w with
    | (None, w) => w
    | (Some _, w) => keepAlive_failed w
    end
  else if autoReconnect w && negb (isConnected w) then
    connectToOBS true (set_reconnectAttempts 0 w)
  else w.

(** [chrome.storage.local.set(items)]: the keys present overwrite. *)
Definition storage_set (items old : Storage) : Storage :=
  {| obsUrl := from_option Some (obsUrl old) (obsUrl items);
     obsPassword := from_option Some (obsPassword old) (obsPassword items);
     browserSourceName :=
       from_option Some (browserSourceName old) (browserSourceName items);
     displayDuration := from_option Some (displayDuration old) (displayDuration items);
     stored_autoReconnect :=
       from_option Some (stored_autoReconnect old) (stored_autoReconnect items) |}.

Definition only_autoReconnect (b : bool) : Storage :=
  {| obsUrl := None; obsPassword := None; browserSourceName := None;
     displayDuration := None; stored_autoReconnect := Some b |}.

(** The [chrome.runtime.onMessage] listener. *)
Definition onMessage (sender : nat) (m : RuntimeMessage) (w : World) : World :=
  match m with
  | HIGHLIGHT_MESSAGE data => exec (sendHighlightToOBS data) sender w
  | CONNECT_OBS =>
      let w := connectToOBS true w in
      respond sender Success w
  | DISCONNECT_OBS =>
      let w := set_storage (storage_set (only_autoReconnect false) (storage w)) w in
      let w := disconnectFromOBS w in
      respond sender Success w
  | GET_STATUS => respond sender (Status (isConnected w) (isAuthenticated w)) w
  | SAVE_SETTINGS data =>
      let w := set_storage
                 (storage_set (only_autoReconnect true) (storage_set data (storage w))) w in
      suspend (SaveSettingsAfterStorage sender) w
  | GET_SETTINGS => suspend (GetSettingsAfterStorage (storage w) sender) w
  | OtherMessage => w
  end.

Definition resume (t : Task) (w : World) : World :=
  match t with
  | ConnectAfterStorage stored_obsUrl => connectToOBS_resume stored_obsUrl w
  | HelloAfterStorage authentication stored_obsPassword =>
      handleHello_resume authentication stored_obsPassword w
  | HelloAfterDigest identifyMessage => snd (sendToOBS identifyMessage w)
  | HighlightAfterStorage rest sender => exec rest sender w
  | SaveSettingsAfterStorage sender =>
      let w := respond sender Success w in
      let w := disconnectFromOBS w in
      setTimeout SaveSettingsReconnect 500 w
  | GetSettingsAfterStorage stored sender =>
      respond sender
              (Settings (or_default (obsUrl stored) OBS_CONFIG_url)
                        (or_default (obsPassword stored) [])
                        (or_default (browserSourceName stored) OBS_CONFIG_browserSourceName)
                        (match displayDuration stored with Some (N.pos d) => N.pos d | _ => 8 end))
              w
  | InitAfterStorage stored =>
      match stored with
      | Some true => connectToOBS false (set_autoReconnect true w)
      | _ => w
      end
  end.

Definition fire (t : Timer) (w : World) : World :=
  match kind t with
  | RequestTimeout requestId => request_timeout requestId w
  | Reconnect => connectToOBS false w
  | SaveSettingsReconnect => connectToOBS true w
  | KeepAliveTick id =>
      keepAlive_tick (setTimeout (KeepAliveTick id) 20000 w)
  end.

(** ** Events of the host *)

Inductive HostEvent :=
| SocketOpens (socket : nat)
| SocketMessage (socket : nat) (frame : ServerFrame)
| SocketError (socket : nat)
| SocketCloses (socket : nat)
| TimerFires (index : nat)
| TaskResumes (index : nat)
| RuntimeMessageArrives (sender : nat) (m : RuntimeMessage)
| TimePasses (ms : N).

Definition step (w : World) (e : HostEvent) : World :=
  match e with
  | SocketOpens s =>
      match sockets w !! s with
      | Some CONNECTING => onopen (set_sockets (<[s := OPEN]> (sockets w)) w)
      | _ => w
      end
  | SocketMessage s frame =>
      match sockets w !! s with
      | Some OPEN => handleOBSMessage s frame w
      | _ => w
      end
  | SocketError s =>
      match sockets w !! s with
      | Some CONNECTING | Some OPEN | Some CLOSING => onerror w
      | _ => w
      end
  | SocketCloses s =>
      match sockets w !! s with
      | Some CONNECTING | Some OPEN | Some CLOSING =>
          onclose (set_sockets (<[s := CLOSED]> (sockets w)) w)
      | _ => w
      end
  | TimerFires i =>
      match timers w !! i with
      | Some t =>
          if deadline t <=? clock w
          then fire t (set_timers (delete i (timers w)) w)
          else w
      | None => w
      end
  | TaskResumes i =>
      match tasks w !! i with
      | Some t => resume t (set_tasks (delete i (tasks w)) w)
      | None => w
      end
  | RuntimeMessageArrives sender m => onMessage sender m w
  | TimePasses ms => set_clock (clock w + ms) w
  end.

Definition run (w : World) (events : list HostEvent) : World :=
  fold_left step events w.

(** The worker as its script ends: the globals as declared, and the
    start-up read of [autoReconnect] under way. *)
Definition init (stored : Storage) (now : N) : World :=
  {| obsWebSocket := None; isConnected := false; isAuthenticated := false;
     messageRequestId := 1; pendingRequests := ∅; reconnectAttempts := 0;
     autoReconnect := false; keepAliveInterval := None;
     sockets := []; timers := []; tasks := [InitAfterStorage (stored_autoReconnect stored)];
     storage := stored; clock := now; next_timer := 1; trace := [] |}.

End Client.

(** * Properties *)

(** ** Authentication engine *)

(** The digest scheme in the specification's words. *)
Definition spec_SHA256 (text : jsstring) : list byte :=
  SHA256.digest (TextEncoder_encode text).
Definition spec_base64 (octets : list byte) : jsstring :=
  base64_encode (map Byte.to_N octets).
Definition spec_secretDigest (password salt : jsstring) : jsstring :=
  spec_base64 (spec_SHA256 (password ++ salt)).
Definition spec_authResponse (password salt challenge : jsstring) : jsstring :=
  spec_base64 (spec_SHA256 (spec_secretDigest password salt ++ challenge)).

Lemma byte_to_N_le_255 (b : byte) : (Byte.to_N b <=? 0xFF) = true.
Proof. destruct b; reflexivity. Qed.

Lemma fromCharCode_is_binary (bs : list byte) :
  forallb (fun c => c <=? 0xFF) (String_fromCharCode bs) = true.
Proof.
  induction bs as [|b bs IH]; simpl; [reflexivity|].
  rewrite byte_to_N_le_255. exact IH.
Qed.

(** [btoa] never throws on the string made from a byte array. *)
Lemma btoa_fromCharCode (bs : list byte) :
  btoa (String_fromCharCode bs) = Fulfilled (spec_base64 bs).
Proof. unfold btoa. rewrite fromCharCode_is_binary. reflexivity. Qed.

Lemma sha256Base64_spec (text : jsstring) :
  sha256Base64 text = Fulfilled (spec_base64 (spec_SHA256 text)).
Proof. unfold sha256Base64. apply btoa_fromCharCode. Qed.

(** Test vectors: FIPS 180-4 for SHA-256, RFC 4648 for base64, and the
    example of the obs-websocket protocol for the whole scheme. *)
Definition hex_of_bytes (bs : list byte) : jsstring :=
  concat (map (fun b => [nth (N.to_nat (Byte.to_N b / 16)) (js "0123456789abcdef") 0;
                         nth (N.to_nat (Byte.to_N b mod 16)) (js "0123456789abcdef") 0]) bs).

Example sha256_abc :
  hex_of_bytes (spec_SHA256 (js "abc")) =
  js "ba7816bf8f01cfea414140de5dae2223b00361a396177a9cb410ff61f20015ad".
Proof. vm_compute. reflexivity. Qed.

Example sha256_empty :
  hex_of_bytes (spec_SHA256 []) =
  js "e3b0c44298fc1c149afbf4c8996fb92427ae41e4649b934ca495991b7852b855".
Proof. vm_compute. reflexivity. Qed.

Example sha256_two_blocks :
  hex_of_bytes (spec_SHA256 (js "abcdbcdecdefdefgefghfghighijhijkijkljklmklmnlmnomnopnopq")) =
  js "248d6a61d20638b8e5c026930c3e6039a33ce45964ff2167f6ecedd419db06c1".
Proof. vm_compute. reflexivity. Qed.

Example base64_rfc4648 :
  map base64_encode [js ""; js "f"; js "fo"; js "foo"; js "foob"; js "fooba"; js "foobar"] =
  [js ""; js "Zg=="; js "Zm8="; js "Zm9v"; js "Zm9vYg=="; js "Zm9vYmE="; js "Zm9vYmFy"].
Proof. vm_compute. reflexivity. Qed.

Example generateAuthString_obs_example :
  generateAuthString (js "supersecretpassword")
                     (js "lM1GncleQOaCu9lT1yeUZhFYnqhsLLP1G5lAGo3ixaI=")
                     (js "+IxH4CnCiqpX1rM9scsNynZzbOe4KhDeYcTNS3PDaeY=") =
  Fulfilled (js "1Ct943GAT+6YQUUX47Ia/ncufilbe6+oD6lY+5kaCu4=").
Proof. vm_compute. reflexivity. Qed.

(** A password outside ASCII, with a supplementary character: the
    digest is taken over the UTF-8 bytes. *)
Example generateAuthString_utf8 :
  generateAuthString (js "p" ++ [0xE4; 0x20AC; 0xD83D; 0xDE00]) (js "s") (js "c") =
  Fulfilled (js "8ulsjkR2SlL5pUd+7VtDdepvlt+ALQUh3VsvTggzmPY=").
Proof. vm_compute. reflexivity. Qed.

(** ** Base64 read back

    The decoder of RFC 4648 section 4, as the reader of an
    authentication string applies it; the encoder behind [btoa] is
    standard in that decoding gives back the octets. *)

Definition base64_digit_value (c : N) : option N :=
  if (65 <=? c) && (c <=? 90) then Some (c - 65)
  else if (97 <=? c) && (c <=? 122) then Some (c - 71)
  else if (48 <=? c) && (c <=? 57) then Some (c + 4)
  else if c =? 43 then Some 62
  else if c =? 47 then Some 63
  else None.

Fixpoint spec_base64_decode (s : jsstring) : option (list N) :=
  match s with
  | [] => Some []
  | c0 :: c1 :: c2 :: c3 :: rest =>
      match base64_digit_value c0, base64_digit_value c1 with
      | Some d0, Some d1 =>
          let b0 := d0 * 4 + d1 / 16 in
          if c2 =? equals_sign then
            match rest with
            | [] => if c3 =? equals_sign then Some [b0] else None
            | _ => None
            end
          else
            match base64_digit_value c2 with
            | Some d2 =>
                let b1 := (d1 mod 16) * 16 + d2 / 4 in
                if c3 =? equals_sign then
                  match rest with
                  | [] => Some [b0; b1]
                  | _ => None
                  end
                else
                  match base64_digit_value c3 with
                  | Some d3 =>
                      let b2 := (d2 mod 4) * 64 + d3 in
                      match spec_base64_decode rest with
                      | Some octets => Some (b0 :: b1 :: b2 :: octets)
                      | None => None
                      end
                  | None => None
                  end
            | None => None
            end
      | _, _ => None
      end
  | _ => None
  end.

Definition all_octets : list N := map N.of_nat (seq 0 256).

Lemma octet_in_octets (n : N) : n < 256 -> In n all_octets.
Proof.
  intros H. unfold all_octets. apply in_map_iff. exists (N.to_nat n). split; [lia|].
  apply in_seq. lia.
Qed.

(** A check on all octets, or on all pairs of octets, run once. *)
Lemma for_all_octets (P : N -> bool) :
  forallb P all_octets = true -> forall a, a < 256 -> P a = true.
Proof. intros H a Ha. rewrite forallb_forall in H. apply H, octet_in_octets, Ha. Qed.

Lemma for_all_octet_pairs (P : N -> N -> bool) :
  forallb (fun a => forallb (P a) all_octets) all_octets = true ->
  forall a b, a < 256 -> b < 256 -> P a b = true.
Proof.
  intros H a b Ha Hb. rewrite forallb_forall in H.
  specialize (H a (octet_in_octets a Ha)). rewrite forallb_forall in H.
  apply H, octet_in_octets, Hb.
Qed.

(** The four digits of three octets, as [base64_encode] computes them. *)
Definition sextet0 (a : N) : N := N.shiftr a 2.
Definition sextet1 (a b : N) : N := N.lor (N.shiftl (N.land a 3) 4) (N.shiftr b 4).
Definition sextet2 (b c : N) : N := N.lor (N.shiftl (N.land b 15) 2) (N.shiftr c 6).
Definition sextet3 (c : N) : N := N.land c 63.

Definition is_digit_of (d : N) : bool :=
  (d <? 64)
  && match base64_digit_value (base64_digit d) with Some d' => d' =? d | None => false end
  && negb (base64_digit d =? equals_sign).

Lemma sextet0_digit a : a < 256 -> is_digit_of (sextet0 a) = true.
Proof. apply (for_all_octets (fun a => is_digit_of (sextet0 a))). vm_compute. reflexivity. Qed.

Lemma sextet3_digit c : c < 256 -> is_digit_of (sextet3 c) = true.
Proof. apply (for_all_octets (fun c => is_digit_of (sextet3 c))). vm_compute. reflexivity. Qed.

Lemma sextet1_digit a b : a < 256 -> b < 256 -> is_digit_of (sextet1 a b) = true.
Proof.
  apply (for_all_octet_pairs (fun a b => is_digit_of (sextet1 a b))). vm_compute. reflexivity.
Qed.

Lemma sextet2_digit b c : b < 256 -> c < 256 -> is_digit_of (sextet2 b c) = true.
Proof.
  apply (for_all_octet_pairs (fun b c => is_digit_of (sextet2 b c))). vm_compute. reflexivity.
Qed.

Lemma sextet1_last_digit a : a < 256 -> is_digit_of (N.shiftl (N.land a 3) 4) = true.
Proof.
  apply (for_all_octets (fun a => is_digit_of (N.shiftl (N.land a 3) 4))).
  vm_compute. reflexivity.
Qed.

Lemma sextet2_last_digit b : b < 256 -> is_digit_of (N.shiftl (N.land b 15) 2) = true.
Proof.
  apply (for_all_octets (fun b => is_digit_of (N.shiftl (N.land b 15) 2))).
  vm_compute. reflexivity.
Qed.

Lemma is_digit_of_value d :
  is_digit_of d = true ->
  base64_digit_value (base64_digit d) = Some d /\ (base64_digit d =? equals_sign) = false.
Proof.
  unfold is_digit_of. intros H.
  apply andb_true_iff in H as [H Hne]. apply andb_true_iff in H as [_ H].
  apply negb_true_iff in Hne. split; [|exact Hne].
  destruct (base64_digit_value (base64_digit d)) as [d'|]; [|discriminate].
  apply N.eqb_eq in H. congruence.
Qed.

(** The octets come back from their digits. *)
Lemma first_octet a b :
  a < 256 -> b < 256 -> (sextet0 a * 4 + sextet1 a b / 16 =? a) = true.
Proof.
  apply (for_all_octet_pairs (fun a b => sextet0 a * 4 + sextet1 a b / 16 =? a)).
  vm_compute. reflexivity.
Qed.

Lemma first_octet_alone a :
  a < 256 -> (sextet0 a * 4 + N.shiftl (N.land a 3) 4 / 16 =? a) = true.
Proof.
  apply (for_all_octets (fun a => sextet0 a * 4 + N.shiftl (N.land a 3) 4 / 16 =? a)).
  vm_compute. reflexivity.
Qed.

Lemma second_octet_high a b :
  a < 256 -> b < 256 -> (sextet1 a b mod 16 =? b / 16) = true.
Proof.
  apply (for_all_octet_pairs (fun a b => sextet1 a b mod 16 =? b / 16)).
  vm_compute. reflexivity.
Qed.

Lemma second_octet_low b c :
  b < 256 -> c < 256 -> (b / 16 * 16 + sextet2 b c / 4 =? b) = true.
Proof.
  apply (for_all_octet_pairs (fun b c => b / 16 * 16 + sextet2 b c / 4 =? b)).
  vm_compute. reflexivity.
Qed.

Lemma second_octet_alone b :
  b < 256 -> (b / 16 * 16 + N.shiftl (N.land b 15) 2 / 4 =? b) = true.
Proof.
  apply (for_all_octets (fun b => b / 16 * 16 + N.shiftl (N.land b 15) 2 / 4 =? b)).
  vm_compute. reflexivity.
Qed.

Lemma third_octet b c :
  b < 256 -> c < 256 -> (sextet2 b c mod 4 * 64 + sextet3 c =? c) = true.
Proof.
  apply (for_all_octet_pairs (fun b c => sextet2 b c mod 4 * 64 + sextet3 c =? c)).
  vm_compute. reflexivity.
Qed.

Lemma list_ind3 {A} (P : list A -> Prop) :
  P [] -> (forall a, P [a]) -> (forall a b, P [a; b]) ->
  (forall a b c rest, P rest -> P (a :: b :: c :: rest)) ->
  forall l, P l.
Proof.
  intros H0 H1 H2 H3. fix IH 1.
  intros [|a [|b [|c rest]]]; [exact H0 | apply H1 | apply H2 | apply H3, IH].
Qed.

Ltac digit_known H :=
  apply is_digit_of_value in H as [? ?].

(** Decoding what [base64_encode] made of octets gives the octets. *)
Lemma spec_base64_decode_encode (bs : list N) :
  Forall (fun b => b < 256) bs -> spec_base64_decode (base64_encode bs) = Some bs.
Proof.
  induction bs as [|a|a b|a b c rest IH] using list_ind3; intros Hbs.
  - reflexivity.
  - apply Forall_cons in Hbs as [Ha _].
    pose proof (sextet0_digit a Ha) as D0. digit_known D0.
    pose proof (sextet1_last_digit a Ha) as D1. digit_known D1.
    pose proof (first_octet_alone a Ha) as E0. apply N.eqb_eq in E0.
    unfold sextet0 in *. cbn [base64_encode spec_base64_decode].
    rewrite H, H1, N.eqb_refl, E0. reflexivity.
  - apply Forall_cons in Hbs as [Ha Hbs]. apply Forall_cons in Hbs as [Hb _].
    pose proof (sextet0_digit a Ha) as D0. digit_known D0.
    pose proof (sextet1_digit a b Ha Hb) as D1. digit_known D1.
    pose proof (sextet2_last_digit b Hb) as D2. digit_known D2.
    pose proof (first_octet a b Ha Hb) as E0. apply N.eqb_eq in E0.
    pose proof (second_octet_high a b Ha Hb) as E1. apply N.eqb_eq in E1.
    pose proof (second_octet_alone b Hb) as E2. apply N.eqb_eq in E2.
    unfold sextet0, sextet1 in *. cbn [base64_encode spec_base64_decode].
    rewrite H, H1, H3, H4, N.eqb_refl, E0, E1, E2. reflexivity.
  - apply Forall_cons in Hbs as [Ha Hbs]. apply Forall_cons in Hbs as [Hb Hbs].
    apply Forall_cons in Hbs as [Hc Hrest].
    pose proof (sextet0_digit a Ha) as D0. digit_known D0.
    pose proof (sextet1_digit a b Ha Hb) as D1. digit_known D1.
    pose proof (sextet2_digit b c Hb Hc) as D2. digit_known D2.
    pose proof (sextet3_digit c Hc) as D3. digit_known D3.
    pose proof (first_octet a b Ha Hb) as E0. apply N.eqb_eq in E0.
    pose proof (second_octet_high a b Ha Hb) as E1. apply N.eqb_eq in E1.
    pose proof (second_octet_low b c Hb Hc) as E2. apply N.eqb_eq in E2.
    pose proof (third_octet b c Hb Hc) as E3. apply N.eqb_eq in E3.
    unfold sextet0, sextet1, sextet2, sextet3 in *.
    cbn [base64_encode spec_base64_decode app].
    rewrite H, H1, H3, H4, H5, H6, E0, E1, E2, E3, (IH Hrest). reflexivity.
Qed.

Lemma base64_encode_length (bs : list N) :
  length (base64_encode bs) = (4 * ((length bs + 2) / 3))%nat.
Proof.
  induction bs as [|a|a b|a b c rest IH] using list_ind3; try reflexivity.
  cbn [base64_encode app length]. rewrite IH.
  replace (S (S (S (length rest))) + 2)%nat with (length rest + 2 + 1 * 3)%nat by lia.
  rewrite Nat.div_add by lia. lia.
Qed.

Lemma bytes_are_octets (bs : list byte) : Forall (fun b => b < 256) (map Byte.to_N bs).
Proof.
  induction bs as [|b bs IH]; constructor; [|exact IH].
  pose proof (byte_to_N_le_255 b) as H. apply N.leb_le in H. lia.
Qed.

(** A SHA-256 digest is 32 octets, whatever the message. *)
Lemma digest_length (msg : list byte) : length (SHA256.digest msg) = 32%nat.
Proof.
  unfold SHA256.digest. cbv zeta.
  generalize (SHA256.blocks (length (SHA256.be_words (SHA256.pad msg)))
                            (SHA256.be_words (SHA256.pad msg))
                            (SHA256.hash_of_list SHA256.H0)).
  intros r. reflexivity.
Qed.

Lemma spec_base64_digest_length (text : jsstring) :
  length (spec_base64 (spec_SHA256 text)) = 44%nat.
Proof.
  unfold spec_base64, spec_SHA256.
  rewrite base64_encode_length, length_map, digest_length. reflexivity.
Qed.

(** C1. For every password, salt and challenge, [generateAuthString]
    fulfils with base64(SHA256(secretDigest + challenge)), where
    secretDigest = base64(SHA256(password + salt)); it is a function of
    its three arguments alone and never rejects.  Both base64 strings
    decode to the 32 octets of their digest, and the answer is 44
    characters long. *)
Theorem generateAuthString_correct (password salt challenge : jsstring) :
  generateAuthString password salt challenge =
  Fulfilled (spec_authResponse password salt challenge)
  /\ spec_base64_decode (spec_authResponse password salt challenge) =
     Some (map Byte.to_N (spec_SHA256 (spec_secretDigest password salt ++ challenge)))
  /\ spec_base64_decode (spec_secretDigest password salt) =
     Some (map Byte.to_N (spec_SHA256 (password ++ salt)))
  /\ length (spec_authResponse password salt challenge) = 44%nat.
Proof.
  split; [|split; [|split]].
  - unfold generateAuthString, spec_authResponse, spec_secretDigest.
    rewrite sha256Base64_spec. cbn [settled_bind].
    rewrite sha256Base64_spec. cbn [settled_bind]. reflexivity.
  - apply spec_base64_decode_encode, bytes_are_octets.
  - apply spec_base64_decode_encode, bytes_are_octets.
  - apply spec_base64_digest_length.
Qed.

(** ** The composed highlight operation *)

Arguments js : simpl never.
Arguments Number_toString : simpl never.
Arguments URLSearchParams_toString : simpl never.
Arguments source_not_found : simpl never.
Arguments before_question_mark : simpl never.
Arguments generateAuthString : simpl never.

(** The destination address in the fetched configuration:
    [currentSettings?.inputSettings?.url]. *)
Definition fetched_url (currentSettings : option JSON) : option JSON :=
  optional_get (optional_get currentSettings (js "inputSettings")) (js "url").

Definition configured_sourceName (stored : Storage) : jsstring :=
  or_default (browserSourceName stored) OBS_CONFIG_browserSourceName.

Definition GetInputSettings_request (sourceName : jsstring) : jsstring * JSON :=
  (js "GetInputSettings", JObj [(js "inputName", JStr sourceName)]).

Definition SetInputSettings_request (sourceName newUrl : jsstring) : jsstring * JSON :=
  (js "SetInputSettings",
   JObj [(js "inputName", JStr sourceName);
         (js "inputSettings", JObj [(js "url", JStr newUrl)])]).

Definition PressInputPropertiesButton_request (sourceName : jsstring) : jsstring * JSON :=
  (js "PressInputPropertiesButton",
   JObj [(js "inputName", JStr sourceName);
         (js "propertyName", JStr (js "refreshnocache"))]).

(** The first error met by the steps of a highlight, in their order:
    the authentication check, the fetch, the destination check, the
    update, the refresh. *)
Definition spec_first_error (authenticated : bool) (stored : Storage)
           (answers : list (Settled (option JSON))) : option JSError :=
  if negb authenticated then Some (Error (js "Not connected to OBS")) else
  match answers with
  | [] => None
  | Rejected e :: _ => Some e
  | Fulfilled currentSettings :: answers =>
      match fetched_url currentSettings with
      | Some (JStr (_ :: _)) =>
          match answers with
          | Rejected e :: _ => Some e
          | Fulfilled _ :: Rejected e :: _ => Some e
          | _ => None
          end
      | other =>
          if truthy other
          then Some (TypeError (js "baseUrl.split is not a function"))
          else Some (Error (source_not_found (configured_sourceName stored)))
      end
  end.

Lemma run_highlight_unauthenticated data stored now answers :
  run_proc (sendHighlightToOBS data) false stored now answers =
  ([], Some (Rejected (Error (js "Not connected to OBS")))).
Proof. reflexivity. Qed.

(** A highlight that passed the authentication check, by the answers to
    its requests. *)
Lemma run_highlight_authenticated data stored now answers :
  run_proc (sendHighlightToOBS data) true stored now answers =
  let sourceName := configured_sourceName stored in
  let get := GetInputSettings_request sourceName in
  match answers with
  | [] => ([get], None)
  | Rejected e :: _ => ([get], Some (Rejected e))
  | Fulfilled currentSettings :: answers =>
      match fetched_url currentSettings with
      | Some (JStr (c :: baseUrl)) =>
          let duration :=
            match displayDuration stored with Some (N.pos d) => N.pos d | _ => 8 end in
          let newUrl :=
            before_question_mark (c :: baseUrl) ++ question_mark ::
              URLSearchParams_toString (highlight_params data now duration) in
          let set := SetInputSettings_request sourceName newUrl in
          let press := PressInputPropertiesButton_request sourceName in
          match answers with
          | [] => ([get; set], None)
          | Rejected e :: _ => ([get; set], Some (Rejected e))
          | Fulfilled _ :: [] => ([get; set; press], None)
          | Fulfilled _ :: Rejected e :: _ => ([get; set; press], Some (Rejected e))
          | Fulfilled _ :: Fulfilled _ :: _ => ([get; set; press], Some (Fulfilled true))
          end
      | other =>
          if truthy other
          then ([get], Some (Rejected (TypeError (js "baseUrl.split is not a function"))))
          else ([get], Some (Rejected (Error (source_not_found sourceName))))
      end
  end.
Proof.
  destruct answers as [|[currentSettings|e] answers]; try reflexivity.
  unfold sendHighlightToOBS, configured_sourceName, fetched_url,
    GetInputSettings_request, SetInputSettings_request, PressInputPropertiesButton_request.
  cbn -[optional_get]. unfold or_empty.
  destruct (optional_get _ _) as [[| [] | n | [|c s] | items | fields]|] eqn:Hurl;
    cbn; try reflexivity.
  - destruct n; reflexivity.
  - destruct answers as [|[?|?] [|[?|?] ?]]; reflexivity.
Qed.

(** What the listener answers for a highlight against a host that
    settles its requests in order, when the highlight ran to its end. *)
Definition highlight_answer (data : MessageData) (authenticated : bool) (stored : Storage)
           (now : N) (answers : list (Settled (option JSON))) : option Response :=
  highlight_response <$> snd (run_proc (sendHighlightToOBS data) authenticated stored now answers).


(** C9. A highlight asked for while the client is not authenticated
    fails at once with 'Not connected to OBS': no request is issued,
    nothing is read from storage, and the sender of the runtime message
    is answered [{success: false, error}]. *)
Theorem highlight_when_not_authenticated (w : World) (sender : nat) (data : MessageData) :
  isAuthenticated w = false ->
  onMessage sender (HIGHLIGHT_MESSAGE data) w =
    respond sender (Failure (js "Not connected to OBS")) w
  /\ forall stored now answers,
      run_proc (sendHighlightToOBS data) false stored now answers =
      ([], Some (Rejected (Error (js "Not connected to OBS")))).
Proof.
  intros Hauth. split.
  - unfold onMessage, sendHighlightToOBS. cbn. rewrite Hauth. reflexivity.
  - intros. apply run_highlight_unauthenticated.
Qed.

(** ** The rewritten URL *)

(** How a reader of the URL takes its query apart (the
    application/x-www-form-urlencoded parser): components between [&],
    each split at its first [=], [+] read as a space and [%XX] as the
    octet XX. *)
Definition hex_digit_value (c : N) : option N :=
  if (48 <=? c) && (c <=? 57) then Some (c - 48)
  else if (65 <=? c) && (c <=? 70) then Some (c - 55)
  else if (97 <=? c) && (c <=? 102) then Some (c - 87)
  else None.

Fixpoint urldecode (s : jsstring) : list byte :=
  match s with
  | [] => []
  | c :: rest =>
      if c =? plus_sign then x20 :: urldecode rest
      else if c =? percent_sign then
        match rest with
        | h :: l :: rest' =>
            match hex_digit_value h, hex_digit_value l with
            | Some a, Some b => byte_of_N (16 * a + b) :: urldecode rest'
            | _, _ => byte_of_N c :: urldecode rest
            end
        | _ => byte_of_N c :: urldecode rest
        end
      else byte_of_N c :: urldecode rest
  end.

Fixpoint split_first (sep : N) (s : jsstring) : jsstring * jsstring :=
  match s with
  | [] => ([], [])
  | c :: rest =>
      if c =? sep then ([], rest)
      else let '(name, value) := split_first sep rest in (c :: name, value)
  end.

Definition spec_parse_query (query : jsstring) : list (list byte * list byte) :=
  map (fun component =>
         let '(name, value) := split_first equals_sign component in
         (urldecode name, urldecode value))
      (filter (fun component => component ≠ []) (String_split ampersand query)).

Definition no_delimiter (c : N) : Prop :=
  c ≠ ampersand /\ c ≠ equals_sign /\ c ≠ question_mark.

Lemma urlencoded_byte_no_delimiter (b : byte) : Forall no_delimiter (urlencoded_byte b).
Proof.
  destruct b; vm_compute; repeat constructor; discriminate.
Qed.

Lemma urlencoded_string_no_delimiter (s : jsstring) : Forall no_delimiter (urlencoded_string s).
Proof.
  unfold urlencoded_string. induction (TextEncoder_encode s) as [|b bs IH]; simpl.
  - constructor.
  - apply Forall_app. split; [apply urlencoded_byte_no_delimiter | exact IH].
Qed.

Lemma urldecode_urlencoded_byte (b : byte) (rest : jsstring) :
  urldecode (urlencoded_byte b ++ rest) = b :: urldecode rest.
Proof. destruct b; reflexivity. Qed.

(** Decoding undoes the encoding, octet for octet. *)
Lemma urldecode_urlencoded_string (s : jsstring) :
  urldecode (urlencoded_string s) = TextEncoder_encode s.
Proof.
  unfold urlencoded_string. induction (TextEncoder_encode s) as [|b bs IH]; simpl.
  - reflexivity.
  - rewrite urldecode_urlencoded_byte, IH. reflexivity.
Qed.

Lemma String_split_without (sep : N) (s : jsstring) :
  Forall (fun c => c ≠ sep) s -> String_split sep s = [s].
Proof.
  induction 1 as [|c s Hc _ IH]; simpl; [reflexivity|].
  destruct (N.eqb_spec c sep); [contradiction|]. rewrite IH. reflexivity.
Qed.

Lemma String_split_at (sep : N) (s rest : jsstring) :
  Forall (fun c => c ≠ sep) s ->
  String_split sep (s ++ sep :: rest) = s :: String_split sep rest.
Proof.
  induction 1 as [|c s Hc _ IH]; simpl.
  - rewrite N.eqb_refl. reflexivity.
  - destruct (N.eqb_spec c sep); [contradiction|]. rewrite IH. reflexivity.
Qed.

Lemma split_first_at (sep : N) (s rest : jsstring) :
  Forall (fun c => c ≠ sep) s -> split_first sep (s ++ sep :: rest) = (s, rest).
Proof.
  induction 1 as [|c s Hc _ IH]; simpl.
  - rewrite N.eqb_refl. reflexivity.
  - destruct (N.eqb_spec c sep); [contradiction|]. rewrite IH. reflexivity.
Qed.

(** The part of a URL before its first question mark, and what follows. *)
Lemma before_question_mark_spec (baseUrl : jsstring) :
  Forall (fun c => c ≠ question_mark) (before_question_mark baseUrl)
  /\ (baseUrl = before_question_mark baseUrl
      \/ exists old, baseUrl = before_question_mark baseUrl ++ question_mark :: old).
Proof.
  unfold before_question_mark. induction baseUrl as [|c s [IH1 IH2]]; simpl.
  - split; [constructor | left; reflexivity].
  - destruct (N.eqb_spec c question_mark) as [->|Hc]; simpl.
    + split; [constructor | right; exists s; reflexivity].
    + destruct (String_split question_mark s) as [|piece pieces] eqn:Hs; simpl in *.
      * split; [repeat constructor; exact Hc|]. destruct IH2 as [->|[old ->]]; [left|right; exists old]; reflexivity.
      * split; [constructor; assumption|].
        destruct IH2 as [IH2|[old IH2]]; [left|right; exists old]; rewrite IH2 at 1; reflexivity.
Qed.

Definition urlencoded_field (field : jsstring * jsstring) : jsstring :=
  urlencoded_string field.1 ++ equals_sign :: urlencoded_string field.2.

Lemma URLSearchParams_toString_cons (field : jsstring * jsstring) fields :
  URLSearchParams_toString (field :: fields) =
  match fields with
  | [] => urlencoded_field field
  | _ => urlencoded_field field ++ ampersand :: URLSearchParams_toString fields
  end.
Proof.
  destruct field as [k v], fields as [|f fs]; unfold urlencoded_field; cbn.
  - reflexivity.
  - rewrite <- app_assoc. reflexivity.
Qed.

Lemma urlencoded_field_no_ampersand field :
  Forall (fun c => c ≠ ampersand) (urlencoded_field field).
Proof.
  unfold urlencoded_field. apply Forall_app. split; [|constructor; [discriminate|]];
    (eapply Forall_impl; [apply urlencoded_string_no_delimiter|]);
    intros c Hc; apply Hc.
Qed.

Lemma parse_urlencoded_field field :
  (let '(name, value) := split_first equals_sign (urlencoded_field field) in
   (urldecode name, urldecode value)) =
  (TextEncoder_encode field.1, TextEncoder_encode field.2).
Proof.
  unfold urlencoded_field. rewrite split_first_at.
  - rewrite !urldecode_urlencoded_string. reflexivity.
  - eapply Forall_impl; [apply urlencoded_string_no_delimiter|].
    intros c Hc; apply Hc.
Qed.

Lemma urlencoded_field_not_empty field : urlencoded_field field ≠ [].
Proof. unfold urlencoded_field. destruct (urlencoded_string field.1); discriminate. Qed.

(** Reading back what [URLSearchParams.toString] wrote gives the
    fields, in order, as UTF-8. *)
Lemma spec_parse_query_toString (fields : list (jsstring * jsstring)) :
  spec_parse_query (URLSearchParams_toString fields) =
  map (fun field => (TextEncoder_encode field.1, TextEncoder_encode field.2)) fields.
Proof.
  unfold spec_parse_query. induction fields as [|field fields IH].
  - reflexivity.
  - rewrite URLSearchParams_toString_cons. destruct fields as [|f fs].
    + rewrite String_split_without by apply urlencoded_field_no_ampersand.
      cbn [filter list_filter]. 
      destruct (decide (urlencoded_field field ≠ [])) as [_|H];
        [|destruct H; apply urlencoded_field_not_empty].
      cbn [map]. rewrite parse_urlencoded_field. reflexivity.
    + rewrite String_split_at by apply urlencoded_field_no_ampersand.
      rewrite filter_cons.
      destruct (decide (urlencoded_field field ≠ [])) as [_|H];
        [|destruct H; apply urlencoded_field_not_empty].
      rewrite map_cons, parse_urlencoded_field, IH. reflexivity.
Qed.

Lemma URLSearchParams_toString_no_question_mark fields :
  Forall (fun c => c ≠ question_mark) (URLSearchParams_toString fields).
Proof.
  induction fields as [|field fields IH]; [constructor|].
  assert (Hf : Forall (fun c => c ≠ question_mark) (urlencoded_field field)).
  { unfold urlencoded_field. apply Forall_app. split; [|constructor; [discriminate|]];
      (eapply Forall_impl; [apply urlencoded_string_no_delimiter|]);
      intros c Hc; apply Hc. }
  rewrite URLSearchParams_toString_cons. destruct fields; [exact Hf|].
  apply Forall_app. split; [exact Hf|]. constructor; [discriminate|exact IH].
Qed.


(** ** The worker as a whole *)

(** A handler is a chain of small updates of the world; an invariant
    kept by each link is kept by the handler.  [chain leaf] walks the
    handler from the outside in, closing each link with [leaf]. *)
Ltac chain leaf :=
  repeat (cbv zeta;
          lazymatch goal with
          | |- ?R ?w (if ?b then _ else _) => destruct b eqn:?
          | |- ?R ?w (match ?x with _ => _ end) => destruct x eqn:?
          | |- ?R ?w ?w' =>
              first [ constr_eq w w'; reflexivity
                    | assumption
                    | lazymatch w' with
                      | ?f ?w'' => transitivity w''; [| solve [leaf]]
                      end ]
          end).

(** Links that write one global, or one of the host's fields other than
    the log, the suspended code and the timers. *)
Ltac is_plain_update f :=
  lazymatch f with
  | set_obsWebSocket _ => idtac
  | set_isConnected _ => idtac
  | set_isAuthenticated _ => idtac
  | set_reconnectAttempts _ => idtac
  | set_autoReconnect _ => idtac
  | set_keepAliveInterval _ => idtac
  | set_sockets _ => idtac
  | set_storage _ => idtac
  | set_clock _ => idtac
  | set_next_timer _ => idtac
  end.

(** *** Order of the handshake in the log *)

Definition is_Identify_sent (a : Action) : bool :=
  match a with Sent _ (Identify _ _) => true | _ => false end.
Definition is_keepAlive_started (a : Action) : bool :=
  match a with KeepAliveStarted _ => true | _ => false end.
Definition is_Hello_received (a : Action) : bool :=
  match a with Received _ (Hello _) => true | _ => false end.
Definition is_Identified_received (a : Action) : bool :=
  match a with Received _ Identified => true | _ => false end.

(** Suspended code that will send an Identify. *)
Definition is_hello_task (t : Task) : bool :=
  match t with HelloAfterStorage _ _ | HelloAfterDigest _ => true | _ => false end.

(** In a log, newest first: every Identify sent has a Hello received
    earlier, every keepalive started an Identified received earlier. *)
Fixpoint handshake_in_order (log : list Action) : bool :=
  match log with
  | [] => true
  | a :: earlier =>
      (negb (is_Identify_sent a) || existsb is_Hello_received earlier)
      && (negb (is_keepAlive_started a) || existsb is_Identified_received earlier)
      && handshake_in_order earlier
  end.

Definition handshake_invariant (w : World) : Prop :=
  handshake_in_order (trace w) = true
  /\ (existsb is_hello_task (tasks w) = true -> existsb is_Hello_received (trace w) = true).

(** Actions that neither send an Identify nor start the keepalive. *)
Definition quiet_action (a : Action) : bool :=
  negb (is_Identify_sent a) && negb (is_keepAlive_started a).

(** [w'] comes from [w] by quiet actions and suspends no code that will
    send an Identify. *)
Definition quiet (w w' : World) : Prop :=
  (exists new, trace w' = new ++ trace w /\ forallb quiet_action new = true)
  /\ (existsb is_hello_task (tasks w') = true -> existsb is_hello_task (tasks w) = true).

#[global] Instance quiet_refl : Reflexive quiet.
Proof. intros w. split; [exists []; split; reflexivity | auto]. Qed.

#[global] Instance quiet_trans : Transitive quiet.
Proof.
  intros w1 w2 w3 [(n1 & E1 & Q1) T1] [(n2 & E2 & Q2) T2]. split; [|auto].
  exists (n2 ++ n1). rewrite E2, E1, app_assoc. split; [reflexivity|].
  rewrite forallb_app, Q1, Q2. reflexivity.
Qed.

Lemma quiet_frame (w w' : World) : trace w' = trace w -> tasks w' = tasks w -> quiet w w'.
Proof. intros Ht Hk. split; [exists []; split; [exact Ht|reflexivity] | rewrite Hk; auto]. Qed.

Lemma existsb_snoc {A} (f : A -> bool) (l : list A) (x : A) :
  existsb f (l ++ [x]) = existsb f l || f x.
Proof. rewrite existsb_app. simpl. rewrite orb_false_r. reflexivity. Qed.

Lemma handshake_in_order_app (new log : list Action) :
  forallb quiet_action new = true ->
  handshake_in_order log = true -> handshake_in_order (new ++ log) = true.
Proof.
  intros Hq Hl. induction new as [|a new IH]; simpl in *; [exact Hl|].
  apply andb_true_iff in Hq as [Ha Hq]. apply andb_true_iff in Ha as [Ha1 Ha2].
  rewrite Ha1, Ha2, (IH Hq). reflexivity.
Qed.

Lemma quiet_keeps_handshake (w w' : World) :
  quiet w w' -> handshake_invariant w -> handshake_invariant w'.
Proof.
  intros [(new & E & Q) T] [Ho Ht]. split.
  - rewrite E. apply handshake_in_order_app; assumption.
  - intros H. rewrite E, existsb_app, (Ht (T H)). apply orb_true_r.
Qed.


Lemma quiet_emit (a : Action) (w : World) : quiet_action a = true -> quiet w (emit a w).
Proof. intros Ha. split; [exists [a]; split; [reflexivity| simpl; rewrite Ha; reflexivity] | auto]. Qed.

Lemma quiet_suspend (t : Task) (w : World) : is_hello_task t = false -> quiet w (suspend t w).
Proof.
  intros Ht. split; [exists []; split; reflexivity|].
  unfold suspend; simpl. rewrite existsb_snoc, Ht, orb_false_r. auto.
Qed.

Create HintDb quiet discriminated.
#[global] Hint Constants Opaque : quiet.

Ltac quiet_leaf :=
  idtac;
  lazymatch goal with
  | |- quiet _ (emit _ _) => apply quiet_emit; reflexivity
  | |- quiet _ (suspend _ _) => apply quiet_suspend; reflexivity
  | |- quiet _ (setTimeout _ _ _) => apply quiet_frame; reflexivity
  | |- quiet _ (set_timers _ _) => apply quiet_frame; reflexivity
  | |- quiet _ (set_pendingRequests _ _) => apply quiet_frame; reflexivity
  | |- quiet _ (set_messageRequestId _ _) => apply quiet_frame; reflexivity
  | |- quiet _ (?f _) =>
      first [ is_plain_update f; apply quiet_frame; reflexivity | eauto with quiet ]
  end.

Ltac quiet_chain := chain quiet_leaf.

Lemma quiet_broadcastStatus error w : quiet w (broadcastStatus error w).
Proof. apply quiet_emit. reflexivity. Qed.

Lemma quiet_respond sender r w : quiet w (respond sender r w).
Proof. apply quiet_emit. reflexivity. Qed.

Lemma quiet_sendRequest requestType requestData waiter w :
  quiet w (sendRequest requestType requestData waiter w).2.
Proof.
  unfold sendRequest, sendToOBS. cbv zeta.
  destruct (open_socket _); cbn [snd]; quiet_chain.
Qed.

Lemma quiet_connectToOBS userInitiated w : quiet w (connectToOBS userInitiated w).
Proof. unfold connectToOBS. quiet_chain. Qed.

Lemma quiet_connectToOBS_resume accepts stored w : quiet w (connectToOBS_resume accepts stored w).
Proof. unfold connectToOBS_resume, broadcastStatus. quiet_chain. Qed.

Lemma quiet_stopKeepAlive w : quiet w (stopKeepAlive w).
Proof. unfold stopKeepAlive. quiet_chain. Qed.

#[global] Hint Resolve quiet_broadcastStatus quiet_respond quiet_connectToOBS
  quiet_connectToOBS_resume quiet_stopKeepAlive : quiet.

Lemma quiet_exec p sender w : quiet w (exec p sender w).
Proof.
  revert w. induction p as [r|e|k IH|k IH|k IH|t d k IH]; intros w; cbn [exec].
  - apply quiet_respond.
  - apply quiet_respond.
  - apply IH.
  - apply quiet_suspend. reflexivity.
  - apply IH.
  - pose proof (quiet_sendRequest t d (HighlightWaiter k sender) w) as Hsr.
    destruct (sendRequest t d (HighlightWaiter k sender) w) as [[error|] w']; cbn [snd] in Hsr.
    + transitivity w'; [exact Hsr | apply IH].
    + exact Hsr.
Qed.

Lemma quiet_keepAlive_failed w : quiet w (keepAlive_failed w).
Proof. unfold keepAlive_failed. quiet_chain. Qed.

#[global] Hint Resolve quiet_exec quiet_keepAlive_failed : quiet.

Lemma quiet_resume_waiter waiter outcome w : quiet w (resume_waiter waiter outcome w).
Proof. unfold resume_waiter. quiet_chain. Qed.

#[global] Hint Resolve quiet_resume_waiter : quiet.

Lemma quiet_settle requestId waiter outcome w : quiet w (settle requestId waiter outcome w).
Proof. unfold settle. quiet_chain. Qed.

#[global] Hint Resolve quiet_settle : quiet.

Lemma quiet_request_timeout requestId w : quiet w (request_timeout requestId w).
Proof. unfold request_timeout. quiet_chain. Qed.

Lemma quiet_handleRequestResponse requestId requestStatus responseData w :
  quiet w (handleRequestResponse requestId requestStatus responseData w).
Proof. unfold handleRequestResponse. quiet_chain. Qed.

Lemma quiet_onopen w : quiet w (onopen w).
Proof. unfold onopen. quiet_chain. Qed.

Lemma quiet_onerror w : quiet w (onerror w).
Proof. unfold onerror. quiet_chain. Qed.

Lemma quiet_onclose w : quiet w (onclose w).
Proof. unfold onclose. quiet_chain. Qed.

Lemma quiet_WebSocket_close s w : quiet w (WebSocket_close s w).
Proof. unfold WebSocket_close. quiet_chain. Qed.

#[global] Hint Resolve quiet_request_timeout quiet_handleRequestResponse quiet_onopen
  quiet_onerror quiet_onclose quiet_WebSocket_close : quiet.

Lemma quiet_disconnectFromOBS w : quiet w (disconnectFromOBS w).
Proof. unfold disconnectFromOBS. quiet_chain. Qed.

Lemma quiet_keepAlive_tick w : quiet w (keepAlive_tick w).
Proof.
  unfold keepAlive_tick.
  pose proof (quiet_sendRequest (js "GetVersion") (JObj []) KeepAlivePing w) as Hsr.
  destruct (sendRequest _ _ _ w) as [[error|] w']; cbn [snd] in Hsr.
  - destruct (_ && _); [transitivity w'; [exact Hsr|apply quiet_keepAlive_failed]|].
    quiet_chain.
  - destruct (_ && _); [exact Hsr|]. quiet_chain.
Qed.

#[global] Hint Resolve quiet_disconnectFromOBS quiet_keepAlive_tick : quiet.

Lemma quiet_onMessage sender m w : quiet w (onMessage sender m w).
Proof. unfold onMessage. destruct m; quiet_chain. Qed.

Lemma quiet_fire t w : quiet w (fire t w).
Proof. unfold fire. destruct (kind t); quiet_chain. Qed.

Lemma handshake_after_hello (a : Action) (w : World) :
  is_keepAlive_started a = false ->
  existsb is_Hello_received (trace w) = true ->
  handshake_invariant w -> handshake_invariant (emit a w).
Proof.
  intros Ha Hseen [Ho Ht]. split; simpl.
  - rewrite Hseen, Ha, Ho, orb_true_r. reflexivity.
  - intros _. rewrite Hseen. apply orb_true_r.
Qed.

Lemma handshake_suspend_after_hello (t : Task) (w : World) :
  existsb is_Hello_received (trace w) = true ->
  handshake_invariant w -> handshake_invariant (suspend t w).
Proof. intros Hseen [Ho Ht]. split; simpl; auto. Qed.

Lemma handshake_sendToOBS_after_hello (frame : ClientFrame) (w : World) :
  existsb is_Hello_received (trace w) = true ->
  handshake_invariant w -> handshake_invariant (sendToOBS frame w).2.
Proof.
  intros Hseen Hinv. unfold sendToOBS. destruct (open_socket w); cbn [snd]; [|exact Hinv].
  apply handshake_after_hello; auto.
Qed.

Lemma handshake_handleOBSMessage (s : nat) (frame : ServerFrame) (w : World) :
  handshake_invariant w -> handshake_invariant (handleOBSMessage s frame w).
Proof.
  intros Hinv. destruct frame; cbn [handleOBSMessage]; try exact Hinv;
    try solve [eapply quiet_keeps_handshake; [|exact Hinv]; quiet_chain].
  - (* Hello *)
    unfold handleHello.
    apply handshake_suspend_after_hello; [reflexivity|].
    eapply quiet_keeps_handshake; [|exact Hinv]. quiet_chain.
  - (* Identified *)
    eapply quiet_keeps_handshake; [apply quiet_broadcastStatus|].
    unfold startKeepAlive. cbv zeta.
    set (w1 := stopKeepAlive _).
    assert (H1 : handshake_invariant w1).
    { eapply quiet_keeps_handshake; [|exact Hinv]. subst w1. quiet_chain. }
    assert (Hseen : existsb is_Identified_received (trace w1) = true).
    { assert (Hq : quiet (emit (Received s Identified) w) w1) by (subst w1; quiet_chain).
      destruct Hq as [(new & -> & _) _]. rewrite existsb_app. simpl. apply orb_true_r. }
    destruct H1 as [Ho Ht]. split; simpl.
    + rewrite Hseen, Ho. reflexivity.
    + exact Ht.
Qed.

Lemma handshake_delete_task (i : nat) (w : World) :
  handshake_invariant w -> handshake_invariant (set_tasks (delete i (tasks w)) w).
Proof.
  intros [Ho Ht]. split; [exact Ho|]. simpl. intros H. apply Ht.
  apply existsb_exists in H as (t & Hin & Hh). apply existsb_exists. exists t. split; [|exact Hh].
  apply list_elem_of_In in Hin. apply list_elem_of_In.
  eapply list_elem_of_delete_inv, Hin.
Qed.

Section Handshake.

Variable WebSocket_accepts : jsstring -> bool.

Lemma handshake_resume (t : Task) (w : World) :
  (is_hello_task t = true -> existsb is_Hello_received (trace w) = true) ->
  handshake_invariant w -> handshake_invariant (resume WebSocket_accepts t w).
Proof.
  intros Hseen Hinv.
  destruct t; cbn [resume];
    try solve [eapply quiet_keeps_handshake; [|exact Hinv]; quiet_chain].
  - (* HelloAfterStorage *)
    specialize (Hseen eq_refl). unfold handleHello_resume. cbv zeta.
    destruct authentication as [authentication|].
    + destruct (or_default _ _).
      * eapply quiet_keeps_handshake; [|exact Hinv]. quiet_chain.
      * destruct (generateAuthString _ _ _); [|exact Hinv].
        apply handshake_suspend_after_hello; assumption.
    + apply handshake_sendToOBS_after_hello; assumption.
  - (* HelloAfterDigest *)
    apply handshake_sendToOBS_after_hello; auto.
Qed.

Lemma handshake_step (w : World) (e : HostEvent) :
  handshake_invariant w -> handshake_invariant (step WebSocket_accepts w e).
Proof.
  intros Hinv. destruct e; cbn [step].
  - eapply quiet_keeps_handshake; [|exact Hinv]. quiet_chain.
  - destruct (sockets w !! socket) as [[]|]; try exact Hinv.
    apply handshake_handleOBSMessage, Hinv.
  - eapply quiet_keeps_handshake; [|exact Hinv]. quiet_chain.
  - eapply quiet_keeps_handshake; [|exact Hinv]. quiet_chain.
  - destruct (timers w !! index) as [t|]; [|exact Hinv].
    destruct (deadline t <=? clock w); [|exact Hinv].
    eapply quiet_keeps_handshake; [|exact Hinv].
    transitivity (set_timers (delete index (timers w)) w);
      [apply quiet_frame; reflexivity | apply quiet_fire].
  - destruct (tasks w !! index) as [t|] eqn:Ht; [|exact Hinv].
    apply handshake_resume; [|apply handshake_delete_task, Hinv].
    intros Hh. simpl. apply Hinv. apply existsb_exists. exists t. split; [|exact Hh].
    apply list_elem_of_In. eapply list_elem_of_lookup_2, Ht.
  - eapply quiet_keeps_handshake; [apply quiet_onMessage|exact Hinv].
  - eapply quiet_keeps_handshake; [|exact Hinv]. apply quiet_frame; reflexivity.
Qed.

Lemma handshake_run (events : list HostEvent) (w : World) :
  handshake_invariant w -> handshake_invariant (run WebSocket_accepts w events).
Proof.
  revert w. induction events as [|e events IH]; intros w Hinv; [exact Hinv|].
  apply IH, handshake_step, Hinv.
Qed.

End Handshake.

Lemma handshake_in_order_split (later earlier : list Action) (a : Action) :
  handshake_in_order (later ++ a :: earlier) = true ->
  (is_Identify_sent a = true -> existsb is_Hello_received earlier = true)
  /\ (is_keepAlive_started a = true -> existsb is_Identified_received earlier = true).
Proof.
  induction later as [|b later IH]; simpl.
  - intros H. apply andb_true_iff in H as [H _]. apply andb_true_iff in H as [H1 H2].
    split; intros Ha; rewrite Ha in *; simpl in *; assumption.
  - intros H. apply andb_true_iff in H as [_ H]. apply IH, H.
Qed.

(** *** Resolution of requests *)

Lemma js_inj (s1 s2 : string) : js s1 = js s2 -> s1 = s2.
Proof.
  unfold js. intros H.
  rewrite <- (string_of_list_ascii_of_string s1), <- (string_of_list_ascii_of_string s2).
  f_equal. revert H. generalize (list_ascii_of_string s1), (list_ascii_of_string s2).
  induction l as [|a l IH]; intros [|b l'] H; try discriminate; [reflexivity|].
  injection H as Hab Hl. f_equal; [|apply IH, Hl].
  rewrite <- (ascii_N_embedding a), <- (ascii_N_embedding b), Hab. reflexivity.
Qed.

Lemma Number_toString_inj (n m : N) : Number_toString n = Number_toString m -> n = m.
Proof.
  unfold Number_toString. intros H%js_inj. apply DecimalN.Unsigned.to_uint_inj.
  assert (Hs : Some (N.to_uint n) = Some (N.to_uint m))
    by (rewrite <- !NilEmpty.usu, H; reflexivity).
  injection Hs; auto.
Qed.

(** Correlation ids are never reused. *)
Lemma request_id_inj (n m : N) : request_id n = request_id m -> n = m.
Proof. unfold request_id. intros H%app_inv_head. apply Number_toString_inj, H. Qed.

(** The requests a log shows resolved, newest first. *)
Fixpoint settled_ids (log : list Action) : list jsstring :=
  match log with
  | [] => []
  | Settle requestId _ :: earlier => requestId :: settled_ids earlier
  | _ :: earlier => settled_ids earlier
  end.

(** A response for [requestId] without its [requestStatus] was received. *)
Definition malformed_response_received (requestId : jsstring) (log : list Action) : Prop :=
  exists s responseData, Received s (RequestResponse requestId None responseData) ∈ log.

Definition timeout_armed (requestId : jsstring) (w : World) : Prop :=
  exists t, t ∈ timers w /\ kind t = RequestTimeout requestId.

Definition issued (requestId : jsstring) (w : World) : Prop :=
  exists n, n < messageRequestId w /\ requestId = request_id n.

Record multiplexer_invariant (w : World) : Prop := {
  pending_issued : forall requestId,
      is_Some (pendingRequests w !! requestId) -> issued requestId w;
  settled_issued : forall requestId,
      requestId ∈ settled_ids (trace w) -> issued requestId w;
  settled_not_pending : forall requestId,
      requestId ∈ settled_ids (trace w) -> pendingRequests w !! requestId = None;
  settled_once : NoDup (settled_ids (trace w));
  issued_accounted : forall n,
      1 <= n < messageRequestId w ->
      request_id n ∈ settled_ids (trace w)
      \/ (is_Some (pendingRequests w !! request_id n) /\ timeout_armed (request_id n) w)
      \/ (pendingRequests w !! request_id n = None
          /\ malformed_response_received (request_id n) (trace w))
}.

(** What a move leaves as it was: malformed responses stay recorded,
    and timeouts stay armed, but for the request [spared], if any. *)
Record keeps_log (spared : option jsstring) (w w' : World) : Prop := {
  keeps_malformed : forall requestId,
      malformed_response_received requestId (trace w) ->
      malformed_response_received requestId (trace w');
  keeps_timeouts : forall requestId,
      spared ≠ Some requestId -> timeout_armed requestId w -> timeout_armed requestId w'
}.

(** The moves of the multiplexer. *)
Inductive multiplexer_move (w w' : World) : Prop :=
| move_nothing :
    pendingRequests w' = pendingRequests w -> messageRequestId w' = messageRequestId w ->
    settled_ids (trace w') = settled_ids (trace w) -> keeps_log None w w' ->
    multiplexer_move w w'
| move_disarm requestId :
    pendingRequests w !! requestId = None ->
    pendingRequests w' = pendingRequests w -> messageRequestId w' = messageRequestId w ->
    settled_ids (trace w') = settled_ids (trace w) -> keeps_log (Some requestId) w w' ->
    multiplexer_move w w'
| move_register waiter :
    pendingRequests w' = <[request_id (messageRequestId w) := waiter]> (pendingRequests w) ->
    messageRequestId w' = messageRequestId w + 1 ->
    settled_ids (trace w') = settled_ids (trace w) -> keeps_log None w w' ->
    timeout_armed (request_id (messageRequestId w)) w' ->
    multiplexer_move w w'
| move_settle requestId :
    is_Some (pendingRequests w !! requestId) ->
    pendingRequests w' = delete requestId (pendingRequests w) ->
    messageRequestId w' = messageRequestId w ->
    settled_ids (trace w') = requestId :: settled_ids (trace w) ->
    keeps_log (Some requestId) w w' ->
    multiplexer_move w w'
| move_drop requestId :
    malformed_response_received requestId (trace w) ->
    pendingRequests w' = delete requestId (pendingRequests w) ->
    messageRequestId w' = messageRequestId w ->
    settled_ids (trace w') = settled_ids (trace w) -> keeps_log None w w' ->
    multiplexer_move w w'.

Lemma issued_mono (requestId : jsstring) (w w' : World) :
  messageRequestId w <= messageRequestId w' -> issued requestId w -> issued requestId w'.
Proof. intros Hle (n & Hn & ->). exists n. split; [lia|reflexivity]. Qed.

Lemma multiplexer_move_keeps (w w' : World) :
  multiplexer_move w w' -> multiplexer_invariant w -> multiplexer_invariant w'.
Proof.
  intros Hmove [Hpi Hsi Hsp Hso Hacc].
  destruct Hmove as [Hp Hc Hs [Hm Ht] | requestId Hnone Hp Hc Hs [Hm Ht]
                     | waiter Hp Hc Hs [Hm Ht] Harmed
                     | requestId Hwas Hp Hc Hs [Hm Ht] | requestId Hmal Hp Hc Hs [Hm Ht]].
  - split; rewrite ?Hp, ?Hs; auto.
    + intros id H. eapply issued_mono, Hpi, H. lia.
    + intros id H. eapply issued_mono, Hsi, H. lia.
    + intros n Hn. rewrite Hc in Hn.
      destruct (Hacc n Hn) as [H|[[H1 H2]|[H1 H2]]]; auto.
      all: right; left; split; [exact H1|]; apply Ht; [discriminate|exact H2].
  - split; rewrite ?Hp, ?Hs; auto.
    + intros id H. eapply issued_mono, Hpi, H. lia.
    + intros id H. eapply issued_mono, Hsi, H. lia.
    + intros n Hn. rewrite Hc in Hn.
      destruct (Hacc n Hn) as [H|[[H1 H2]|[H1 H2]]]; auto.
      all: right; left; split; [exact H1|]; apply Ht; [|exact H2].
      all: intros [= ->]; rewrite Hnone in H1; destruct H1; discriminate.
  - assert (Hfresh_p : pendingRequests w !! request_id (messageRequestId w) = None).
    { destruct (pendingRequests w !! request_id (messageRequestId w)) eqn:E; [|reflexivity].
      destruct (Hpi _ (mk_is_Some _ _ E)) as (n & Hn & Heq%request_id_inj). lia. }
    assert (Hfresh_s : request_id (messageRequestId w) ∉ settled_ids (trace w)).
    { intros (n & Hn & Heq%request_id_inj)%Hsi. lia. }
    split; rewrite ?Hp, ?Hs; auto.
    + intros id H. destruct (decide (id = request_id (messageRequestId w))) as [->|Hne].
      * exists (messageRequestId w). split; [lia|reflexivity].
      * rewrite lookup_insert_ne in H by auto. eapply issued_mono, Hpi, H. lia.
    + intros id H. eapply issued_mono, Hsi, H. lia.
    + intros id H. rewrite lookup_insert_ne; [auto|]. intros <-. contradiction.
    + intros n Hn. rewrite Hc in Hn.
      destruct (decide (n = messageRequestId w)) as [->|Hne].
      * right; left. rewrite lookup_insert_eq. split; [eauto|exact Harmed].
      * assert (Hid : request_id (messageRequestId w) ≠ request_id n)
          by (intros Heq%request_id_inj; auto).
        rewrite !lookup_insert_ne by exact Hid.
        destruct (Hacc n ltac:(lia)) as [H|[[H1 H2]|[H1 H2]]]; auto.
        all: right; left; split; [exact H1|]; apply Ht; [discriminate|exact H2].
  - split; rewrite ?Hp, ?Hs; auto.
    + intros id H. destruct (decide (id = requestId)) as [->|Hne].
      * rewrite lookup_delete_eq in H. destruct H; discriminate.
      * rewrite lookup_delete_ne in H by auto. eapply issued_mono, Hpi, H. lia.
    + intros id [->|H]%elem_of_cons; (eapply issued_mono; [|eauto]); lia.
    + intros id [->|H]%elem_of_cons; [apply lookup_delete_eq|].
      destruct (decide (requestId = id)) as [->|Hne]; [apply lookup_delete_eq|].
      rewrite lookup_delete_ne by auto. auto.
    + constructor; [|exact Hso]. intros H%Hsp. destruct Hwas; congruence.
    + intros n Hn. rewrite Hc in Hn.
      destruct (decide (requestId = request_id n)) as [->|Hne].
      * left. apply elem_of_cons. left. reflexivity.
      * rewrite lookup_delete_ne by auto.
        destruct (Hacc n Hn) as [H|[[H1 H2]|[H1 H2]]]; auto.
        all: try (left; apply elem_of_cons; right; exact H).
        all: right; left; split; [exact H1|]; apply Ht; [congruence|exact H2].
  - split; rewrite ?Hp, ?Hs; auto.
    + intros id H. destruct (decide (id = requestId)) as [->|Hne].
      * rewrite lookup_delete_eq in H. destruct H; discriminate.
      * rewrite lookup_delete_ne in H by auto. eapply issued_mono, Hpi, H. lia.
    + intros id H. eapply issued_mono, Hsi, H. lia.
    + intros id H. destruct (decide (requestId = id)) as [->|Hne]; [apply lookup_delete_eq|].
      rewrite lookup_delete_ne by auto. auto.
    + intros n Hn. rewrite Hc in Hn.
      destruct (decide (requestId = request_id n)) as [->|Hne].
      * destruct (Hacc n Hn) as [H|[[H1 H2]|[H1 H2]]]; [left; exact H | |];
          right; right; rewrite lookup_delete_eq; auto.
      * rewrite lookup_delete_ne by auto.
        destruct (Hacc n Hn) as [H|[[H1 H2]|[H1 H2]]]; auto.
        all: right; left; split; [exact H1|]; apply Ht; [discriminate|exact H2].
Qed.

(** A handler moves the multiplexer some number of times. *)
Definition multiplexer_moves : relation World := rtc multiplexer_move.

Lemma multiplexer_moves_keep (w w' : World) :
  multiplexer_moves w w' -> multiplexer_invariant w -> multiplexer_invariant w'.
Proof. induction 1; eauto using multiplexer_move_keeps. Qed.

#[global] Instance multiplexer_moves_refl : Reflexive multiplexer_moves.
Proof. intros w. apply rtc_refl. Qed.

#[global] Instance multiplexer_moves_trans : Transitive multiplexer_moves.
Proof. unfold multiplexer_moves. apply _. Qed.

Definition is_Settle (a : Action) : bool :=
  match a with Settle _ _ => true | _ => false end.

Lemma keeps_log_same spared (w w' : World) :
  trace w' = trace w -> timers w' = timers w -> keeps_log spared w w'.
Proof. intros Ht Hm. split; unfold timeout_armed; rewrite ?Ht, ?Hm; auto. Qed.

Lemma moves_frame (w w' : World) :
  pendingRequests w' = pendingRequests w -> messageRequestId w' = messageRequestId w ->
  trace w' = trace w -> timers w' = timers w -> multiplexer_moves w w'.
Proof.
  intros Hp Hc Ht Hm. apply rtc_once, move_nothing; auto.
  - rewrite Ht. reflexivity.
  - apply keeps_log_same; assumption.
Qed.

Lemma keeps_log_emit spared (a : Action) (w : World) : keeps_log spared w (emit a w).
Proof.
  split; [|auto]. intros id (s & d & H). exists s, d. simpl. apply elem_of_cons. auto.
Qed.

Lemma moves_emit (a : Action) (w : World) : is_Settle a = false -> multiplexer_moves w (emit a w).
Proof.
  intros Ha. apply rtc_once, move_nothing; try reflexivity.
  - destruct a; try discriminate; reflexivity.
  - apply keeps_log_emit.
Qed.

Lemma keeps_log_setTimeout spared k d (w : World) : keeps_log spared w (setTimeout k d w).
Proof.
  split; [auto|]. intros id _ (t & Hin & Hk). exists t. split; [|exact Hk].
  simpl. apply elem_of_app. auto.
Qed.

Lemma moves_setTimeout k d (w : World) : multiplexer_moves w (setTimeout k d w).
Proof. apply rtc_once, move_nothing; try reflexivity. apply keeps_log_setTimeout. Qed.

Lemma moves_stopKeepAlive (w : World) : multiplexer_moves w (stopKeepAlive w).
Proof.
  unfold stopKeepAlive. destruct (keepAliveInterval w) as [id|]; [|reflexivity].
  apply rtc_once, move_nothing; try reflexivity. split.
  - intros rid (s & d & H). exists s, d. simpl. apply elem_of_cons. auto.
  - intros rid _ (t & Hin & Hk). exists t. split; [|exact Hk].
    simpl. apply list_elem_of_filter. split; [|exact Hin]. rewrite Hk. discriminate.
Qed.

Create HintDb moves discriminated.
#[global] Hint Constants Opaque : moves.

Ltac moves_leaf :=
  idtac;
  lazymatch goal with
  | |- multiplexer_moves _ (emit _ _) => apply moves_emit; reflexivity
  | |- multiplexer_moves _ (setTimeout _ _ _) => apply moves_setTimeout
  | |- multiplexer_moves _ (stopKeepAlive _) => apply moves_stopKeepAlive
  | |- multiplexer_moves _ (set_tasks _ _) => apply moves_frame; reflexivity
  | |- multiplexer_moves _ (suspend _ _) => apply moves_frame; reflexivity
  | |- multiplexer_moves _ (?f _) =>
      first [ is_plain_update f; apply moves_frame; reflexivity | eauto with moves ]
  end.

Ltac moves_chain := chain moves_leaf.

Lemma moves_broadcastStatus error w : multiplexer_moves w (broadcastStatus error w).
Proof. apply moves_emit. reflexivity. Qed.

Lemma moves_respond sender r w : multiplexer_moves w (respond sender r w).
Proof. apply moves_emit. reflexivity. Qed.

Lemma moves_suspend t w : multiplexer_moves w (suspend t w).
Proof. apply moves_frame; reflexivity. Qed.

Lemma moves_connectToOBS userInitiated w : multiplexer_moves w (connectToOBS userInitiated w).
Proof. unfold connectToOBS. moves_chain. Qed.

Lemma moves_connectToOBS_resume accepts stored w :
  multiplexer_moves w (connectToOBS_resume accepts stored w).
Proof. unfold connectToOBS_resume, broadcastStatus. moves_chain. Qed.

#[global] Hint Resolve moves_broadcastStatus moves_respond moves_suspend moves_connectToOBS
  moves_connectToOBS_resume : moves.

(** Removing a pending request and rejecting or fulfilling its promise
    is one move. *)
Lemma moves_delete_settle requestId outcome (w : World) :
  is_Some (pendingRequests w !! requestId) ->
  multiplexer_moves w
    (emit (Settle requestId outcome)
          (set_pendingRequests (delete requestId (pendingRequests w)) w)).
Proof.
  intros Hwas. apply rtc_once, (move_settle _ _ requestId); try reflexivity; [exact Hwas|].
  split; [|auto]. intros id (s & d & H). exists s, d. simpl. apply elem_of_cons. auto.
Qed.

Lemma moves_sendRequest requestType requestData waiter w :
  multiplexer_moves w (sendRequest requestType requestData waiter w).2.
Proof.
  unfold sendRequest. cbv zeta.
  set (requestId := request_id (messageRequestId w)).
  set (w1 := setTimeout _ _ _).
  assert (H1 : multiplexer_moves w w1).
  { apply rtc_once, (move_register _ _ waiter); try reflexivity.
    - subst w1. split; [auto|]. intros id _ (t & Hin & Hk). exists t. split; [|exact Hk].
      simpl. apply elem_of_app. auto.
    - exists {| deadline := clock w + 10000; kind := RequestTimeout requestId |}.
      split; [|reflexivity]. subst w1. simpl. apply elem_of_app. right.
      apply list_elem_of_singleton. reflexivity. }
  unfold sendToOBS. destruct (open_socket w1) as [s|]; cbn [snd].
  - transitivity w1; [exact H1|]. apply moves_emit. reflexivity.
  - transitivity w1; [exact H1|]. apply moves_delete_settle.
    subst w1. simpl. rewrite lookup_insert_eq. eauto.
Qed.

Lemma moves_exec p sender w : multiplexer_moves w (exec p sender w).
Proof.
  revert w. induction p as [r|e|k IH|k IH|k IH|t d k IH]; intros w; cbn [exec].
  - apply moves_respond.
  - apply moves_respond.
  - apply IH.
  - apply moves_suspend.
  - apply IH.
  - pose proof (moves_sendRequest t d (HighlightWaiter k sender) w) as Hsr.
    destruct (sendRequest t d (HighlightWaiter k sender) w) as [[error|] w']; cbn [snd] in Hsr.
    + transitivity w'; [exact Hsr | apply IH].
    + exact Hsr.
Qed.

Lemma moves_keepAlive_failed w : multiplexer_moves w (keepAlive_failed w).
Proof. unfold keepAlive_failed. moves_chain. Qed.

#[global] Hint Resolve moves_exec moves_keepAlive_failed : moves.

Lemma moves_resume_waiter waiter outcome w :
  multiplexer_moves w (resume_waiter waiter outcome w).
Proof. unfold resume_waiter. moves_chain. Qed.

#[global] Hint Resolve moves_resume_waiter : moves.

Lemma moves_settle requestId waiter outcome (w : World) :
  is_Some (pendingRequests w !! requestId) ->
  multiplexer_moves w
    (settle requestId waiter outcome
            (set_pendingRequests (delete requestId (pendingRequests w)) w)).
Proof.
  intros Hwas. unfold settle.
  etransitivity; [apply (moves_delete_settle requestId outcome), Hwas|].
  apply moves_resume_waiter.
Qed.

Lemma moves_request_timeout requestId w : multiplexer_moves w (request_timeout requestId w).
Proof.
  unfold request_timeout. destruct (pendingRequests w !! requestId) eqn:E; [|reflexivity].
  apply moves_settle. eauto.
Qed.

Lemma moves_handleRequestResponse requestId requestStatus responseData w :
  (requestStatus = None -> malformed_response_received requestId (trace w)) ->
  multiplexer_moves w (handleRequestResponse requestId requestStatus responseData w).
Proof.
  intros Hmal. unfold handleRequestResponse.
  destruct (pendingRequests w !! requestId) eqn:E; [|reflexivity].
  destruct requestStatus as [[[] comment]|]; cbv zeta; try (apply moves_settle; eauto).
  apply rtc_once, (move_drop _ _ requestId); auto.
  apply keeps_log_same; reflexivity.
Qed.

Lemma moves_startKeepAlive w : multiplexer_moves w (startKeepAlive w).
Proof. unfold startKeepAlive. moves_chain. Qed.

#[global] Hint Resolve moves_request_timeout moves_startKeepAlive : moves.

Lemma moves_handleOBSMessage s frame w : multiplexer_moves w (handleOBSMessage s frame w).
Proof.
  destruct frame; cbn [handleOBSMessage]; unfold handleHello; try solve [moves_chain].
  transitivity (emit (Received s (RequestResponse requestId requestStatus responseData)) w);
    [apply moves_emit; reflexivity|].
  apply moves_handleRequestResponse. intros ->. exists s, responseData.
  simpl. apply elem_of_cons. auto.
Qed.

Lemma moves_onopen w : multiplexer_moves w (onopen w).
Proof. unfold onopen. moves_chain. Qed.

Lemma moves_onerror w : multiplexer_moves w (onerror w).
Proof. unfold onerror. moves_chain. Qed.

Lemma moves_onclose w : multiplexer_moves w (onclose w).
Proof. unfold onclose. moves_chain. Qed.

Lemma moves_WebSocket_close s w : multiplexer_moves w (WebSocket_close s w).
Proof. unfold WebSocket_close. moves_chain. Qed.

#[global] Hint Resolve moves_handleOBSMessage moves_onopen moves_onerror moves_onclose
  moves_WebSocket_close : moves.

Lemma moves_disconnectFromOBS w : multiplexer_moves w (disconnectFromOBS w).
Proof. unfold disconnectFromOBS. moves_chain. Qed.

Lemma moves_keepAlive_tick w : multiplexer_moves w (keepAlive_tick w).
Proof.
  unfold keepAlive_tick.
  pose proof (moves_sendRequest (js "GetVersion") (JObj []) KeepAlivePing w) as Hsr.
  destruct (sendRequest _ _ _ w) as [[error|] w']; cbn [snd] in Hsr.
  - destruct (_ && _); [transitivity w'; [exact Hsr|apply moves_keepAlive_failed]|].
    moves_chain.
  - destruct (_ && _); [exact Hsr|]. moves_chain.
Qed.

#[global] Hint Resolve moves_disconnectFromOBS moves_keepAlive_tick : moves.

Lemma moves_onMessage sender m w : multiplexer_moves w (onMessage sender m w).
Proof. unfold onMessage. destruct m; moves_chain. Qed.

Lemma moves_handleHello_resume authentication stored w :
  multiplexer_moves w (handleHello_resume authentication stored w).
Proof.
  unfold handleHello_resume, sendToOBS. cbv zeta.
  destruct authentication; [moves_chain|].
  destruct (open_socket w); cbn [snd]; moves_chain.
Qed.

Lemma moves_resume accepts t w : multiplexer_moves w (resume accepts t w).
Proof.
  destruct t; cbn [resume]; try solve [moves_chain].
  - apply moves_handleHello_resume.
  - unfold sendToOBS. destruct (open_socket w); cbn [snd]; moves_chain.
Qed.

Lemma elem_of_delete_other {A} (l : list A) (i : nat) (t x : A) :
  l !! i = Some t -> x ∈ l -> x ≠ t -> x ∈ delete i l.
Proof.
  revert i. induction l as [|a l IH]; intros [|i] Hi Hx Hne; simpl in *; try discriminate.
  - injection Hi as ->. apply elem_of_cons in Hx as [->|Hx]; [contradiction|exact Hx].
  - apply elem_of_cons in Hx as [->|Hx]; apply elem_of_cons; [left; reflexivity|].
    right. eapply IH; eauto.
Qed.

Lemma timeout_stays_armed (w : World) (i : nat) (t : Timer) (requestId : jsstring) :
  timers w !! i = Some t -> kind t ≠ RequestTimeout requestId ->
  timeout_armed requestId w ->
  timeout_armed requestId (set_timers (delete i (timers w)) w).
Proof.
  intros Hi Hk (t' & Hin & Hk'). exists t'. split; [|exact Hk'].
  simpl. eapply elem_of_delete_other; eauto. intros ->. contradiction.
Qed.

Section Multiplexer.

Variable WebSocket_accepts : jsstring -> bool.

Lemma multiplexer_timer_fires (w : World) (i : nat) (t : Timer) :
  timers w !! i = Some t ->
  multiplexer_moves w (fire t (set_timers (delete i (timers w)) w)).
Proof.
  intros Hi. unfold fire. destruct (kind t) as [requestId| | |id] eqn:Hk.
  - unfold request_timeout. cbn [pendingRequests set_timers].
    destruct (pendingRequests w !! requestId) as [waiter|] eqn:Hp.
    + unfold settle.
      etransitivity; [|apply moves_resume_waiter].
      apply rtc_once, (move_settle _ _ requestId); try reflexivity; [eauto|].
      split.
      * intros id (s & d & H). exists s, d. simpl. apply elem_of_cons. auto.
      * intros id Hne Harmed.
        destruct (timeout_stays_armed w i t id Hi) as (t' & Hin & Hk'); [congruence|exact Harmed|].
        exists t'. split; assumption.
    + apply rtc_once, (move_disarm _ _ requestId); try reflexivity; [exact Hp|].
      split; [auto|]. intros id Hne. apply (timeout_stays_armed w i t id Hi). congruence.
  - etransitivity; [|apply moves_connectToOBS].
    apply rtc_once, move_nothing; try reflexivity.
    split; [auto|]. intros id _. apply (timeout_stays_armed w i t id Hi). congruence.
  - etransitivity; [|apply moves_connectToOBS].
    apply rtc_once, move_nothing; try reflexivity.
    split; [auto|]. intros id _. apply (timeout_stays_armed w i t id Hi). congruence.
  - etransitivity; [|apply moves_keepAlive_tick].
    etransitivity; [|apply moves_setTimeout].
    apply rtc_once, move_nothing; try reflexivity.
    split; [auto|]. intros rid _. apply (timeout_stays_armed w i t rid Hi). congruence.
Qed.

Lemma multiplexer_step (w : World) (e : HostEvent) :
  multiplexer_moves w (step WebSocket_accepts w e).
Proof.
  destruct e; cbn [step].
  - moves_chain.
  - destruct (sockets w !! socket) as [[]|]; try reflexivity. apply moves_handleOBSMessage.
  - moves_chain.
  - moves_chain.
  - destruct (timers w !! index) as [t|] eqn:Hi; [|reflexivity].
    destruct (deadline t <=? clock w); [|reflexivity].
    apply multiplexer_timer_fires, Hi.
  - destruct (tasks w !! index) as [t|]; [|reflexivity].
    etransitivity; [|apply moves_resume]. apply moves_frame; reflexivity.
  - apply moves_onMessage.
  - apply moves_frame; reflexivity.
Qed.

Lemma multiplexer_run (events : list HostEvent) (w : World) :
  multiplexer_moves w (run WebSocket_accepts w events).
Proof.
  revert w. induction events as [|e events IH]; intros w; [reflexivity|].
  etransitivity; [apply multiplexer_step|apply IH].
Qed.

End Multiplexer.

Lemma multiplexer_invariant_init (stored : Storage) (now : N) :
  multiplexer_invariant (init stored now).
Proof.
  split; simpl.
  - intros id [x H]. rewrite lookup_empty in H. discriminate.
  - intros id H. apply elem_of_nil in H. contradiction.
  - intros id H. apply elem_of_nil in H. contradiction.
  - constructor.
  - intros n Hn. lia.
Qed.



(** The delays of the reconnects a log shows scheduled, newest first. *)
Fixpoint scheduled_delays (log : list Action) : list N :=
  match log with
  | [] => []
  | ReconnectScheduled delay :: earlier => delay :: scheduled_delays earlier
  | _ :: earlier => scheduled_delays earlier
  end.

Lemma filter_keepAlive_reconnect (id : nat) (ts : list Timer) :
  filter (fun t => kind t = Reconnect) (filter (fun t => kind t ≠ KeepAliveTick id) ts) =
  filter (fun t => kind t = Reconnect) ts.
Proof.
  induction ts as [|t ts IH]; [reflexivity|].
  rewrite (filter_cons (fun t => kind t ≠ KeepAliveTick id)).
  rewrite (filter_cons (fun t => kind t = Reconnect) t ts).
  destruct (decide (kind t ≠ KeepAliveTick id)) as [Hne|Heq].
  - rewrite filter_cons, IH. reflexivity.
  - rewrite IH. destruct (decide (kind t = Reconnect)) as [Hr|]; [|reflexivity].
    exfalso. apply Heq. rewrite Hr. discriminate.
Qed.

Lemma disconnectFromOBS_fields (w : World) :
  pendingRequests (disconnectFromOBS w) = pendingRequests w
  /\ autoReconnect (disconnectFromOBS w) = false
  /\ isConnected (disconnectFromOBS w) = false
  /\ keepAliveInterval (disconnectFromOBS w) = None
  /\ timers (disconnectFromOBS w) = timers (stopKeepAlive w)
  /\ settled_ids (trace (disconnectFromOBS w)) = settled_ids (trace w).
Proof.
  unfold disconnectFromOBS, WebSocket_close, stopKeepAlive. cbv zeta.
  cbn [keepAliveInterval set_reconnectAttempts set_autoReconnect].
  destruct (keepAliveInterval w) as [id|] eqn:Hk;
    cbn [obsWebSocket sockets emit set_trace set_keepAliveInterval set_timers
         set_reconnectAttempts set_autoReconnect];
    destruct (obsWebSocket w) as [s|];
    try (destruct (sockets w !! s) as [[]|]);
    cbn; rewrite ?Hk; repeat split; first [reflexivity | assumption].
Qed.

Lemma onclose_fields (w : World) :
  pendingRequests (onclose w) = pendingRequests w
  /\ keepAliveInterval (onclose w) = None
  /\ settled_ids (trace (onclose w)) = settled_ids (trace w)
  /\ timers (onclose w) =
     timers (stopKeepAlive w) ++
       (if autoReconnect w
        then [{| deadline := clock w + reconnect_delay (reconnectAttempts w + 1);
                 kind := Reconnect |}]
        else [])
  /\ autoReconnect (onclose w) = autoReconnect w
  /\ reconnectAttempts (onclose w) =
     (if autoReconnect w then reconnectAttempts w + 1 else reconnectAttempts w)
  /\ scheduled_delays (trace (onclose w)) =
     (if autoReconnect w
      then reconnect_delay (reconnectAttempts w + 1) :: scheduled_delays (trace w)
      else scheduled_delays (trace w)).
Proof.
  unfold onclose, stopKeepAlive. cbv zeta.
  cbn [keepAliveInterval set_obsWebSocket set_isAuthenticated set_isConnected].
  destruct (keepAliveInterval w) as [id|] eqn:Hk; destruct (isConnected w);
    destruct (autoReconnect w) eqn:Ha; cbn -[reconnect_delay]; rewrite ?Hk, ?Ha, ?app_nil_r;
    cbn -[reconnect_delay]; repeat split; first [reflexivity | assumption].
Qed.

(** ** The handshake, on its own *)

Lemma resumed_task_lookup (ts : list Task) (t : Task) : (ts ++ [t]) !! length ts = Some t.
Proof. apply list_lookup_middle. reflexivity. Qed.

Lemma resumed_task_delete (ts : list Task) (t : Task) : delete (length ts) (ts ++ [t]) = ts.
Proof. rewrite delete_middle. apply app_nil_r. Qed.

(** What [sendRequest] does on the spot: it arms the 10-second timeout,
    and rejects at once when there is no open socket to send on. *)
Lemma sendRequest_on_the_spot requestType requestData waiter (w : World) :
  last (timers (sendRequest requestType requestData waiter w).2) =
    Some {| deadline := clock w + 10000;
            kind := RequestTimeout (request_id (messageRequestId w)) |}
  /\ (open_socket w = None ->
      (sendRequest requestType requestData waiter w).1 =
        Some (Error (js "WebSocket not connected"))
      /\ hd_error (trace (sendRequest requestType requestData waiter w).2) =
         Some (Settle (request_id (messageRequestId w))
                      (Rejected (Error (js "WebSocket not connected")))))
  /\ (forall s, open_socket w = Some s ->
      (sendRequest requestType requestData waiter w).1 = None
      /\ hd_error (trace (sendRequest requestType requestData waiter w).2) =
         Some (Sent s (Request requestType (request_id (messageRequestId w)) requestData))).
Proof.
  unfold sendRequest, sendToOBS, setTimeout. cbv zeta.
  change (open_socket (set_timers _ _)) with (open_socket w).
  destruct (open_socket w) as [s|]; cbn -[request_id js]; rewrite last_snoc;
    (split; [reflexivity|split]); try discriminate; try (intros; split; reflexivity).
  intros s' [= <-]. split; reflexivity.
Qed.

Section Properties.

Variable WebSocket_accepts : jsstring -> bool.

Local Abbreviation host_step := (step WebSocket_accepts).
Local Abbreviation host_run := (run WebSocket_accepts).


(** The order of the handshake over the log as a whole.  Whatever the
    host does, an Identify is sent only after a Hello was received, on
    whichever socket, and the keepalive is started only after an
    Identified was received. *)
Theorem handshake_never_out_of_order (stored : Storage) (now : N)
        (events : list HostEvent) (later earlier : list Action) (a : Action) :
  trace (host_run (init stored now) events) = later ++ a :: earlier ->
  (forall s version authentication,
      a = Sent s (Identify version authentication) ->
      exists s' demanded, Received s' (Hello demanded) ∈ earlier)
  /\ (forall id, a = KeepAliveStarted id -> exists s', Received s' Identified ∈ earlier).
Proof.
  intros Hlog.
  assert (Hinv : handshake_invariant (host_run (init stored now) events)).
  { apply handshake_run. split; [reflexivity|]. simpl. discriminate. }
  destruct Hinv as [Horder _]. rewrite Hlog in Horder.
  apply handshake_in_order_split in Horder as [Hidentify HkeepAlive]. split.
  - intros s version authentication ->.
    apply existsb_exists in Hidentify as (b & Hin & Hb); [|reflexivity].
    destruct b as [s' [demanded| | | | | |]| | | | | | | | |]; try discriminate.
    exists s', demanded. apply list_elem_of_In, Hin.
  - intros id ->.
    apply existsb_exists in HkeepAlive as (b & Hin & Hb); [|reflexivity].
    destruct b as [s' [| | | | | |]| | | | | | | | |]; try discriminate.
    exists s'. apply list_elem_of_In, Hin.
Qed.

(** C2, as the code has it.  No request is ever resolved twice.
    Every request issued is in one of three states: resolved (and
    no longer pending), pending with its 10-second timeout armed, or
    removed unresolved by a response that lacked its [requestStatus].
    When the timeout of a pending request fires, the request is
    rejected with 'Request timeout' and removed; a response that
    arrives for a request no longer pending changes nothing but the
    log.  Tearing the connection down, by a socket close or by an
    explicit disconnect, resolves nothing and leaves every pending
    request pending.  A request is issued with its timeout armed 10
    seconds ahead; with no open socket to carry it, it is rejected on
    the spot with 'WebSocket not connected' and does not stay
    pending. *)
Theorem requests_resolve_at_most_once (stored : Storage) (now : N)
        (events : list HostEvent) :
  let w := host_run (init stored now) events in
  NoDup (settled_ids (trace w))
  /\ (forall n, 1 <= n < messageRequestId w ->
        (request_id n ∈ settled_ids (trace w)
         /\ pendingRequests w !! request_id n = None)
        \/ ((request_id n ∉ settled_ids (trace w))
            /\ is_Some (pendingRequests w !! request_id n)
            /\ timeout_armed (request_id n) w)
        \/ ((request_id n ∉ settled_ids (trace w))
            /\ pendingRequests w !! request_id n = None
            /\ malformed_response_received (request_id n) (trace w)))
  /\ (forall i t requestId,
        timers w !! i = Some t -> kind t = RequestTimeout requestId ->
        (deadline t <=? clock w) = true ->
        is_Some (pendingRequests w !! requestId) ->
        let w' := host_step w (TimerFires i) in
        pendingRequests w' !! requestId = None
        /\ exists newer,
            trace w' = newer ++ Settle requestId (Rejected (Error (js "Request timeout")))
                               :: trace w)
  /\ (forall s requestId requestStatus responseData,
        sockets w !! s = Some OPEN ->
        pendingRequests w !! requestId = None ->
        host_step w (SocketMessage s (RequestResponse requestId requestStatus responseData)) =
        emit (Received s (RequestResponse requestId requestStatus responseData)) w)
  /\ (forall teardown,
        (exists s, teardown = SocketCloses s)
        \/ (exists sender, teardown = RuntimeMessageArrives sender DISCONNECT_OBS) ->
        pendingRequests (host_step w teardown) = pendingRequests w
        /\ settled_ids (trace (host_step w teardown)) = settled_ids (trace w))
  /\ (forall requestType requestData waiter,
        last (timers (sendRequest requestType requestData waiter w).2) =
          Some {| deadline := clock w + 10000;
                  kind := RequestTimeout (request_id (messageRequestId w)) |}
        /\ (open_socket w = None ->
            hd_error (trace (sendRequest requestType requestData waiter w).2) =
            Some (Settle (request_id (messageRequestId w))
                         (Rejected (Error (js "WebSocket not connected"))))
            /\ pendingRequests (sendRequest requestType requestData waiter w).2 =
               pendingRequests w)).
Proof.
  intros w.
  assert (Hinv : multiplexer_invariant w).
  { eapply multiplexer_moves_keep; [apply multiplexer_run|apply multiplexer_invariant_init]. }
  split; [apply Hinv|]. split; [|split; [|split; [|split]]].
  - intros n Hn. destruct (issued_accounted w Hinv n Hn) as [H|[[H1 H2]|[H1 H2]]].
    + left. split; [exact H|]. apply (settled_not_pending w Hinv), H.
    + right; left. split; [|split; assumption].
      intros H%(settled_not_pending w Hinv). destruct H1; congruence.
    + destruct (decide (request_id n ∈ settled_ids (trace w))) as [H|H].
      * left. split; [exact H|]. apply (settled_not_pending w Hinv), H.
      * right; right. split; [exact H|split; assumption].
  - intros i t requestId Hi Hk Hdue [waiter Hp] w'.
    assert (Hw' : w' = resume_waiter waiter (Rejected (Error (js "Request timeout")))
                    (emit (Settle requestId (Rejected (Error (js "Request timeout"))))
                          (set_pendingRequests
                             (delete requestId (pendingRequests w))
                             (set_timers (delete i (timers w)) w)))).
    { subst w'. cbn [step]. rewrite Hi, Hdue. unfold fire. rewrite Hk.
      unfold request_timeout. cbn [pendingRequests set_timers]. rewrite Hp. reflexivity. }
    assert (Hlog : exists newer,
               trace w' = newer ++ Settle requestId (Rejected (Error (js "Request timeout")))
                                   :: trace w).
    { rewrite Hw'.
      destruct (quiet_resume_waiter waiter (Rejected (Error (js "Request timeout")))
                  (emit (Settle requestId (Rejected (Error (js "Request timeout"))))
                        (set_pendingRequests
                           (delete requestId (pendingRequests w))
                           (set_timers (delete i (timers w)) w))))
        as [(newer & Hnewer & _) _].
      exists newer. exact Hnewer. }
    split; [|exact Hlog].
    assert (Hinv' : multiplexer_invariant w').
    { eapply multiplexer_moves_keep; [apply multiplexer_step|exact Hinv]. }
    apply (settled_not_pending w' Hinv'). destruct Hlog as [newer ->].
    clear. induction newer as [|[] newer IH]; simpl;
      rewrite ?elem_of_cons; auto.
  - intros s requestId requestStatus responseData Hopen Hnone.
    cbn [step]. rewrite Hopen. cbn [handleOBSMessage].
    unfold handleRequestResponse. cbn [pendingRequests emit set_trace]. rewrite Hnone.
    reflexivity.
  - intros teardown [[s ->]|[sender ->]]; cbn [step].
    + destruct (sockets w !! s) as [[]|]; try (split; reflexivity);
        destruct (onclose_fields (set_sockets (<[s:=CLOSED]> (sockets w)) w))
        as (Hp & _ & Hs & _); rewrite Hp, Hs; split; reflexivity.
    + unfold onMessage, respond. cbv zeta. cbn [pendingRequests trace emit set_trace settled_ids].
      destruct (disconnectFromOBS_fields
                  (set_storage (storage_set (only_autoReconnect false) (storage w)) w))
        as (Hp & _ & _ & _ & _ & Hs).
      rewrite Hp, Hs. split; reflexivity.
  - intros requestType requestData waiter.
    destruct (sendRequest_on_the_spot requestType requestData waiter w) as (Harm & Hfail & _).
    split; [exact Harm|]. intros Hclosed. split; [apply (Hfail Hclosed)|].
    unfold sendRequest, sendToOBS, setTimeout. cbv zeta.
    change (open_socket (set_timers _ _)) with (open_socket w). rewrite Hclosed.
    cbn -[request_id js]. rewrite delete_insert_id; [reflexivity|].
    destruct (pendingRequests w !! request_id (messageRequestId w)) eqn:E; [|reflexivity].
    destruct (pending_issued w Hinv _ (mk_is_Some _ _ E)) as (n & Hn & Heq%request_id_inj).
    lia.
Qed.

End Properties.

(** ** Teardown and reconnection *)




Lemma onclose_schedules (w : World) :
  autoReconnect w = true ->
  reconnectAttempts (onclose w) = reconnectAttempts w + 1
  /\ autoReconnect (onclose w) = true
  /\ scheduled_delays (trace (onclose w)) =
     reconnect_delay (reconnectAttempts w + 1) :: scheduled_delays (trace w)
  /\ last (timers (onclose w)) =
     Some {| deadline := clock w + reconnect_delay (reconnectAttempts w + 1);
             kind := Reconnect |}.
Proof.
  intros Hauto. destruct (onclose_fields w) as (_ & _ & _ & Ht & Ha & Hn & Hd).
  rewrite Hauto in Ht, Ha, Hn, Hd.
  split; [exact Hn | split; [exact Ha | split; [exact Hd|]]].
  rewrite Ht. apply last_snoc.
Qed.

(** *** The attempt counter, event by event *)

(** What an event of the host does to the attempt counter. *)
Inductive CounterChange := Kept | Reset | Incremented.

#[global] Instance CounterChange_eq_dec : EqDecision CounterChange.
Proof. solve_decision. Defined.

(** Whether [requestId] is pending as the ping of the keepalive. *)
Definition is_ping (w : World) (requestId : jsstring) : bool :=
  match pendingRequests w !! requestId with
  | Some KeepAlivePing => true
  | _ => false
  end.

(** A connect on behalf of the user resets the counter, unless the
    script holds an open socket: then the connect returns at once. *)
Definition user_connect (w : World) : CounterChange :=
  match open_socket w with
  | Some _ => Kept
  | None => Reset
  end.

(** The places where the script writes [reconnectAttempts], by the
    event that runs them: [onclose] increments it when auto-reconnect
    is on; [onopen], a connect on behalf of the user, a disconnect and
    the two recovery branches of the keepalive set it to 0. *)
Definition counter_change (w : World) (e : HostEvent) : CounterChange :=
  match e with
  | SocketOpens s =>
      match sockets w !! s with
      | Some CONNECTING => Reset
      | _ => Kept
      end
  | SocketCloses s =>
      match sockets w !! s with
      | Some CONNECTING | Some OPEN | Some CLOSING =>
          if autoReconnect w then Incremented else Kept
      | _ => Kept
      end
  | SocketMessage s (RequestResponse requestId (Some (false, _)) _) =>
      match sockets w !! s with
      | Some OPEN => if is_ping w requestId then Reset else Kept
      | _ => Kept
      end
  | TimerFires i =>
      match timers w !! i with
      | Some t =>
          if deadline t <=? clock w then
            match kind t with
            | RequestTimeout requestId => if is_ping w requestId then Reset else Kept
            | Reconnect => Kept
            | SaveSettingsReconnect => user_connect w
            | KeepAliveTick _ =>
                if isAuthenticated w && bool_decide (is_Some (open_socket w)) then Kept
                else if autoReconnect w && negb (isConnected w) then Reset
                else Kept
            end
          else Kept
      | None => Kept
      end
  | TaskResumes i =>
      match tasks w !! i with
      | Some (SaveSettingsAfterStorage _) => Reset
      | _ => Kept
      end
  | RuntimeMessageArrives _ CONNECT_OBS => user_connect w
  | RuntimeMessageArrives _ DISCONNECT_OBS => Reset
  | _ => Kept
  end.

(** The number of increments among changes. *)
Definition increments (changes : list CounterChange) : nat :=
  length (List.filter (fun c => bool_decide (c = Incremented)) changes).

(** [w'] has the counter and the scheduled reconnects of [w]. *)
Definition steady (w w' : World) : Prop :=
  reconnectAttempts w' = reconnectAttempts w
  /\ scheduled_delays (trace w') = scheduled_delays (trace w).

(** [w'] has the counter at 0 and the scheduled reconnects of [w]. *)
Definition zeroed (w w' : World) : Prop :=
  reconnectAttempts w' = 0
  /\ scheduled_delays (trace w') = scheduled_delays (trace w).

Definition counter_moves (c : CounterChange) (w w' : World) : Prop :=
  match c with
  | Incremented =>
      reconnectAttempts w' = reconnectAttempts w + 1
      /\ scheduled_delays (trace w') =
         reconnect_delay (reconnectAttempts w + 1) :: scheduled_delays (trace w)
      /\ last (timers w') =
         Some {| deadline := clock w + reconnect_delay (reconnectAttempts w + 1);
                 kind := Reconnect |}
  | Reset => zeroed w w'
  | Kept => steady w w'
  end.

#[global] Instance steady_refl : Reflexive steady.
Proof. intros w. split; reflexivity. Qed.

#[global] Instance steady_trans : Transitive steady.
Proof. intros w1 w2 w3 [N1 D1] [N2 D2]. split; congruence. Qed.

Lemma steady_frame (w w' : World) :
  trace w' = trace w -> reconnectAttempts w' = reconnectAttempts w -> steady w w'.
Proof. intros Ht Hn. split; [exact Hn|rewrite Ht; reflexivity]. Qed.

Definition is_ReconnectScheduled (a : Action) : bool :=
  match a with ReconnectScheduled _ => true | _ => false end.

Lemma steady_emit (a : Action) (w : World) :
  is_ReconnectScheduled a = false -> steady w (emit a w).
Proof. intros Ha. split; [reflexivity|]. destruct a; try discriminate; reflexivity. Qed.

Lemma zeroed_steady (w w1 w2 : World) : zeroed w w1 -> steady w1 w2 -> zeroed w w2.
Proof. intros [N1 D1] [N2 D2]. split; congruence. Qed.

Lemma steady_zeroed (w w1 w2 : World) : steady w w1 -> zeroed w1 w2 -> zeroed w w2.
Proof. intros [N1 D1] [N2 D2]. split; congruence. Qed.

Lemma zeroed_set (w : World) : zeroed w (set_reconnectAttempts 0 w).
Proof. split; reflexivity. Qed.

Create HintDb steady discriminated.
#[global] Hint Constants Opaque : steady.

Ltac steady_leaf :=
  idtac;
  lazymatch goal with
  | |- steady _ (emit _ _) => apply steady_emit; reflexivity
  | |- steady _ (suspend _ _) => apply steady_frame; reflexivity
  | |- steady _ (setTimeout _ _ _) => apply steady_frame; reflexivity
  | |- steady _ (set_timers _ _) => apply steady_frame; reflexivity
  | |- steady _ (set_tasks _ _) => apply steady_frame; reflexivity
  | |- steady _ (set_pendingRequests _ _) => apply steady_frame; reflexivity
  | |- steady _ (set_messageRequestId _ _) => apply steady_frame; reflexivity
  | |- steady _ (?f _) =>
      first [ is_plain_update f; apply steady_frame; reflexivity | eauto with steady ]
  end.

Ltac steady_chain := chain steady_leaf.

Lemma steady_broadcastStatus error w : steady w (broadcastStatus error w).
Proof. apply steady_emit. reflexivity. Qed.

Lemma steady_respond sender r w : steady w (respond sender r w).
Proof. apply steady_emit. reflexivity. Qed.

Lemma steady_sendToOBS frame w : steady w (sendToOBS frame w).2.
Proof. unfold sendToOBS. destruct (open_socket w); cbn [snd]; steady_chain. Qed.

Lemma steady_sendRequest requestType requestData waiter w :
  steady w (sendRequest requestType requestData waiter w).2.
Proof.
  unfold sendRequest, sendToOBS. cbv zeta.
  destruct (open_socket _); cbn [snd]; steady_chain.
Qed.

Lemma steady_connectToOBS_false w : steady w (connectToOBS false w).
Proof. unfold connectToOBS. steady_chain. Qed.

Lemma steady_connectToOBS_resume accepts stored w :
  steady w (connectToOBS_resume accepts stored w).
Proof. unfold connectToOBS_resume, broadcastStatus. steady_chain. Qed.

Lemma steady_stopKeepAlive w : steady w (stopKeepAlive w).
Proof. unfold stopKeepAlive. steady_chain. Qed.

#[global] Hint Resolve steady_broadcastStatus steady_respond steady_connectToOBS_false
  steady_connectToOBS_resume steady_stopKeepAlive : steady.

Lemma steady_startKeepAlive w : steady w (startKeepAlive w).
Proof. unfold startKeepAlive. steady_chain. Qed.

Lemma steady_WebSocket_close s w : steady w (WebSocket_close s w).
Proof. unfold WebSocket_close. steady_chain. Qed.

#[global] Hint Resolve steady_startKeepAlive steady_WebSocket_close : steady.

Lemma steady_exec p sender w : steady w (exec p sender w).
Proof.
  revert w. induction p as [r|e|k IH|k IH|k IH|t d k IH]; intros w; cbn [exec].
  - apply steady_respond.
  - apply steady_respond.
  - apply IH.
  - apply steady_frame; reflexivity.
  - apply IH.
  - pose proof (steady_sendRequest t d (HighlightWaiter k sender) w) as Hsr.
    destruct (sendRequest t d (HighlightWaiter k sender) w) as [[error|] w']; cbn [snd] in Hsr.
    + transitivity w'; [exact Hsr | apply IH].
    + exact Hsr.
Qed.

#[global] Hint Resolve steady_exec : steady.

Lemma steady_handleHello_resume authentication stored w :
  steady w (handleHello_resume authentication stored w).
Proof.
  unfold handleHello_resume. cbv zeta.
  destruct authentication as [authentication|]; [|apply steady_sendToOBS].
  destruct (or_default _ _); [apply steady_broadcastStatus|].
  destruct (generateAuthString _ _ _); [apply steady_frame; reflexivity|reflexivity].
Qed.

(** A connect on behalf of the user. *)
Lemma connectToOBS_true_moves (w : World) :
  counter_moves (user_connect w) w (connectToOBS true w).
Proof.
  unfold connectToOBS, user_connect. destruct (open_socket w); [reflexivity|].
  split; reflexivity.
Qed.

Lemma zeroed_keepAlive_failed (w : World) : zeroed w (keepAlive_failed w).
Proof.
  unfold keepAlive_failed, connectToOBS. destruct (open_socket _); split; reflexivity.
Qed.

Lemma zeroed_disconnectFromOBS (w : World) : zeroed w (disconnectFromOBS w).
Proof.
  unfold disconnectFromOBS. cbv zeta.
  apply zeroed_steady with (w1 := set_reconnectAttempts 0 (set_autoReconnect false w)).
  - split; reflexivity.
  - steady_chain.
Qed.

Lemma steady_settle_fulfilled requestId waiter value w :
  steady w (settle requestId waiter (Fulfilled value) w).
Proof.
  unfold settle, resume_waiter. destruct waiter; [apply steady_emit; reflexivity|].
  transitivity (emit (Settle requestId (Fulfilled value)) w);
    [apply steady_emit; reflexivity|apply steady_exec].
Qed.

(** A request is rejected: the keepalive resets the counter, a
    highlight leaves it. *)
Lemma settle_rejected_moves requestId waiter error w :
  counter_moves (match waiter with KeepAlivePing => Reset | _ => Kept end)
                w (settle requestId waiter (Rejected error) w).
Proof.
  unfold settle, resume_waiter. destruct waiter; cbn [counter_moves].
  - eapply steady_zeroed; [apply (steady_emit (Settle requestId (Rejected error)));
                           reflexivity|].
    apply zeroed_keepAlive_failed.
  - transitivity (emit (Settle requestId (Rejected error)) w);
      [apply steady_emit; reflexivity|apply steady_exec].
Qed.

Section Backoff.

Variable WebSocket_accepts : jsstring -> bool.

Local Abbreviation host_step := (step WebSocket_accepts).
Local Abbreviation host_run := (run WebSocket_accepts).

(** The changes of the counter along a run. *)
Fixpoint counter_changes (w : World) (events : list HostEvent) : list CounterChange :=
  match events with
  | [] => []
  | e :: later => counter_change w e :: counter_changes (host_step w e) later
  end.

Lemma counter_message (s : nat) (frame : ServerFrame) (w : World) :
  counter_moves
    (match frame with
     | RequestResponse requestId (Some (false, _)) _ =>
         if is_ping w requestId then Reset else Kept
     | _ => Kept
     end) w (handleOBSMessage s frame w).
Proof.
  destruct frame as [authentication| |eventType|requestId requestStatus responseData| | |];
    cbn [handleOBSMessage counter_moves]; try solve [steady_chain].
  - unfold handleHello. steady_chain.
  - unfold handleRequestResponse, is_ping. cbv zeta.
    cbn [pendingRequests emit set_trace].
    destruct (pendingRequests w !! requestId) as [pending|] eqn:Hp.
    + destruct requestStatus as [[[] comment]|].
      * cbn [counter_moves].
        transitivity (emit (Received s (RequestResponse requestId (Some (true, comment))
                                                        responseData)) w);
          [apply steady_emit; reflexivity|].
        match goal with
        | |- steady ?a (settle _ _ _ ?b) =>
            transitivity b; [apply steady_frame; reflexivity|apply steady_settle_fulfilled]
        end.
      * pose proof (settle_rejected_moves requestId pending
                      (Error (or_default comment (js "Request failed")))
                      (set_pendingRequests
                         (delete requestId (pendingRequests w))
                         (emit (Received s (RequestResponse requestId (Some (false, comment))
                                                            responseData)) w))) as Hmoves.
        destruct pending; cbn [counter_moves] in *.
        -- destruct Hmoves as [Hn Hd]. split; [exact Hn|]. rewrite Hd. reflexivity.
        -- destruct Hmoves as [Hn Hd]. split; [rewrite Hn; reflexivity|].
           rewrite Hd. reflexivity.
      * cbn [counter_moves]. steady_chain.
    + destruct requestStatus as [[[] comment]|]; cbn [counter_moves];
        apply steady_emit; reflexivity.
Qed.

Lemma steady_setTimeout k delay w : steady w (setTimeout k delay w).
Proof. apply steady_frame; reflexivity. Qed.

Lemma counter_onclose (w : World) :
  counter_moves (if autoReconnect w then Incremented else Kept) w (onclose w).
Proof.
  destruct (onclose_fields w) as (_ & _ & _ & Ht & _ & Hn & Hd).
  destruct (autoReconnect w); cbn [counter_moves].
  - split; [exact Hn|]. split; [exact Hd|]. rewrite Ht. apply last_snoc.
  - split; [exact Hn|exact Hd].
Qed.

Lemma counter_timer (w : World) (i : nat) (t : Timer) :
  counter_moves
    (match kind t with
     | RequestTimeout requestId => if is_ping w requestId then Reset else Kept
     | Reconnect => Kept
     | SaveSettingsReconnect => user_connect w
     | KeepAliveTick _ =>
         if isAuthenticated w && bool_decide (is_Some (open_socket w)) then Kept
         else if autoReconnect w && negb (isConnected w) then Reset
         else Kept
     end) w (fire t (set_timers (delete i (timers w)) w)).
Proof.
  unfold fire. destruct (kind t) as [requestId| | |id].
  - unfold request_timeout, is_ping. cbn [pendingRequests set_timers].
    destruct (pendingRequests w !! requestId) as [waiter|].
    + pose proof (settle_rejected_moves requestId waiter (Error (js "Request timeout"))
                    (set_pendingRequests (delete requestId (pendingRequests w))
                                         (set_timers (delete i (timers w)) w))) as Hmoves.
      destruct waiter; cbn [counter_moves] in *; exact Hmoves.
    + apply steady_frame; reflexivity.
  - cbn [counter_moves].
    transitivity (set_timers (delete i (timers w)) w);
      [apply steady_frame; reflexivity|apply steady_connectToOBS_false].
  - pose proof (connectToOBS_true_moves (set_timers (delete i (timers w)) w)) as Hmoves.
    change (user_connect (set_timers (delete i (timers w)) w)) with (user_connect w)
      in Hmoves.
    destruct (user_connect w); exact Hmoves.
  - unfold keepAlive_tick.
    change (open_socket (setTimeout _ _ _)) with (open_socket w).
    cbn [isAuthenticated autoReconnect isConnected setTimeout set_timers].
    destruct (isAuthenticated w && bool_decide (is_Some (open_socket w))) eqn:Hcond.
    + cbn [counter_moves]. apply andb_true_iff in Hcond as [_ Hopen].
      apply bool_decide_eq_true_1 in Hopen as [s Hs].
      unfold sendRequest, sendToOBS, setTimeout. cbv zeta.
      change (open_socket (set_timers _ _)) with (open_socket w). rewrite Hs.
      split; reflexivity.
    + destruct (autoReconnect w && negb (isConnected w)); cbn [counter_moves].
      * unfold connectToOBS. destruct (open_socket _); split; reflexivity.
      * apply steady_frame; reflexivity.
Qed.

Lemma counter_resume (w : World) (i : nat) (t : Task) :
  counter_moves (match t with SaveSettingsAfterStorage _ => Reset | _ => Kept end)
                w (resume WebSocket_accepts t (set_tasks (delete i (tasks w)) w)).
Proof.
  destruct t; cbn [resume counter_moves].
  - transitivity (set_tasks (delete i (tasks w)) w);
      [apply steady_frame; reflexivity|apply steady_connectToOBS_resume].
  - transitivity (set_tasks (delete i (tasks w)) w);
      [apply steady_frame; reflexivity|apply steady_handleHello_resume].
  - transitivity (set_tasks (delete i (tasks w)) w);
      [apply steady_frame; reflexivity|apply steady_sendToOBS].
  - transitivity (set_tasks (delete i (tasks w)) w);
      [apply steady_frame; reflexivity|apply steady_exec].
  - cbv zeta. eapply zeroed_steady; [|apply steady_setTimeout].
    eapply steady_zeroed; [|apply zeroed_disconnectFromOBS].
    transitivity (set_tasks (delete i (tasks w)) w);
      [apply steady_frame; reflexivity|apply steady_respond].
  - transitivity (set_tasks (delete i (tasks w)) w);
      [apply steady_frame; reflexivity|apply steady_respond].
  - destruct stored as [[]|]; try (apply steady_frame; reflexivity).
    transitivity (set_autoReconnect true (set_tasks (delete i (tasks w)) w));
      [apply steady_frame; reflexivity|apply steady_connectToOBS_false].
Qed.

Lemma counter_onMessage (w : World) (sender : nat) (m : RuntimeMessage) :
  counter_moves (match m with
                 | CONNECT_OBS => user_connect w
                 | DISCONNECT_OBS => Reset
                 | _ => Kept
                 end) w (onMessage sender m w).
Proof.
  destruct m; cbn [onMessage counter_moves]; try solve [steady_chain].
  - pose proof (connectToOBS_true_moves w) as Hmoves.
    destruct (user_connect w); cbn [counter_moves] in *.
    + transitivity (connectToOBS true w); [exact Hmoves|apply steady_respond].
    + eapply zeroed_steady; [exact Hmoves|apply steady_respond].
    + destruct Hmoves as (Hn & Hd & Ht). repeat split; assumption.
  - eapply zeroed_steady; [|apply steady_respond].
    eapply steady_zeroed; [|apply zeroed_disconnectFromOBS].
    apply steady_frame; reflexivity.
Qed.

(** What each event of the host does to the counter. *)
Lemma counter_step (w : World) (e : HostEvent) :
  counter_moves (counter_change w e) w (host_step w e).
Proof.
  destruct e as [s|s frame|s|s|i|i|sender m|ms]; cbn [step counter_change].
  - destruct (sockets w !! s) as [[]|]; cbn [counter_moves]; try reflexivity.
    unfold onopen. split; reflexivity.
  - pose proof (counter_message s frame w) as Hmoves.
    destruct (sockets w !! s) as [[]|];
      try (destruct frame as [| | |? [[[] ?]|] ?| | |]; reflexivity).
    exact Hmoves.
  - destruct (sockets w !! s) as [[]|]; cbn [counter_moves]; try reflexivity;
      apply steady_broadcastStatus.
  - pose proof (counter_onclose (set_sockets (<[s := CLOSED]> (sockets w)) w)) as Hmoves.
    destruct (sockets w !! s) as [[]|]; cbn [counter_moves]; try reflexivity; exact Hmoves.
  - destruct (timers w !! i) as [t|]; [|reflexivity].
    destruct (deadline t <=? clock w); [|reflexivity].
    apply counter_timer.
  - pose proof (counter_resume w i) as Hmoves.
    destruct (tasks w !! i) as [t|]; [|reflexivity].
    specialize (Hmoves t). destruct t; exact Hmoves.
  - pose proof (counter_onMessage w sender m) as Hmoves. destruct m; exact Hmoves.
  - apply steady_frame; reflexivity.
Qed.

Lemma increments_cons (c : CounterChange) (changes : list CounterChange) :
  increments (c :: changes) =
  match c with Incremented => S (increments changes) | _ => increments changes end.
Proof. destruct c; reflexivity. Qed.

Lemma ramp_cons (f : N -> N) (n : N) (k : nat) :
  rev (map (fun i => f (n + N.of_nat i)) (seq 1 (S k))) =
  rev (map (fun i => f (n + 1 + N.of_nat i)) (seq 1 k)) ++ [f (n + 1)].
Proof.
  cbn [seq map rev]. change (N.of_nat 1) with 1.
  rewrite <- seq_shift, map_map. f_equal. f_equal. apply map_ext. intros i. f_equal. lia.
Qed.

(** Along a run that does not reset the counter, the counter counts
    the closes that scheduled a reconnect, and their delays are the
    steps of the ramp that follow the counter. *)
Lemma backoff_run (events : list HostEvent) (w : World) :
  Forall (fun c => c ≠ Reset) (counter_changes w events) ->
  reconnectAttempts (host_run w events) =
    reconnectAttempts w + N.of_nat (increments (counter_changes w events))
  /\ scheduled_delays (trace (host_run w events)) =
     rev (map (fun i => reconnect_delay (reconnectAttempts w + N.of_nat i))
              (seq 1 (increments (counter_changes w events))))
       ++ scheduled_delays (trace w).
Proof.
  revert w. induction events as [|e events IH]; intros w Hkept.
  - cbn. split; [lia|reflexivity].
  - cbn [counter_changes] in *. apply Forall_cons in Hkept as [Hc Hkept].
    destruct (IH _ Hkept) as [IHn IHd]. pose proof (counter_step w e) as Hmoves.
    change (host_run w (e :: events)) with (host_run (host_step w e) events).
    rewrite increments_cons. destruct (counter_change w e); [| contradiction |].
    + destruct Hmoves as [Hn Hd]. rewrite IHn, IHd, Hn, Hd. split; reflexivity.
    + destruct Hmoves as (Hn & Hd & _). rewrite IHn, IHd, Hn, Hd.
      split; [lia|]. rewrite (ramp_cons reconnect_delay), <- app_assoc. reflexivity.
Qed.

Lemma opens_then_closes (w : World) (s : nat) :
  sockets w !! s = Some CONNECTING -> autoReconnect w = true ->
  counter_change (host_step w (SocketOpens s)) (SocketCloses s) = Incremented.
Proof.
  intros Hs Hauto. cbn [step]. rewrite Hs. unfold onopen, broadcastStatus. cbv zeta.
  cbn [counter_change sockets autoReconnect emit set_trace set_reconnectAttempts
       set_isConnected set_sockets isConnected isAuthenticated].
  rewrite list_lookup_insert_eq by (eapply lookup_lt_Some, Hs). rewrite Hauto. reflexivity.
Qed.

(** C4, as the code has it.  Of the events of the host, a close of a
    socket while auto-reconnect is on increments the attempt counter
    and schedules the next reconnect after min(attempts * 2 s, 30 s),
    and no other event increments it.  The counter is set to 0 when a
    socket opens, on a connect on behalf of the user made while no open
    socket is held (CONNECT_OBS, the reconnect after a save), on a
    disconnect (DISCONNECT_OBS, a save), and by the keepalive when its
    ping fails or its tick finds the client disconnected with
    auto-reconnect on.  Every other event leaves it as it is: so do
    the reconnect itself (its timer, the read of the storage, the new
    socket) and the Identified frame, which makes the client Ready.
    Hence, along any run that does not reset the counter, the closes
    wait 2 s, 4 s, 6 s, ... up to 30 s, counted from the counter at the
    start; and the close after an open waits 2 s again. *)
Theorem reconnect_backoff (w : World) :
  (forall e,
      let w' := host_step w e in
      match counter_change w e with
      | Incremented =>
          reconnectAttempts w' = reconnectAttempts w + 1
          /\ scheduled_delays (trace w') =
             N.min ((reconnectAttempts w + 1) * 2000) 30000 :: scheduled_delays (trace w)
          /\ last (timers w') =
             Some {| deadline := clock w + N.min ((reconnectAttempts w + 1) * 2000) 30000;
                     kind := Reconnect |}
      | Reset =>
          reconnectAttempts w' = 0
          /\ scheduled_delays (trace w') = scheduled_delays (trace w)
      | Kept =>
          reconnectAttempts w' = reconnectAttempts w
          /\ scheduled_delays (trace w') = scheduled_delays (trace w)
      end)
  /\ (forall events,
        Forall (fun c => c ≠ Reset) (counter_changes w events) ->
        let closes := increments (counter_changes w events) in
        reconnectAttempts (host_run w events) = reconnectAttempts w + N.of_nat closes
        /\ scheduled_delays (trace (host_run w events)) =
           rev (map (fun i => N.min ((reconnectAttempts w + N.of_nat i) * 2000) 30000)
                    (seq 1 closes))
             ++ scheduled_delays (trace w))
  /\ (forall s,
        sockets w !! s = Some CONNECTING -> autoReconnect w = true ->
        reconnectAttempts (host_step w (SocketOpens s)) = 0
        /\ scheduled_delays (trace (host_run w [SocketOpens s; SocketCloses s])) =
           2000 :: scheduled_delays (trace w))
  /\ (forall s,
        reconnectAttempts (host_step w (SocketMessage s Identified)) = reconnectAttempts w
        /\ counter_change w (SocketMessage s Identified) = Kept).
Proof.
  split; [|split; [|split]].
  - intros e. exact (counter_step w e).
  - intros events Hkept. exact (backoff_run events w Hkept).
  - intros s Hs Hauto.
    pose proof (counter_step w (SocketOpens s)) as Hopens.
    pose proof (counter_step (host_step w (SocketOpens s)) (SocketCloses s)) as Hcloses.
    rewrite (opens_then_closes w s Hs Hauto) in Hcloses.
    change (host_run w [SocketOpens s; SocketCloses s])
      with (host_step (host_step w (SocketOpens s)) (SocketCloses s)).
    revert Hopens Hcloses. cbn [counter_change]. rewrite Hs.
    generalize (host_step w (SocketOpens s)). intros w1 [Hn Hd] (_ & Hd' & _).
    split; [exact Hn|]. rewrite Hd', Hn, Hd. reflexivity.
  - intros s. split; [|reflexivity].
    exact (proj1 (counter_step w (SocketMessage s Identified))).
Qed.

End Backoff.

(** ** The highlight inside the worker *)

(** A procedure moved past the effects the host answers at once, up to
    its next request or its end. *)
Fixpoint advance {R} (p : Proc R) (authenticated : bool) (stored : Storage) (now : N)
  : Proc R :=
  match p with
  | ReadAuthenticated k => advance (k authenticated) authenticated stored now
  | StorageGet k => advance (k stored) authenticated stored now
  | DateNow k => advance (k now) authenticated stored now
  | _ => p
  end.

(** The code of a highlight that waits for the answer to its fetch. *)
Definition fetch_waiter (data : MessageData) (stored : Storage) (now : N)
  : Settled (option JSON) -> Proc bool :=
  match advance (sendHighlightToOBS data) true stored now with
  | SendRequest _ _ k => k
  | p => fun _ => p
  end.

(** The highlight once the storage read has returned [stored]. *)
Definition highlight_after_storage (data : MessageData) (stored : Storage) : Proc bool :=
  match sendHighlightToOBS data with
  | ReadAuthenticated k =>
      match k true with
      | StorageGet k' => k' stored
      | p => p
      end
  | p => p
  end.

Lemma highlight_suspends_at_storage (w : World) (sender : nat) (data : MessageData) :
  isAuthenticated w = true ->
  onMessage sender (HIGHLIGHT_MESSAGE data) w =
  suspend (HighlightAfterStorage (highlight_after_storage data (storage w)) sender) w.
Proof.
  intros Hauth. unfold onMessage, sendHighlightToOBS. cbn [exec mbind Proc_bind proc_bind].
  rewrite Hauth. reflexivity.
Qed.

Lemma highlight_issues_fetch (w : World) (s sender : nat) (data : MessageData)
      (stored : Storage) :
  open_socket w = Some s ->
  exec (highlight_after_storage data stored) sender w =
  emit (Sent s (Request (js "GetInputSettings") (request_id (messageRequestId w))
                        (JObj [(js "inputName", JStr (configured_sourceName stored))])))
       (setTimeout (RequestTimeout (request_id (messageRequestId w))) 10000
          (set_pendingRequests
             (<[request_id (messageRequestId w) :=
                  HighlightWaiter (fetch_waiter data stored (clock w)) sender]>
                (pendingRequests w))
             (set_messageRequestId (messageRequestId w + 1) w))).
Proof.
  intros Hopen. unfold highlight_after_storage, sendHighlightToOBS.
  cbn [exec mbind Proc_bind proc_bind try_catch sendRequest_await negb].
  unfold sendRequest, sendToOBS, setTimeout. cbv zeta.
  change (open_socket (set_timers _ _)) with (open_socket w). rewrite Hopen.
  reflexivity.
Qed.

Section HighlightInTheWorker.

Variable WebSocket_accepts : jsstring -> bool.

(** In the worker: the answer to the fetch of a highlight carries no
    URL.  The sender is told which browser source is missing, and
    nothing is sent. *)
Lemma fetch_answered_without_url (w : World) (s sender : nat) (requestId : jsstring)
      (data : MessageData) (stored : Storage) (now : N)
      (currentSettings : option JSON) (comment : option jsstring) :
  sockets w !! s = Some OPEN ->
  pendingRequests w !! requestId =
    Some (HighlightWaiter (fetch_waiter data stored now) sender) ->
  truthy (fetched_url currentSettings) = false ->
  step WebSocket_accepts w
       (SocketMessage s (RequestResponse requestId (Some (true, comment)) currentSettings)) =
  respond sender (Failure (source_not_found (configured_sourceName stored)))
    (emit (Settle requestId (Fulfilled currentSettings))
       (set_pendingRequests (delete requestId (pendingRequests w))
          (emit (Received s (RequestResponse requestId (Some (true, comment))
                                             currentSettings)) w))).
Proof.
  intros Hopen Hpending Hurl. cbn [step]. rewrite Hopen. cbn [handleOBSMessage].
  unfold handleRequestResponse. cbn [pendingRequests emit set_trace]. rewrite Hpending.
  unfold settle, resume_waiter, fetch_waiter, sendHighlightToOBS.
  cbn [advance mbind Proc_bind proc_bind try_catch sendRequest_await negb awaited exec].
  unfold fetched_url in Hurl. unfold or_empty. rewrite Hurl.
  cbn [truthy negb exec highlight_response error_message]. reflexivity.
Qed.

(** In the worker: the answer to the fetch carries a URL.  The update
    goes out on the open socket with the rewritten URL. *)
Lemma fetch_answered_with_url (w : World) (s s' sender : nat) (requestId : jsstring)
      (data : MessageData) (stored : Storage) (now : N)
      (currentSettings : option JSON) (comment : option jsstring) (baseUrl : jsstring) :
  sockets w !! s = Some OPEN ->
  open_socket w = Some s' ->
  pendingRequests w !! requestId =
    Some (HighlightWaiter (fetch_waiter data stored now) sender) ->
  fetched_url currentSettings = Some (JStr baseUrl) ->
  baseUrl ≠ [] ->
  trace (step WebSocket_accepts w
              (SocketMessage s (RequestResponse requestId (Some (true, comment))
                                                currentSettings))) =
  Sent s' (Request (js "SetInputSettings") (request_id (messageRequestId w))
                   (JObj [(js "inputName", JStr (configured_sourceName stored));
                          (js "inputSettings",
                           JObj [(js "url",
                                  JStr (before_question_mark baseUrl ++ question_mark ::
                                          URLSearchParams_toString
                                            (highlight_params data now
                                               (match displayDuration stored with
                                                | Some (N.pos d) => N.pos d
                                                | _ => 8
                                                end))))])]))
    :: Settle requestId (Fulfilled currentSettings)
    :: Received s (RequestResponse requestId (Some (true, comment)) currentSettings)
    :: trace w.
Proof.
  intros Hopen Hsocket Hpending Hurl Hne. cbn [step]. rewrite Hopen. cbn [handleOBSMessage].
  unfold handleRequestResponse. cbn [pendingRequests emit set_trace]. rewrite Hpending.
  unfold settle, resume_waiter, fetch_waiter, sendHighlightToOBS.
  cbn [advance mbind Proc_bind proc_bind try_catch sendRequest_await negb awaited exec].
  unfold fetched_url in Hurl. unfold or_empty. rewrite Hurl.
  destruct baseUrl as [|c baseUrl]; [contradiction|].
  cbn [truthy negb exec proc_bind try_catch].
  unfold sendRequest, sendToOBS, setTimeout. cbv zeta.
  change (open_socket (set_timers _ _)) with (open_socket w). rewrite Hsocket.
  reflexivity.
Qed.

End HighlightInTheWorker.

(** C7. When the fetched configuration has no destination URL the
    highlight fails with the error that names the expected browser
    source, having issued the fetch and nothing else; the highlight
    reports success only when the fetch, the update and the refresh all
    succeeded, and otherwise reports the first error met.  In the
    worker, whatever happened since the fetch went out, its answer
    without a URL makes the worker answer the sender with that error
    and send nothing. *)
Theorem highlight_all_or_nothing (data : MessageData) (stored : Storage) (now : N) :
  (forall currentSettings rest,
      truthy (fetched_url currentSettings) = false ->
      run_proc (sendHighlightToOBS data) true stored now (Fulfilled currentSettings :: rest) =
      ([GetInputSettings_request (configured_sourceName stored)],
       Some (Rejected (Error (source_not_found (configured_sourceName stored)))))
      /\ highlight_answer data true stored now (Fulfilled currentSettings :: rest) =
         Some (Failure (js "Browser source " ++ dquote :: configured_sourceName stored ++
                        dquote :: js " not found or has no URL. Please create a browser source named " ++
                        dquote :: configured_sourceName stored ++ dquote :: js " in OBS.")))
  /\ (forall authenticated answers,
         highlight_answer data authenticated stored now answers = Some Success ->
         authenticated = true /\
         exists currentSettings c baseUrl updated refreshed rest,
           answers = Fulfilled currentSettings :: Fulfilled updated :: Fulfilled refreshed :: rest
           /\ fetched_url currentSettings = Some (JStr (c :: baseUrl)))
  /\ (forall authenticated answers e,
         snd (run_proc (sendHighlightToOBS data) authenticated stored now answers) =
           Some (Rejected e) ->
         spec_first_error authenticated stored answers = Some e
         /\ highlight_answer data authenticated stored now answers =
            Some (Failure (error_message e)))
  /\ (forall WebSocket_accepts w s sender requestId currentSettings comment,
         sockets w !! s = Some OPEN ->
         pendingRequests w !! requestId =
           Some (HighlightWaiter (fetch_waiter data stored now) sender) ->
         truthy (fetched_url currentSettings) = false ->
         step WebSocket_accepts w
              (SocketMessage s (RequestResponse requestId (Some (true, comment))
                                                currentSettings)) =
         respond sender (Failure (source_not_found (configured_sourceName stored)))
           (emit (Settle requestId (Fulfilled currentSettings))
              (set_pendingRequests (delete requestId (pendingRequests w))
                 (emit (Received s (RequestResponse requestId (Some (true, comment))
                                                    currentSettings)) w)))).
Proof.
  split; [|split; [|split]]; [| | |intros; eapply fetch_answered_without_url; eassumption].
  - intros currentSettings rest Hurl. unfold highlight_answer.
    rewrite run_highlight_authenticated. cbv zeta.
    destruct (fetched_url currentSettings) as [[| [] | n | [|c s] | items | fields]|];
      cbn in Hurl; try discriminate; cbn; try (split; reflexivity).
    destruct n; cbn in Hurl; try discriminate. split; reflexivity.
  - intros [] answers; unfold highlight_answer.
    + rewrite run_highlight_authenticated. cbv zeta. intros H. split; [reflexivity|].
      destruct answers as [|[currentSettings|e] answers]; try discriminate.
      destruct (fetched_url currentSettings) as [[| b | n | [|c s] | items | fields]|] eqn:Hurl;
        try (destruct (truthy _); discriminate).
      destruct answers as [|[updated|?] [|[refreshed|?] rest]]; try discriminate.
      exists currentSettings, c, s, updated, refreshed, rest. split; [reflexivity|exact Hurl].
    + rewrite run_highlight_unauthenticated. discriminate.
  - intros [] answers e; unfold highlight_answer, spec_first_error.
    + rewrite run_highlight_authenticated. cbv zeta. cbn [negb].
      destruct answers as [|[currentSettings|e'] answers]; cbn; try discriminate.
      * destruct (fetched_url currentSettings) as [[| b | n | [|c s] | items | fields]|];
          cbn; try (intros [= <-]; split; reflexivity);
          try (case_match; cbn; intros [= <-]; split; reflexivity).
        destruct answers as [|[updated|?] [|[refreshed|?] rest]]; cbn; try discriminate;
          intros [= <-]; split; reflexivity.
      * intros [= <-]; split; reflexivity.
    + rewrite run_highlight_unauthenticated. cbn. intros [= <-]; split; reflexivity.
Qed.

(** C10. The update request of a highlight carries a URL made of the
    part of the fetched URL before its first question mark, unchanged,
    a question mark, and a query that reads back as exactly the fields
    username, message, color, timestamp and duration; whatever followed
    the first question mark of the fetched URL is gone, and the
    timestamp is the clock reading of the worker, not the timestamp of
    the payload.  In the worker, the answer to the fetch is followed at
    once by the update with that URL on the open socket. *)
Theorem highlight_rewrites_url (data : MessageData) (stored : Storage) (now : N)
        (currentSettings : option JSON) (baseUrl : jsstring)
        (rest : list (Settled (option JSON))) :
  fetched_url currentSettings = Some (JStr baseUrl) ->
  baseUrl ≠ [] ->
  let urlBase := before_question_mark baseUrl in
  let duration := match displayDuration stored with Some (N.pos d) => N.pos d | _ => 8 end in
  let query := URLSearchParams_toString (highlight_params data now duration) in
  (run_proc (sendHighlightToOBS data) true stored now (Fulfilled currentSettings :: rest)).1
    !! 1%nat
  = Some (SetInputSettings_request (configured_sourceName stored)
                                   (urlBase ++ question_mark :: query))
  /\ String_split question_mark (urlBase ++ question_mark :: query) = [urlBase; query]
  /\ (baseUrl = urlBase \/ exists old, baseUrl = urlBase ++ question_mark :: old)
  /\ Forall (fun c => c ≠ question_mark) urlBase
  /\ spec_parse_query query =
     [(TextEncoder_encode (js "username"), TextEncoder_encode (username data));
      (TextEncoder_encode (js "message"), TextEncoder_encode (message data));
      (TextEncoder_encode (js "color"), TextEncoder_encode (userColor data));
      (TextEncoder_encode (js "timestamp"), TextEncoder_encode (Number_toString now));
      (TextEncoder_encode (js "duration"), TextEncoder_encode (Number_toString duration))]
  /\ (forall WebSocket_accepts w s s' sender requestId comment,
         sockets w !! s = Some OPEN ->
         open_socket w = Some s' ->
         pendingRequests w !! requestId =
           Some (HighlightWaiter (fetch_waiter data stored now) sender) ->
         trace (step WebSocket_accepts w
                     (SocketMessage s (RequestResponse requestId (Some (true, comment))
                                                       currentSettings))) =
         Sent s' (Request (js "SetInputSettings") (request_id (messageRequestId w))
                          (JObj [(js "inputName", JStr (configured_sourceName stored));
                                 (js "inputSettings",
                                  JObj [(js "url",
                                         JStr (urlBase ++ question_mark :: query))])]))
           :: Settle requestId (Fulfilled currentSettings)
           :: Received s (RequestResponse requestId (Some (true, comment)) currentSettings)
           :: trace w).
Proof.
  intros Hurl Hne urlBase duration query.
  split; [|split; [|split; [|split; [|split]]]];
    [| | | | |intros; eapply fetch_answered_with_url; eassumption].
  all: destruct baseUrl as [|c baseUrl]; [contradiction|].
  all: destruct (before_question_mark_spec (c :: baseUrl)) as [Hbefore Hold].
  - rewrite run_highlight_authenticated. cbv zeta. rewrite Hurl.
    destruct rest as [|[?|?] [|[?|?] ?]]; reflexivity.
  - subst urlBase query. rewrite String_split_at by exact Hbefore.
    rewrite String_split_without by apply URLSearchParams_toString_no_question_mark.
    reflexivity.
  - exact Hold.
  - exact Hbefore.
  - subst query. rewrite spec_parse_query_toString. reflexivity.
Qed.

(** ** Runs of the worker on concrete events *)

Definition no_settings : Storage :=
  {| obsUrl := None; obsPassword := None; browserSourceName := None;
     displayDuration := None; stored_autoReconnect := None |}.

Definition accept_all (url : jsstring) : bool := true.

(** Settings with a password. *)
Definition with_password : Storage :=
  {| obsUrl := None; obsPassword := Some (js "supersecretpassword");
     browserSourceName := None; displayDuration := None; stored_autoReconnect := None |}.

(** The challenge and the salt of the example in the protocol of
    obs-websocket. *)
Definition sample_authentication : jsstring * jsstring :=
  (js "+IxH4CnCiqpX1rM9scsNynZzbOe4KhDeYcTNS3PDaeY=",
   js "lM1GncleQOaCu9lT1yeUZhFYnqhsLLP1G5lAGo3ixaI=").

Definition sample_message : MessageData :=
  {| username := js "viewer one"; message := js "hello & welcome?";
     userColor := js "#9147ff"; timestamp := js "12:34"; extractedAt := 1700000000000 |}.

(** What OBS answers to GetInputSettings for a browser source. *)
Definition sample_settings : option JSON :=
  Some (JObj [(js "inputKind", JStr (js "browser_source"));
              (js "inputSettings",
               JObj [(js "url", JStr (js "https://example.org/overlay.html?username=old&x=1"))])]).

(** The user connects, the socket opens, and the server says Hello
    without demanding authentication, then Identified. *)
Definition handshake_events : list HostEvent :=
  [RuntimeMessageArrives 0 CONNECT_OBS; TaskResumes 1; SocketOpens 0;
   SocketMessage 0 (Hello None); TaskResumes 1; SocketMessage 0 Identified].

(** The user highlights a message: the fetch (req_1) goes out. *)
Definition highlight_events : list HostEvent :=
  [RuntimeMessageArrives 1 (HIGHLIGHT_MESSAGE sample_message); TaskResumes 1].

Definition is_pending (requestId : jsstring) (w : World) : bool :=
  match pendingRequests w !! requestId with Some _ => true | None => false end.

(** The resolutions a log shows, newest first. *)
Fixpoint settlements (log : list Action) : list (jsstring * Settled (option JSON)) :=
  match log with
  | [] => []
  | Settle requestId outcome :: earlier => (requestId, outcome) :: settlements earlier
  | _ :: earlier => settlements earlier
  end.

Definition is_SocketClose (a : Action) : bool :=
  match a with SocketClose _ => true | _ => false end.

Example handshake_then_highlight :
  let w := run accept_all (init no_settings 0) (handshake_events ++ highlight_events) in
  isAuthenticated w = true
  /\ is_pending (js "req_1") w = true
  /\ timers w = [{| deadline := 20000; kind := KeepAliveTick 1 |};
                 {| deadline := 10000; kind := RequestTimeout (js "req_1") |}]
  /\ hd_error (trace w) =
     Some (Sent 0 (Request (js "GetInputSettings") (js "req_1")
                           (JObj [(js "inputName", JStr (js "TwitchHighlight"))]))).
Proof. vm_compute. repeat split; reflexivity. Qed.

(** The socket closes under a request in flight: the request is neither
    resolved nor removed by the teardown, and it is the timeout, ten
    seconds after the request was issued, that rejects it. *)
Lemma timeout_resolves_after_teardown :
  let w := run accept_all (init no_settings 0)
               (handshake_events ++ highlight_events ++ [SocketCloses 0]) in
  sockets w = [CLOSED]
  /\ is_pending (js "req_1") w = true
  /\ settlements (trace w) = []
  /\ settlements (trace (run accept_all w [TimePasses 10000; TimerFires 0])) =
     [(js "req_1", Rejected (Error (js "Request timeout")))].
Proof. vm_compute. repeat split; reflexivity. Qed.


(** Two failures in a row with no Identified in between, the second
    after the socket had opened: both reconnects are scheduled after
    2 s.  And with a stale socket closing during the handshake of the
    current one, the counter is 1, not 0, when Identified arrives. *)
Lemma backoff_restarts_at_open :
  let w := run accept_all (init no_settings 0)
               [RuntimeMessageArrives 0 CONNECT_OBS; TaskResumes 1; SocketCloses 0;
                TimePasses 2000; TimerFires 0; TaskResumes 1; SocketOpens 1;
                SocketCloses 1] in
  let w' := run accept_all (init no_settings 0)
                [RuntimeMessageArrives 0 CONNECT_OBS; TaskResumes 1;
                 RuntimeMessageArrives 1 CONNECT_OBS; TaskResumes 1;
                 SocketOpens 1; SocketMessage 1 (Hello None); TaskResumes 1;
                 SocketCloses 0; SocketMessage 1 Identified] in
  (rev (scheduled_delays (trace w)) = [2000; 2000]
   /\ existsb is_Identified_received (trace w) = false)
  /\ (isAuthenticated w' = true /\ reconnectAttempts w' = 1).
Proof. vm_compute. repeat split; reflexivity. Qed.

(** Sixteen failed attempts in a row, each socket closing before it
    opens: the delays grow by 2 s up to the ceiling of 30 s. *)
Fixpoint failed_attempts (n : nat) (w : World) : World :=
  match n with
  | O => w
  | S n' =>
      let w := failed_attempts n' w in
      run accept_all w
          [TimePasses 30000; TimerFires (length (timers w) - 1);
           TaskResumes (length (tasks w)); SocketCloses (length (sockets w))]
  end.

Example backoff_sequence :
  let w := run accept_all (init no_settings 0)
               [RuntimeMessageArrives 0 CONNECT_OBS; TaskResumes 1; SocketCloses 0] in
  rev (scheduled_delays (trace (failed_attempts 15 w))) =
  [2000; 4000; 6000; 8000; 10000; 12000; 14000; 16000; 18000; 20000; 22000; 24000;
   26000; 28000; 30000; 30000].
Proof. vm_compute. reflexivity. Qed.

(** The keepalive resets the counter between failures: a ping is in
    flight when the socket closes; three reconnects fail, after 2 s,
    4 s and 6 s, with no socket opening; then the ping times out, and
    the next failure waits 2 s again. *)
Example backoff_restarts_at_ping_timeout :
  let w := run accept_all (init no_settings 0)
               (handshake_events ++
                [TimePasses 20000; TimerFires 0; SocketCloses 0;
                 TimePasses 2000; TimerFires 1; TaskResumes 1; SocketCloses 1;
                 TimePasses 4000; TimerFires 1; TaskResumes 1; SocketCloses 2;
                 TimePasses 4000; TimerFires 0; TaskResumes 1; SocketCloses 3]) in
  rev (scheduled_delays (trace w)) = [2000; 4000; 6000; 2000]
  /\ sockets w = [CLOSED; CLOSED; CLOSED; CLOSED]
  /\ List.filter is_Settle (trace w) =
     [Settle (js "req_1") (Rejected (Error (js "Request timeout")))].
Proof. vm_compute. repeat split; reflexivity. Qed.

(** Whether an action is a frame received on socket [s]. *)
Definition is_received_on (s : nat) (a : Action) : bool :=
  match a with
  | Received s' _ => Nat.eqb s' s
  | _ => false
  end.

(** The user connects, the socket opens and says [hello], then closes;
    the reconnect runs 2 s later, and its socket opens. *)
Definition hello_then_reconnect (hello : ServerFrame) : list HostEvent :=
  [RuntimeMessageArrives 0 CONNECT_OBS; TaskResumes 1; SocketOpens 0;
   SocketMessage 0 hello; SocketCloses 0;
   TimePasses 2000; TimerFires 0; TaskResumes 2; SocketOpens 1].

(** Two connects in a row, each creating a socket; the first socket
    opens and says Hello, then the second, which the script holds,
    opens. *)
Definition hello_on_the_first_of_two : list HostEvent :=
  [RuntimeMessageArrives 0 CONNECT_OBS; RuntimeMessageArrives 1 CONNECT_OBS;
   TaskResumes 1; TaskResumes 1; SocketOpens 0; SocketMessage 0 (Hello None);
   SocketOpens 1].

(** C5 fails on the code.  The code that a Hello suspends sends its
    Identify, once the reads it awaits have returned, on the socket the
    script holds by then, which need not be the socket the Hello came
    from.  The first socket says Hello and closes, the reconnect opens
    a second socket, and then the read of the storage returns: the
    Identify goes out on the second socket, on which no frame has been
    received.  With a password stored, that Identify carries the
    digest of the challenge and salt of the first connection.  The
    same happens with no close at all when two connects in a row have
    left two sockets live: the Hello of the first is answered on the
    second. *)
Theorem identify_on_a_socket_without_hello :
  let w := run accept_all (init no_settings 0)
               (hello_then_reconnect (Hello None) ++ [TaskResumes 1]) in
  let w' := run accept_all (init with_password 0)
                (hello_then_reconnect (Hello (Some sample_authentication))
                 ++ [TaskResumes 1; TaskResumes 1]) in
  let w'' := run accept_all (init no_settings 0)
                 (hello_on_the_first_of_two ++ [TaskResumes 1]) in
  (sockets w = [CLOSED; OPEN]
   /\ trace w =
      [Sent 1 (Identify 1 None); StatusUpdate true false None;
       SocketCreated 1 OBS_CONFIG_url; ReconnectScheduled 2000;
       StatusUpdate false false (Some (js "Disconnected"));
       Received 0 (Hello None); StatusUpdate true false None;
       SocketCreated 0 OBS_CONFIG_url; Responded 0 Success]
   /\ existsb (is_received_on 1) (trace w) = false)
  /\ (sockets w' = [CLOSED; OPEN]
      /\ hd_error (trace w') =
         Some (Sent 1 (Identify 1 (Some (spec_authResponse
                                           (js "supersecretpassword")
                                           (salt sample_authentication)
                                           (challenge sample_authentication)))))
      /\ List.filter is_Hello_received (trace w') =
         [Received 0 (Hello (Some sample_authentication))]
      /\ existsb (is_received_on 1) (trace w') = false)
  /\ (sockets w'' = [OPEN; OPEN] /\ obsWebSocket w'' = Some 1%nat
      /\ hd_error (trace w'') = Some (Sent 1 (Identify 1 None))
      /\ List.filter is_Hello_received (trace w'') = [Received 0 (Hello None)]
      /\ existsb (is_received_on 1) (trace w'') = false).
Proof. vm_compute. repeat split; reflexivity. Qed.

(** A highlight in the worker, end to end: the fetched URL loses its
    query and gains the payload; then the refresh; then success. *)
Example highlight_in_the_worker :
  let w := run accept_all (init no_settings 1700000000123)
               (handshake_events ++ highlight_events ++
                [SocketMessage 0 (RequestResponse (js "req_1") (Some (true, None))
                                                  sample_settings)]) in
  let w' := run accept_all w
                [SocketMessage 0 (RequestResponse (js "req_2") (Some (true, None)) None);
                 SocketMessage 0 (RequestResponse (js "req_3") (Some (true, None)) None)] in
  hd_error (trace w) =
    Some (Sent 0 (Request (js "SetInputSettings") (js "req_2")
                          (JObj [(js "inputName", JStr (js "TwitchHighlight"));
                                 (js "inputSettings",
                                  JObj [(js "url",
                                         JStr (js "https://example.org/overlay.html?username=viewer+one&message=hello+%26+welcome%3F&color=%239147ff&timestamp=1700000000123&duration=8"))])])))
  /\ hd_error (trace w') = Some (Responded 1 Success)
  /\ map fst (settlements (trace w')) = [js "req_3"; js "req_2"; js "req_1"].
Proof. vm_compute. repeat split; reflexivity. Qed.

(** A highlight in the worker against a browser source without a URL:
    the sender is told which source is missing and no second request
    is issued. *)
Example highlight_without_url_in_the_worker :
  let w := run accept_all (init no_settings 0)
               (handshake_events ++ highlight_events ++
                [SocketMessage 0 (RequestResponse (js "req_1") (Some (true, None))
                                    (Some (JObj [(js "inputSettings", JObj [])])))]) in
  hd_error (trace w) =
    Some (Responded 1 (Failure (source_not_found (js "TwitchHighlight"))))
  /\ messageRequestId w = 2
  /\ is_pending (js "req_2") w = false.
Proof. vm_compute. repeat split; reflexivity. Qed.

(** C8 fails on the code.  A connect that runs while the socket of an
    earlier connect is still connecting creates a second socket and
    closes nothing: after two connect requests in a row, and likewise
    after the popup's save (whose reconnect runs 500 ms later) followed
    by its connect, two sockets are live. *)
Theorem second_connect_keeps_first_socket :
  let twice := run accept_all (init no_settings 0)
                   [RuntimeMessageArrives 0 CONNECT_OBS; TaskResumes 1;
                    RuntimeMessageArrives 1 CONNECT_OBS; TaskResumes 1] in
  let save_and_connect :=
    run accept_all (init no_settings 0)
        [RuntimeMessageArrives 0 (SAVE_SETTINGS no_settings); TaskResumes 1;
         RuntimeMessageArrives 1 CONNECT_OBS; TaskResumes 1;
         TimePasses 500; TimerFires 0; TaskResumes 1] in
  (sockets twice = [CONNECTING; CONNECTING]
   /\ obsWebSocket twice = Some 1%nat
   /\ existsb is_SocketClose (trace twice) = false)
  /\ (sockets save_and_connect = [CONNECTING; CONNECTING]
      /\ obsWebSocket save_and_connect = Some 1%nat
      /\ existsb is_SocketClose (trace save_and_connect) = false).
Proof. vm_compute. repeat split; reflexivity. Qed.

(** ** The claims at concrete inputs *)


(** The worker while its first socket is still connecting. *)
Definition connecting_world : World :=
  run accept_all (init no_settings 0) [RuntimeMessageArrives 0 CONNECT_OBS; TaskResumes 1].

(** Three attempts that fail in a row: each socket closes before it
    opens, and the reconnect runs when its delay has passed. *)
Definition three_failed_attempts : list HostEvent :=
  [SocketCloses 0; TimePasses 2000; TimerFires 0; TaskResumes 1;
   SocketCloses 1; TimePasses 4000; TimerFires 0; TaskResumes 1;
   SocketCloses 2].

Lemma reconnect_backoff_witness :
  Forall (fun c => c ≠ Reset)
         (counter_changes accept_all connecting_world three_failed_attempts)
  /\ reconnectAttempts (run accept_all connecting_world three_failed_attempts) = 3
  /\ scheduled_delays (trace (run accept_all connecting_world three_failed_attempts)) =
     [6000; 4000; 2000].
Proof.
  assert (Hkept : Forall (fun c => c ≠ Reset)
                         (counter_changes accept_all connecting_world three_failed_attempts))
    by (vm_compute; repeat constructor; discriminate).
  destruct (proj1 (proj2 (reconnect_backoff accept_all connecting_world))
              three_failed_attempts Hkept) as [Hn Hd].
  split; [exact Hkept|]. split.
  - rewrite Hn. vm_compute. reflexivity.
  - rewrite Hd. vm_compute. reflexivity.
Defined.

Lemma handshake_never_out_of_order_witness :
  trace (run accept_all (init no_settings 0) handshake_events) =
  [StatusUpdate true true None; KeepAliveStarted 1; Received 0 Identified]
    ++ Sent 0 (Identify 1 None)
    :: [Received 0 (Hello None); StatusUpdate true false None;
        SocketCreated 0 OBS_CONFIG_url; Responded 0 Success]
  /\ exists s' demanded,
      Received s' (Hello demanded)
      ∈ [Received 0 (Hello None); StatusUpdate true false None;
         SocketCreated 0 OBS_CONFIG_url; Responded 0 Success].
Proof.
  assert (Hlog : trace (run accept_all (init no_settings 0) handshake_events) =
                 [StatusUpdate true true None; KeepAliveStarted 1; Received 0 Identified]
                   ++ Sent 0 (Identify 1 None)
                   :: [Received 0 (Hello None); StatusUpdate true false None;
                       SocketCreated 0 OBS_CONFIG_url; Responded 0 Success])
    by (vm_compute; reflexivity).
  split; [exact Hlog|].
  exact (proj1 (handshake_never_out_of_order accept_all no_settings 0 handshake_events
                  _ _ _ Hlog) 0%nat 1 None eq_refl).
Defined.


(** The worker with the fetch of a highlight in flight. *)
Definition fetching_world : World :=
  run accept_all (init no_settings 0) (handshake_events ++ highlight_events).

Lemma highlight_all_or_nothing_witness :
  truthy (fetched_url (Some (JObj []))) = false
  /\ run_proc (sendHighlightToOBS sample_message) true no_settings 5
              [Fulfilled (Some (JObj []))] =
     ([GetInputSettings_request (js "TwitchHighlight")],
      Some (Rejected (Error (source_not_found (js "TwitchHighlight")))))
  /\ sockets fetching_world !! 0%nat = Some OPEN
  /\ pendingRequests fetching_world !! js "req_1" =
     Some (HighlightWaiter (fetch_waiter sample_message no_settings 0) 1)
  /\ hd_error
       (trace (step accept_all fetching_world
                    (SocketMessage 0 (RequestResponse (js "req_1") (Some (true, None))
                                                      (Some (JObj [])))))) =
     Some (Responded 1 (Failure (source_not_found (js "TwitchHighlight")))).
Proof.
  assert (Hopen : sockets fetching_world !! 0%nat = Some OPEN) by (vm_compute; reflexivity).
  assert (Hpending : pendingRequests fetching_world !! js "req_1" =
                     Some (HighlightWaiter (fetch_waiter sample_message no_settings 0) 1))
    by (vm_compute; reflexivity).
  split; [reflexivity|]. split.
  - exact (proj1 (proj1 (highlight_all_or_nothing sample_message no_settings 5)
                        (Some (JObj [])) [] eq_refl)).
  - split; [exact Hopen|]. split; [exact Hpending|].
    rewrite (proj2 (proj2 (proj2 (highlight_all_or_nothing sample_message no_settings 0)))
               accept_all fetching_world 0%nat 1%nat (js "req_1") (Some (JObj [])) None
               Hopen Hpending eq_refl).
    reflexivity.
Defined.

Lemma highlight_when_not_authenticated_witness :
  isAuthenticated (init no_settings 0) = false
  /\ onMessage 7 (HIGHLIGHT_MESSAGE sample_message) (init no_settings 0) =
     respond 7 (Failure (js "Not connected to OBS")) (init no_settings 0).
Proof.
  split; [reflexivity|].
  exact (proj1 (highlight_when_not_authenticated (init no_settings 0) 7 sample_message eq_refl)).
Defined.

Lemma highlight_rewrites_url_witness :
  fetched_url sample_settings =
    Some (JStr (js "https://example.org/overlay.html?username=old&x=1"))
  /\ js "https://example.org/overlay.html?username=old&x=1" ≠ []
  /\ (run_proc (sendHighlightToOBS sample_message) true no_settings 1700000000123
               [Fulfilled sample_settings]).1 !! 1%nat =
     Some (SetInputSettings_request
             (js "TwitchHighlight")
             (js "https://example.org/overlay.html?username=viewer+one&message=hello+%26+welcome%3F&color=%239147ff&timestamp=1700000000123&duration=8"))
  /\ hd_error
       (trace (step accept_all fetching_world
                    (SocketMessage 0 (RequestResponse (js "req_1") (Some (true, None))
                                                      sample_settings)))) =
     Some (Sent 0 (Request (js "SetInputSettings") (js "req_2")
                           (JObj [(js "inputName", JStr (js "TwitchHighlight"));
                                  (js "inputSettings",
                                   JObj [(js "url",
                                          JStr (js "https://example.org/overlay.html?username=viewer+one&message=hello+%26+welcome%3F&color=%239147ff&timestamp=0&duration=8"))])]))).
Proof.
  assert (Hurl : fetched_url sample_settings =
                 Some (JStr (js "https://example.org/overlay.html?username=old&x=1")))
    by (vm_compute; reflexivity).
  assert (Hne : js "https://example.org/overlay.html?username=old&x=1" ≠ [])
    by (vm_compute; discriminate).
  assert (Hopen : sockets fetching_world !! 0%nat = Some OPEN) by (vm_compute; reflexivity).
  assert (Hsocket : open_socket fetching_world = Some 0%nat) by (vm_compute; reflexivity).
  assert (Hpending : pendingRequests fetching_world !! js "req_1" =
                     Some (HighlightWaiter (fetch_waiter sample_message no_settings 0) 1))
    by (vm_compute; reflexivity).
  split; [exact Hurl|]. split; [exact Hne|]. split.
  - rewrite (proj1 (highlight_rewrites_url sample_message no_settings 1700000000123
                      sample_settings _ [] Hurl Hne)).
    vm_compute. reflexivity.
  - rewrite (proj2 (proj2 (proj2 (proj2 (proj2
               (highlight_rewrites_url sample_message no_settings 0
                  sample_settings _ [] Hurl Hne)))))
               accept_all fetching_world 0%nat 0%nat 1%nat (js "req_1") None
               Hopen Hsocket Hpending).
    vm_compute. reflexivity.
Defined.


(** * Further properties of the worker *)

Lemma generateAuthString_fulfils (password salt challenge : jsstring) :
  generateAuthString password salt challenge =
  Fulfilled (spec_authResponse password salt challenge).
Proof.
  unfold generateAuthString, spec_authResponse, spec_secretDigest.
  rewrite sha256Base64_spec. cbn [settled_bind].
  rewrite sha256Base64_spec. cbn [settled_bind]. reflexivity.
Qed.

(** What an explicit disconnect leaves of the rest of the world. *)
Lemma disconnectFromOBS_rest (w : World) :
  obsWebSocket (disconnectFromOBS w) = None
  /\ isAuthenticated (disconnectFromOBS w) = false
  /\ reconnectAttempts (disconnectFromOBS w) = 0
  /\ tasks (disconnectFromOBS w) = tasks w
  /\ storage (disconnectFromOBS w) = storage w
  /\ clock (disconnectFromOBS w) = clock w
  /\ messageRequestId (disconnectFromOBS w) = messageRequestId w
  /\ sockets (disconnectFromOBS w) =
     match obsWebSocket w with
     | Some s =>
         match sockets w !! s with
         | Some CONNECTING | Some OPEN => <[s := CLOSING]> (sockets w)
         | _ => sockets w
         end
     | None => sockets w
     end.
Proof.
  unfold disconnectFromOBS, WebSocket_close, stopKeepAlive. cbv zeta.
  cbn [keepAliveInterval set_reconnectAttempts set_autoReconnect].
  destruct (keepAliveInterval w) as [id|] eqn:Hk;
    cbn [obsWebSocket sockets emit set_trace set_keepAliveInterval set_timers
         set_reconnectAttempts set_autoReconnect];
    destruct (obsWebSocket w) as [s|] eqn:Hs;
    try (destruct (sockets w !! s) as [[]|]);
    cbn; rewrite ?Hs; repeat split; reflexivity.
Qed.

Lemma disconnectFromOBS_timers (w : World) :
  timers (disconnectFromOBS w) = timers (stopKeepAlive w).
Proof. apply (disconnectFromOBS_fields w). Qed.

(** The socket the script held is open no more, and connecting no
    more, once the script has disconnected. *)
Lemma disconnectFromOBS_closes (w : World) (s : nat) :
  obsWebSocket w = Some s ->
  sockets (disconnectFromOBS w) !! s ≠ Some OPEN
  /\ sockets (disconnectFromOBS w) !! s ≠ Some CONNECTING
  /\ length (sockets (disconnectFromOBS w)) = length (sockets w).
Proof.
  intros Hs. destruct (disconnectFromOBS_rest w) as (_ & _ & _ & _ & _ & _ & _ & Hsockets).
  rewrite Hsockets, Hs.
  destruct (sockets w !! s) as [state|] eqn:Hstate.
  - assert (Hlt : (s < length (sockets w))%nat) by (eapply lookup_lt_Some, Hstate).
    destruct state; rewrite ?list_lookup_insert_eq by exact Hlt;
      rewrite ?length_insert, ?Hstate; repeat split; discriminate.
  - rewrite Hstate. repeat split; discriminate.
Qed.

(** ** The keepalive interval *)

Definition is_tick (t : Timer) : bool :=
  match kind t with KeepAliveTick _ => true | _ => false end.

(** The keepalive intervals a world has armed. *)
Definition ticks (w : World) : list TimerKind := map kind (List.filter is_tick (timers w)).

(** The interval the script holds in [keepAliveInterval] is the one
    interval armed, and it is held exactly while the worker is
    authenticated. *)
Record keepAlive_invariant (w : World) : Prop := {
  interval_armed :
    ticks w = match keepAliveInterval w with Some id => [KeepAliveTick id] | None => [] end;
  interval_while_authenticated :
    isAuthenticated w = true <-> is_Some (keepAliveInterval w)
}.

(** [w'] has the interval, the flag and the armed intervals of [w]. *)
Record keeps_ticks (w w' : World) : Prop := {
  same_interval : keepAliveInterval w' = keepAliveInterval w;
  same_authenticated : isAuthenticated w' = isAuthenticated w;
  same_ticks : ticks w' = ticks w
}.

#[global] Instance keeps_ticks_refl : Reflexive keeps_ticks.
Proof. intros w. split; reflexivity. Qed.

#[global] Instance keeps_ticks_trans : Transitive keeps_ticks.
Proof. intros w1 w2 w3 [A1 B1 C1] [A2 B2 C2]. split; congruence. Qed.

Lemma keeps_ticks_invariant (w w' : World) :
  keeps_ticks w w' -> keepAlive_invariant w -> keepAlive_invariant w'.
Proof. intros [A B C] [H1 H2]. split; rewrite ?A, ?B, ?C; assumption. Qed.

Lemma ticks_frame (w w' : World) :
  keepAliveInterval w' = keepAliveInterval w -> isAuthenticated w' = isAuthenticated w ->
  timers w' = timers w -> keeps_ticks w w'.
Proof. intros A B C. split; [exact A|exact B|]. unfold ticks. rewrite C. reflexivity. Qed.

Lemma ticks_setTimeout (k : TimerKind) (delay : N) (w : World) :
  (forall id, k ≠ KeepAliveTick id) -> keeps_ticks w (setTimeout k delay w).
Proof.
  intros Hk. split; try reflexivity. unfold ticks, setTimeout. cbn [timers set_timers].
  rewrite List.filter_app. cbn [List.filter]. unfold is_tick at 2. cbn [kind].
  destruct k; try (rewrite app_nil_r; reflexivity). destruct (Hk id eq_refl).
Qed.

Create HintDb ticks discriminated.
#[global] Hint Constants Opaque : ticks.

Ltac ticks_leaf :=
  idtac;
  lazymatch goal with
  | |- keeps_ticks _ (emit _ _) => apply ticks_frame; reflexivity
  | |- keeps_ticks _ (suspend _ _) => apply ticks_frame; reflexivity
  | |- keeps_ticks _ (set_tasks _ _) => apply ticks_frame; reflexivity
  | |- keeps_ticks _ (set_pendingRequests _ _) => apply ticks_frame; reflexivity
  | |- keeps_ticks _ (set_messageRequestId _ _) => apply ticks_frame; reflexivity
  | |- keeps_ticks _ (setTimeout _ _ _) => apply ticks_setTimeout; discriminate
  | |- keeps_ticks _ (set_isAuthenticated _ _) => fail
  | |- keeps_ticks _ (set_keepAliveInterval _ _) => fail
  | |- keeps_ticks _ (?f _) =>
      first [ is_plain_update f; apply ticks_frame; reflexivity | eauto with ticks ]
  end.

Ltac ticks_chain := chain ticks_leaf.

Lemma ticks_broadcastStatus error w : keeps_ticks w (broadcastStatus error w).
Proof. apply ticks_frame; reflexivity. Qed.

Lemma ticks_respond sender r w : keeps_ticks w (respond sender r w).
Proof. apply ticks_frame; reflexivity. Qed.

Lemma ticks_sendRequest requestType requestData waiter w :
  keeps_ticks w (sendRequest requestType requestData waiter w).2.
Proof.
  unfold sendRequest, sendToOBS. cbv zeta.
  destruct (open_socket _); cbn [snd]; ticks_chain.
Qed.

Lemma ticks_connectToOBS userInitiated w : keeps_ticks w (connectToOBS userInitiated w).
Proof. unfold connectToOBS. ticks_chain. Qed.

Lemma ticks_connectToOBS_resume accepts stored w :
  keeps_ticks w (connectToOBS_resume accepts stored w).
Proof. unfold connectToOBS_resume, broadcastStatus. ticks_chain. Qed.

#[global] Hint Resolve ticks_broadcastStatus ticks_respond ticks_connectToOBS
  ticks_connectToOBS_resume : ticks.

Lemma ticks_exec p sender w : keeps_ticks w (exec p sender w).
Proof.
  revert w. induction p as [r|e|k IH|k IH|k IH|t d k IH]; intros w; cbn [exec].
  - apply ticks_respond.
  - apply ticks_respond.
  - apply IH.
  - apply ticks_frame; reflexivity.
  - apply IH.
  - pose proof (ticks_sendRequest t d (HighlightWaiter k sender) w) as Hsr.
    destruct (sendRequest t d (HighlightWaiter k sender) w) as [[error|] w']; cbn [snd] in Hsr.
    + transitivity w'; [exact Hsr | apply IH].
    + exact Hsr.
Qed.

Lemma ticks_keepAlive_failed w : keeps_ticks w (keepAlive_failed w).
Proof. unfold keepAlive_failed. ticks_chain. Qed.

#[global] Hint Resolve ticks_exec ticks_keepAlive_failed : ticks.

Lemma ticks_resume_waiter waiter outcome w : keeps_ticks w (resume_waiter waiter outcome w).
Proof. unfold resume_waiter. ticks_chain. Qed.

#[global] Hint Resolve ticks_resume_waiter : ticks.

Lemma ticks_settle requestId waiter outcome w :
  keeps_ticks w (settle requestId waiter outcome w).
Proof. unfold settle. ticks_chain. Qed.

#[global] Hint Resolve ticks_settle : ticks.

Lemma ticks_request_timeout requestId w : keeps_ticks w (request_timeout requestId w).
Proof. unfold request_timeout. ticks_chain. Qed.

Lemma ticks_handleRequestResponse requestId requestStatus responseData w :
  keeps_ticks w (handleRequestResponse requestId requestStatus responseData w).
Proof. unfold handleRequestResponse. ticks_chain. Qed.

Lemma ticks_onopen w : keeps_ticks w (onopen w).
Proof. unfold onopen. ticks_chain. Qed.

Lemma ticks_onerror w : keeps_ticks w (onerror w).
Proof. unfold onerror. ticks_chain. Qed.

#[global] Hint Resolve ticks_request_timeout ticks_handleRequestResponse ticks_onopen
  ticks_onerror : ticks.

Lemma ticks_keepAlive_tick w : keeps_ticks w (keepAlive_tick w).
Proof.
  unfold keepAlive_tick.
  pose proof (ticks_sendRequest (js "GetVersion") (JObj []) KeepAlivePing w) as Hsr.
  destruct (sendRequest _ _ _ w) as [[error|] w']; cbn [snd] in Hsr.
  - destruct (_ && _); [transitivity w'; [exact Hsr|apply ticks_keepAlive_failed]|].
    ticks_chain.
  - destruct (_ && _); [exact Hsr|]. ticks_chain.
Qed.

Lemma ticks_handleHello_resume authentication stored w :
  keeps_ticks w (handleHello_resume authentication stored w).
Proof.
  unfold handleHello_resume, sendToOBS. cbv zeta.
  destruct authentication; [ticks_chain|].
  destruct (open_socket w); cbn [snd]; ticks_chain.
Qed.

(** What stopping the keepalive leaves. *)
Lemma no_ticks_left (id : nat) (ts : list Timer) :
  map kind (List.filter is_tick ts) = [KeepAliveTick id] ->
  List.filter is_tick (filter (fun t => kind t ≠ KeepAliveTick id) ts) = [].
Proof.
  intros Hone.
  assert (Hall : forall t, In t ts -> is_tick t = true -> kind t = KeepAliveTick id).
  { intros t Hin Ht.
    assert (Hk : In (kind t) (map kind (List.filter is_tick ts)))
      by (apply in_map, filter_In; auto).
    rewrite Hone in Hk. destruct Hk as [Hk|[]]. congruence. }
  clear Hone. induction ts as [|t ts IH]; [reflexivity|].
  rewrite filter_cons. destruct (decide (kind t ≠ KeepAliveTick id)) as [Hne|Heq].
  - cbn [List.filter]. destruct (is_tick t) eqn:Ht.
    + destruct Hne. apply Hall; [left; reflexivity|exact Ht].
    + apply IH. intros t' Hin. apply Hall. right. exact Hin.
  - apply IH. intros t' Hin. apply Hall. right. exact Hin.
Qed.

Lemma stopKeepAlive_stops (w : World) :
  ticks w = match keepAliveInterval w with Some id => [KeepAliveTick id] | None => [] end ->
  keepAliveInterval (stopKeepAlive w) = None
  /\ ticks (stopKeepAlive w) = []
  /\ isAuthenticated (stopKeepAlive w) = isAuthenticated w.
Proof.
  intros Harmed. unfold stopKeepAlive.
  destruct (keepAliveInterval w) as [id|] eqn:Hk; [|rewrite Hk; auto].
  split; [reflexivity|]. split; [|reflexivity].
  unfold ticks in *. cbn [timers emit set_trace set_keepAliveInterval set_timers].
  rewrite no_ticks_left; [reflexivity|exact Harmed].
Qed.

(** A world with no interval, that is not authenticated. *)
Lemma keepAlive_invariant_stopped (w : World) :
  keepAliveInterval w = None -> ticks w = [] -> isAuthenticated w = false ->
  keepAlive_invariant w.
Proof.
  intros Hk Ht Ha. split; rewrite Hk; [exact Ht|]. rewrite Ha. split; [discriminate|].
  intros [x Hx]. discriminate.
Qed.

Lemma ticks_of_timers (w w' : World) : timers w' = timers w -> ticks w' = ticks w.
Proof. intros H. unfold ticks. rewrite H. reflexivity. Qed.

Lemma ticks_snoc (w w' : World) (t : Timer) :
  timers w' = timers w ++ [t] ->
  ticks w' = ticks w ++ (if is_tick t then [kind t] else []).
Proof.
  intros H. unfold ticks. rewrite H, List.filter_app, map_app. cbn [List.filter].
  destruct (is_tick t); reflexivity.
Qed.

Lemma isAuthenticated_onclose (w : World) : isAuthenticated (onclose w) = false.
Proof.
  unfold onclose, stopKeepAlive. cbv zeta.
  cbn [keepAliveInterval set_obsWebSocket set_isAuthenticated set_isConnected].
  destruct (keepAliveInterval w) as [id|] eqn:Hk; destruct (isConnected w);
    destruct (autoReconnect w) eqn:Ha; cbn -[reconnect_delay]; rewrite ?Hk, ?Ha;
    reflexivity.
Qed.

Lemma isAuthenticated_disconnectFromOBS (w : World) :
  isAuthenticated (disconnectFromOBS w) = false.
Proof. reflexivity. Qed.

Lemma keepAlive_onclose (w : World) :
  keepAlive_invariant w -> keepAlive_invariant (onclose w).
Proof.
  intros [Harmed _].
  destruct (onclose_fields w) as (_ & Hk & _ & Ht & _).
  destruct (stopKeepAlive_stops w Harmed) as (_ & Hnone & _).
  apply keepAlive_invariant_stopped; [exact Hk| |apply isAuthenticated_onclose].
  destruct (autoReconnect w).
  - rewrite (ticks_snoc (stopKeepAlive w) _ _ Ht), Hnone. reflexivity.
  - rewrite app_nil_r in Ht. rewrite (ticks_of_timers _ _ Ht). exact Hnone.
Qed.

Lemma keepAlive_disconnectFromOBS (w : World) :
  keepAlive_invariant w -> keepAlive_invariant (disconnectFromOBS w).
Proof.
  intros [Harmed _].
  destruct (disconnectFromOBS_fields w) as (_ & _ & _ & Hk & Ht & _).
  destruct (stopKeepAlive_stops w Harmed) as (_ & Hnone & _).
  apply keepAlive_invariant_stopped; [exact Hk| |reflexivity].
  rewrite (ticks_of_timers _ _ Ht). exact Hnone.
Qed.

Lemma startKeepAlive_fields (w : World) :
  keepAliveInterval (startKeepAlive w) = Some (next_timer w)
  /\ isAuthenticated (startKeepAlive w) = isAuthenticated w
  /\ timers (startKeepAlive w) =
     timers (stopKeepAlive w) ++
       [{| deadline := clock w + 20000; kind := KeepAliveTick (next_timer w) |}].
Proof.
  unfold startKeepAlive, stopKeepAlive, setTimeout. cbv zeta.
  destruct (keepAliveInterval w); repeat split; reflexivity.
Qed.

Lemma keepAlive_Identified (s : nat) (w : World) :
  keepAlive_invariant w -> keepAlive_invariant (handleOBSMessage s Identified w).
Proof.
  intros [Harmed _]. cbn [handleOBSMessage].
  eapply keeps_ticks_invariant; [apply ticks_broadcastStatus|].
  set (w1 := set_isAuthenticated true (emit (Received s Identified) w)).
  destruct (startKeepAlive_fields w1) as (Hk & Ha & Ht).
  destruct (stopKeepAlive_stops w1 Harmed) as (_ & Hnone & _).
  split; rewrite Hk.
  - rewrite (ticks_snoc (stopKeepAlive w1) _ _ Ht), Hnone. reflexivity.
  - rewrite Ha. split; [eauto|reflexivity].
Qed.

(** Removing a timer from the list removes its interval, if it is one. *)
Lemma filter_delete_other (ts : list Timer) (i : nat) (t : Timer) :
  ts !! i = Some t -> is_tick t = false ->
  List.filter is_tick (delete i ts) = List.filter is_tick ts.
Proof.
  revert i. induction ts as [|a ts IH]; intros [|i] Hi Ht; try discriminate.
  - injection Hi as ->. cbn [delete list_delete List.filter]. rewrite Ht. reflexivity.
  - cbn in Hi. change (delete (S i) (a :: ts)) with (a :: delete i ts).
    cbn [List.filter]. rewrite (IH i Hi Ht). reflexivity.
Qed.

Lemma filter_delete_only (ts : list Timer) (i : nat) (t : Timer) (k : TimerKind) :
  ts !! i = Some t -> is_tick t = true ->
  map kind (List.filter is_tick ts) = [k] ->
  List.filter is_tick (delete i ts) = [] /\ kind t = k.
Proof.
  revert i. induction ts as [|a ts IH]; intros [|i] Hi Ht Hone; try discriminate.
  - injection Hi as ->. cbn [delete list_delete]. cbn [List.filter] in Hone.
    rewrite Ht in Hone. injection Hone as Hk Hrest. split; [|exact Hk].
    destruct (List.filter is_tick ts); [reflexivity|discriminate].
  - cbn in Hi. change (delete (S i) (a :: ts)) with (a :: delete i ts).
    cbn [List.filter]. cbn [List.filter] in Hone. destruct (is_tick a) eqn:Ha.
    + injection Hone as _ Hrest. exfalso.
      assert (Hin : In t (List.filter is_tick ts)).
      { apply filter_In. split; [|exact Ht]. apply list_elem_of_In.
        eapply list_elem_of_lookup_2, Hi. }
      destruct (List.filter is_tick ts); [destruct Hin|discriminate].
    + apply (IH i Hi Ht Hone).
Qed.

Lemma keepAlive_fire (w : World) (i : nat) (t : Timer) :
  timers w !! i = Some t ->
  keepAlive_invariant w ->
  keepAlive_invariant (fire t (set_timers (delete i (timers w)) w)).
Proof.
  intros Hi [Harmed Hauth]. unfold fire.
  destruct (kind t) as [requestId| | |id] eqn:Hk.
  - eapply keeps_ticks_invariant; [apply ticks_request_timeout|].
    split; [|exact Hauth]. unfold ticks. cbn [timers set_timers keepAliveInterval].
    rewrite (filter_delete_other _ _ _ Hi); [exact Harmed|]. unfold is_tick. rewrite Hk. reflexivity.
  - eapply keeps_ticks_invariant; [apply ticks_connectToOBS|].
    split; [|exact Hauth]. unfold ticks. cbn [timers set_timers keepAliveInterval].
    rewrite (filter_delete_other _ _ _ Hi); [exact Harmed|]. unfold is_tick. rewrite Hk. reflexivity.
  - eapply keeps_ticks_invariant; [apply ticks_connectToOBS|].
    split; [|exact Hauth]. unfold ticks. cbn [timers set_timers keepAliveInterval].
    rewrite (filter_delete_other _ _ _ Hi); [exact Harmed|]. unfold is_tick. rewrite Hk. reflexivity.
  - eapply keeps_ticks_invariant; [apply ticks_keepAlive_tick|].
    assert (Ht : is_tick t = true) by (unfold is_tick; rewrite Hk; reflexivity).
    assert (Hin : In (kind t) (ticks w)).
    { unfold ticks. apply in_map, filter_In. split; [|exact Ht].
      apply list_elem_of_In. eapply list_elem_of_lookup_2, Hi. }
    rewrite Harmed in Hin.
    destruct (keepAliveInterval w) as [id'|] eqn:Hint; [|destruct Hin].
    destruct (filter_delete_only _ _ _ _ Hi Ht Harmed) as [Hnone Hsame].
    split.
    + unfold ticks, setTimeout. cbn [timers set_timers keepAliveInterval].
      rewrite Hint, List.filter_app, Hnone. cbn. congruence.
    + cbn [isAuthenticated keepAliveInterval setTimeout set_timers]. rewrite Hint.
      exact Hauth.
Qed.

Section KeepAlive.

Variable WebSocket_accepts : jsstring -> bool.

Lemma keepAlive_resume (t : Task) (w : World) :
  keepAlive_invariant w -> keepAlive_invariant (resume WebSocket_accepts t w).
Proof.
  intros Hinv. destruct t; cbn [resume];
    try solve [eapply keeps_ticks_invariant; [|exact Hinv]; ticks_chain].
  - eapply keeps_ticks_invariant; [apply ticks_handleHello_resume|exact Hinv].
  - eapply keeps_ticks_invariant; [|exact Hinv].
    unfold sendToOBS. destruct (open_socket w); cbn [snd]; ticks_chain.
  - cbv zeta. eapply keeps_ticks_invariant; [apply ticks_setTimeout; discriminate|].
    apply keepAlive_disconnectFromOBS.
    eapply keeps_ticks_invariant; [apply ticks_respond|exact Hinv].
Qed.

Lemma keepAlive_step (w : World) (e : HostEvent) :
  keepAlive_invariant w -> keepAlive_invariant (step WebSocket_accepts w e).
Proof.
  intros Hinv. destruct e; cbn [step].
  - eapply keeps_ticks_invariant; [|exact Hinv]. ticks_chain.
  - destruct (sockets w !! socket) as [[]|]; try exact Hinv.
    destruct frame; cbn [handleOBSMessage]; unfold handleHello; try exact Hinv;
      try solve [eapply keeps_ticks_invariant; [|exact Hinv]; ticks_chain].
    apply (keepAlive_Identified socket w Hinv).
  - eapply keeps_ticks_invariant; [|exact Hinv]. ticks_chain.
  - destruct (sockets w !! socket) as [[]|]; try exact Hinv;
      apply keepAlive_onclose;
      (eapply keeps_ticks_invariant; [|exact Hinv]); apply ticks_frame; reflexivity.
  - destruct (timers w !! index) as [t|] eqn:Hi; [|exact Hinv].
    destruct (deadline t <=? clock w); [|exact Hinv].
    apply keepAlive_fire; assumption.
  - destruct (tasks w !! index) as [t|]; [|exact Hinv].
    apply keepAlive_resume.
    eapply keeps_ticks_invariant; [|exact Hinv]. apply ticks_frame; reflexivity.
  - destruct m; cbn [onMessage]; try exact Hinv;
      try solve [eapply keeps_ticks_invariant; [|exact Hinv]; ticks_chain].
    cbv zeta. eapply keeps_ticks_invariant; [apply ticks_respond|].
    apply keepAlive_disconnectFromOBS.
    eapply keeps_ticks_invariant; [|exact Hinv]. apply ticks_frame; reflexivity.
  - eapply keeps_ticks_invariant; [|exact Hinv]. apply ticks_frame; reflexivity.
Qed.

Lemma keepAlive_run (events : list HostEvent) (w : World) :
  keepAlive_invariant w -> keepAlive_invariant (run WebSocket_accepts w events).
Proof.
  revert w. induction events as [|e events IH]; intros w Hinv; [exact Hinv|].
  apply IH, keepAlive_step, Hinv.
Qed.

(** X2. Whatever the host does, the script holds a keepalive interval
    exactly while it is authenticated, and the intervals armed are that
    one and no other. *)
Theorem one_keepAlive_while_authenticated (stored : Storage) (now : N)
        (events : list HostEvent) :
  let w := run WebSocket_accepts (init stored now) events in
  (isAuthenticated w = true <-> is_Some (keepAliveInterval w))
  /\ map kind (List.filter is_tick (timers w)) =
     match keepAliveInterval w with Some id => [KeepAliveTick id] | None => [] end.
Proof.
  intros w.
  assert (Hinv : keepAlive_invariant w).
  { apply keepAlive_run. apply keepAlive_invariant_stopped; reflexivity. }
  destruct Hinv as [Harmed Hauth]. split; [exact Hauth|exact Harmed].
Qed.

End KeepAlive.

(** ** Correlation ids on the wire *)

(** The correlation ids of the requests a log shows sent, newest first. *)
Fixpoint sent_ids (log : list Action) : list jsstring :=
  match log with
  | [] => []
  | Sent _ (Request _ requestId _) :: earlier => requestId :: sent_ids earlier
  | _ :: earlier => sent_ids earlier
  end.

(** Numbers that decrease strictly, all below [bound]. *)
Fixpoint decreasing_below (bound : N) (ns : list N) : Prop :=
  match ns with
  | [] => True
  | n :: rest => n < bound /\ decreasing_below n rest
  end.

Lemma decreasing_below_mono (b b' : N) (ns : list N) :
  b <= b' -> decreasing_below b ns -> decreasing_below b' ns.
Proof. destruct ns as [|n rest]; [auto|]. intros Hle [Hn Hrest]. split; [lia|exact Hrest]. Qed.

Lemma decreasing_below_app (lo hi : N) (newer older : list N) :
  lo <= hi -> decreasing_below hi newer -> Forall (fun n => lo <= n) newer ->
  decreasing_below lo older -> decreasing_below hi (newer ++ older).
Proof.
  revert hi. induction newer as [|n newer IH]; intros hi Hle Hnew Hlo Hold.
  - eapply decreasing_below_mono; eassumption.
  - destruct Hnew as [Hn Hnew]. apply Forall_cons in Hlo as [Hlon Hlo].
    split; [exact Hn|]. apply IH; assumption.
Qed.

Lemma decreasing_below_bound (b : N) (ns : list N) :
  decreasing_below b ns -> Forall (fun n => n < b) ns.
Proof.
  revert b. induction ns as [|n ns IH]; intros b; [constructor|].
  intros [Hn Hrest]. constructor; [exact Hn|].
  eapply Forall_impl; [apply IH, Hrest|]. cbn. intros m Hm. lia.
Qed.

Lemma decreasing_below_NoDup (b : N) (ns : list N) : decreasing_below b ns -> NoDup ns.
Proof.
  revert b. induction ns as [|n ns IH]; intros b; [constructor|].
  intros [Hn Hrest]. constructor; [|eapply IH, Hrest].
  intros Hin. apply decreasing_below_bound in Hrest.
  rewrite Forall_forall in Hrest. specialize (Hrest n Hin). lia.
Qed.

(** Suspended code that will send a frame sends an Identify. *)
Definition identifies (t : Task) : Prop :=
  match t with
  | HelloAfterDigest (Request _ _ _) => False
  | _ => True
  end.

(** From [w] to [w'] the counter did not go back, and the requests
    sent in between carry numbers from the counter of [w] up to, not
    including, that of [w'], in increasing order. *)
Definition sends (w w' : World) : Prop :=
  messageRequestId w <= messageRequestId w'
  /\ (exists ns,
         sent_ids (trace w') = map request_id ns ++ sent_ids (trace w)
         /\ decreasing_below (messageRequestId w') ns
         /\ Forall (fun n => messageRequestId w <= n) ns)
  /\ (Forall identifies (tasks w) -> Forall identifies (tasks w')).

#[global] Instance sends_refl : Reflexive sends.
Proof. intros w. split; [lia|]. split; [|auto]. exists []. repeat split; constructor. Qed.

#[global] Instance sends_trans : Transitive sends.
Proof.
  intros w1 w2 w3 (L1 & (n1 & E1 & D1 & F1) & T1) (L2 & (n2 & E2 & D2 & F2) & T2).
  split; [lia|]. split; [|auto].
  exists (n2 ++ n1). split; [rewrite E2, E1, map_app, app_assoc; reflexivity|]. split.
  - eapply decreasing_below_app; eassumption.
  - apply Forall_app. split; [|exact F1].
    eapply Forall_impl; [exact F2|]. cbn. intros m Hm. lia.
Qed.

Lemma sends_frame (w w' : World) :
  trace w' = trace w -> messageRequestId w' = messageRequestId w -> tasks w' = tasks w ->
  sends w w'.
Proof.
  intros Ht Hc Hk. split; [lia|]. split; [|rewrite Hk; auto].
  exists []. rewrite Ht. repeat split; constructor.
Qed.

Lemma sends_suspend (t : Task) (w : World) : identifies t -> sends w (suspend t w).
Proof.
  intros Ht. split; [cbn; lia|]. split.
  - exists []. repeat split; constructor.
  - intros H. cbn. apply Forall_app. split; [exact H|]. constructor; [exact Ht|constructor].
Qed.

Definition is_Request_sent (a : Action) : bool :=
  match a with Sent _ (Request _ _ _) => true | _ => false end.

Lemma sends_emit (a : Action) (w : World) : is_Request_sent a = false -> sends w (emit a w).
Proof.
  intros Ha. split; [cbn; lia|]. split; [|auto]. exists []. split; [|split; constructor].
  destruct a as [| | |? []| | | | | |]; try discriminate; reflexivity.
Qed.

Create HintDb sends discriminated.
#[global] Hint Constants Opaque : sends.

Ltac sends_leaf :=
  idtac;
  lazymatch goal with
  | |- sends _ (emit _ _) => apply sends_emit; reflexivity
  | |- sends _ (suspend _ _) => apply sends_suspend; exact I
  | |- sends _ (set_tasks _ _) => fail
  | |- sends _ (setTimeout _ _ _) => apply sends_frame; reflexivity
  | |- sends _ (set_timers _ _) => apply sends_frame; reflexivity
  | |- sends _ (set_pendingRequests _ _) => apply sends_frame; reflexivity
  | |- sends _ (?f _) =>
      first [ is_plain_update f; apply sends_frame; reflexivity | eauto with sends ]
  end.

Ltac sends_chain := chain sends_leaf.

Lemma sends_broadcastStatus error w : sends w (broadcastStatus error w).
Proof. apply sends_emit. reflexivity. Qed.

Lemma sends_respond sender r w : sends w (respond sender r w).
Proof. apply sends_emit. reflexivity. Qed.

(** A request takes the number of the counter and moves the counter on. *)
Lemma sends_sendRequest requestType requestData waiter w :
  sends w (sendRequest requestType requestData waiter w).2.
Proof.
  unfold sendRequest, sendToOBS, setTimeout. cbv zeta.
  change (open_socket (set_timers _ _)) with (open_socket w).
  destruct (open_socket w) as [s|]; cbn [snd].
  - split; [cbn; lia|]. split; [|auto].
    exists [messageRequestId w]. split; [reflexivity|]. split.
    + cbn. split; [lia|exact I].
    + constructor; [lia|constructor].
  - split; [cbn; lia|]. split; [|auto]. exists []. repeat split; constructor.
Qed.

Lemma sends_connectToOBS userInitiated w : sends w (connectToOBS userInitiated w).
Proof. unfold connectToOBS. sends_chain. Qed.

Lemma sends_connectToOBS_resume accepts stored w :
  sends w (connectToOBS_resume accepts stored w).
Proof. unfold connectToOBS_resume, broadcastStatus. sends_chain. Qed.

Lemma sends_stopKeepAlive w : sends w (stopKeepAlive w).
Proof. unfold stopKeepAlive. sends_chain. Qed.

#[global] Hint Resolve sends_broadcastStatus sends_respond sends_connectToOBS
  sends_connectToOBS_resume sends_stopKeepAlive : sends.

Lemma sends_exec p sender w : sends w (exec p sender w).
Proof.
  revert w. induction p as [r|e|k IH|k IH|k IH|t d k IH]; intros w; cbn [exec].
  - apply sends_respond.
  - apply sends_respond.
  - apply IH.
  - apply sends_suspend. exact I.
  - apply IH.
  - pose proof (sends_sendRequest t d (HighlightWaiter k sender) w) as Hsr.
    destruct (sendRequest t d (HighlightWaiter k sender) w) as [[error|] w']; cbn [snd] in Hsr.
    + transitivity w'; [exact Hsr | apply IH].
    + exact Hsr.
Qed.

Lemma sends_keepAlive_failed w : sends w (keepAlive_failed w).
Proof. unfold keepAlive_failed. sends_chain. Qed.

#[global] Hint Resolve sends_exec sends_keepAlive_failed : sends.

Lemma sends_resume_waiter waiter outcome w : sends w (resume_waiter waiter outcome w).
Proof. unfold resume_waiter. sends_chain. Qed.

#[global] Hint Resolve sends_resume_waiter : sends.

Lemma sends_settle requestId waiter outcome w : sends w (settle requestId waiter outcome w).
Proof. unfold settle. sends_chain. Qed.

#[global] Hint Resolve sends_settle : sends.

Lemma sends_request_timeout requestId w : sends w (request_timeout requestId w).
Proof. unfold request_timeout. sends_chain. Qed.

Lemma sends_handleRequestResponse requestId requestStatus responseData w :
  sends w (handleRequestResponse requestId requestStatus responseData w).
Proof. unfold handleRequestResponse. sends_chain. Qed.

Lemma sends_startKeepAlive w : sends w (startKeepAlive w).
Proof. unfold startKeepAlive. sends_chain. Qed.

Lemma sends_onopen w : sends w (onopen w).
Proof. unfold onopen. sends_chain. Qed.

Lemma sends_onerror w : sends w (onerror w).
Proof. unfold onerror. sends_chain. Qed.

Lemma sends_onclose w : sends w (onclose w).
Proof. unfold onclose. sends_chain. Qed.

Lemma sends_WebSocket_close s w : sends w (WebSocket_close s w).
Proof. unfold WebSocket_close. sends_chain. Qed.

#[global] Hint Resolve sends_request_timeout sends_handleRequestResponse sends_startKeepAlive
  sends_onopen sends_onerror sends_onclose sends_WebSocket_close : sends.

Lemma sends_disconnectFromOBS w : sends w (disconnectFromOBS w).
Proof. unfold disconnectFromOBS. sends_chain. Qed.

Lemma sends_keepAlive_tick w : sends w (keepAlive_tick w).
Proof.
  unfold keepAlive_tick.
  pose proof (sends_sendRequest (js "GetVersion") (JObj []) KeepAlivePing w) as Hsr.
  destruct (sendRequest _ _ _ w) as [[error|] w']; cbn [snd] in Hsr.
  - destruct (_ && _); [transitivity w'; [exact Hsr|apply sends_keepAlive_failed]|].
    sends_chain.
  - destruct (_ && _); [exact Hsr|]. sends_chain.
Qed.

#[global] Hint Resolve sends_disconnectFromOBS sends_keepAlive_tick : sends.

Lemma sends_onMessage sender m w : sends w (onMessage sender m w).
Proof. unfold onMessage. destruct m; sends_chain. Qed.

Lemma sends_fire t w : sends w (fire t w).
Proof. unfold fire. destruct (kind t); sends_chain. Qed.

Lemma sends_handleOBSMessage s frame w : sends w (handleOBSMessage s frame w).
Proof. destruct frame; cbn [handleOBSMessage]; unfold handleHello; sends_chain. Qed.

Lemma sends_Identify (frame : ClientFrame) (w : World) :
  (forall requestType requestId requestData,
      frame ≠ Request requestType requestId requestData) ->
  sends w (sendToOBS frame w).2.
Proof.
  intros Hframe. unfold sendToOBS. destruct (open_socket w); cbn [snd]; [|reflexivity].
  apply sends_emit. destruct frame; [reflexivity|]. destruct (Hframe _ _ _ eq_refl).
Qed.

Lemma sends_handleHello_resume authentication stored w :
  sends w (handleHello_resume authentication stored w).
Proof.
  unfold handleHello_resume. cbv zeta.
  destruct authentication; [sends_chain|]. apply sends_Identify. discriminate.
Qed.

Lemma sends_delete_task (i : nat) (w : World) : sends w (set_tasks (delete i (tasks w)) w).
Proof.
  split; [cbn; lia|]. split; [exists []; repeat split; constructor|].
  cbn. intros H. apply Forall_forall. intros t Hin. rewrite Forall_forall in H.
  apply H. eapply list_elem_of_delete_inv, Hin.
Qed.

Section Sends.

Variable WebSocket_accepts : jsstring -> bool.

Lemma sends_resume (t : Task) (w : World) :
  identifies t -> sends w (resume WebSocket_accepts t w).
Proof.
  intros Ht. destruct t; cbn [resume]; try solve [sends_chain].
  - apply sends_handleHello_resume.
  - apply sends_Identify. intros ? ? ? ->. exact Ht.
Qed.

(** What a step keeps: the counter is at least 1, the ids sent so far
    are numbered from 1 on, below the counter, in increasing order, and
    the suspended code identifies. *)
Record sends_invariant (w : World) : Prop := {
  counter_positive : 1 <= messageRequestId w;
  sent_numbered : exists ns,
      sent_ids (trace w) = map request_id ns
      /\ decreasing_below (messageRequestId w) ns
      /\ Forall (fun n => 1 <= n) ns;
  tasks_identify : Forall identifies (tasks w)
}.

Lemma sends_keeps (w w' : World) : sends w w' -> sends_invariant w -> sends_invariant w'.
Proof.
  intros (L & (new & E & D & F) & T) [Hpos (ns & Hs & Hd & Hf) Ht].
  split; [lia| |auto].
  exists (new ++ ns). split; [rewrite E, Hs, map_app; reflexivity|]. split.
  - eapply decreasing_below_app; eassumption.
  - apply Forall_app. split; [|exact Hf].
    eapply Forall_impl; [exact F|]. cbn. intros m Hm. lia.
Qed.

Lemma sends_step (w : World) (e : HostEvent) :
  sends_invariant w -> sends_invariant (step WebSocket_accepts w e).
Proof.
  intros Hinv. destruct e; cbn [step].
  - eapply sends_keeps; [|exact Hinv]. sends_chain.
  - destruct (sockets w !! socket) as [[]|]; try exact Hinv.
    eapply sends_keeps; [apply sends_handleOBSMessage|exact Hinv].
  - eapply sends_keeps; [|exact Hinv]. sends_chain.
  - eapply sends_keeps; [|exact Hinv]. sends_chain.
  - destruct (timers w !! index) as [t|]; [|exact Hinv].
    destruct (deadline t <=? clock w); [|exact Hinv].
    eapply sends_keeps; [|exact Hinv].
    transitivity (set_timers (delete index (timers w)) w);
      [apply sends_frame; reflexivity | apply sends_fire].
  - destruct (tasks w !! index) as [t|] eqn:Ht; [|exact Hinv].
    eapply sends_keeps; [|exact Hinv].
    transitivity (set_tasks (delete index (tasks w)) w); [apply sends_delete_task|].
    apply sends_resume.
    destruct Hinv as [_ _ Hall]. rewrite Forall_forall in Hall. apply Hall.
    eapply list_elem_of_lookup_2, Ht.
  - eapply sends_keeps; [apply sends_onMessage|exact Hinv].
  - eapply sends_keeps; [|exact Hinv]. apply sends_frame; reflexivity.
Qed.

Lemma sends_run (events : list HostEvent) (w : World) :
  sends_invariant w -> sends_invariant (run WebSocket_accepts w events).
Proof.
  revert w. induction events as [|e events IH]; intros w Hinv; [exact Hinv|].
  apply IH, sends_step, Hinv.
Qed.

(** X6. Whatever the host does, the requests sent carry the correlation
    ids [req_n] for numbers n from 1 on, below the counter, strictly
    increasing in the order of sending: no id is sent twice. *)
Theorem correlation_ids_never_reused (stored : Storage) (now : N)
        (events : list HostEvent) :
  let w := run WebSocket_accepts (init stored now) events in
  NoDup (sent_ids (trace w))
  /\ exists ns,
      sent_ids (trace w) = map request_id ns
      /\ decreasing_below (messageRequestId w) ns
      /\ Forall (fun n => 1 <= n) ns.
Proof.
  intros w.
  assert (Hinv : sends_invariant w).
  { apply sends_run. split; [cbn; lia| |repeat constructor].
    exists []. repeat split; constructor. }
  destruct Hinv as [_ (ns & Hs & Hd & Hf) _]. split; [|exists ns; auto].
  rewrite Hs. apply NoDup_fmap_2; [|eapply decreasing_below_NoDup, Hd].
  intros n m. apply request_id_inj.
Qed.

End Sends.

(** ** A highlight in the worker, from the click to the answer *)

(** What the promise of a request settles to when OBS answers:
    [requestStatus.result] decides, and a failure carries
    [requestStatus.comment || 'Request failed']. *)
Definition response_outcome (requestStatus : bool * option jsstring)
           (responseData : option JSON) : Settled (option JSON) :=
  if requestStatus.1 then Fulfilled responseData
  else Rejected (Error (or_default requestStatus.2 (js "Request failed"))).

(** The code of a highlight that waits for the answer to its update,
    and the code that waits for the answer to its refresh. *)
Definition update_waiter (data : MessageData) (stored : Storage) (now : N)
           (currentSettings : option JSON) : Settled (option JSON) -> Proc bool :=
  match fetch_waiter data stored now (Fulfilled currentSettings) with
  | SendRequest _ _ k => k
  | p => fun _ => p
  end.

Definition refresh_waiter (data : MessageData) (stored : Storage) (now : N)
           (currentSettings : option JSON) : Settled (option JSON) -> Proc bool :=
  match update_waiter data stored now currentSettings (Fulfilled None) with
  | SendRequest _ _ k => k
  | p => fun _ => p
  end.

Definition highlight_duration (stored : Storage) : N :=
  match displayDuration stored with Some (N.pos d) => N.pos d | _ => 8 end.

(** The URL a highlight gives the browser source. *)
Definition highlight_url (data : MessageData) (stored : Storage) (now : N)
           (baseUrl : jsstring) : jsstring :=
  before_question_mark baseUrl ++ question_mark ::
    URLSearchParams_toString (highlight_params data now (highlight_duration stored)).

Lemma fetch_waiter_rejected data stored now e :
  fetch_waiter data stored now (Rejected e) = awaited (Rejected e).
Proof. reflexivity. Qed.

Lemma fetch_waiter_fulfilled data stored now currentSettings c baseUrl :
  fetched_url currentSettings = Some (JStr (c :: baseUrl)) ->
  fetch_waiter data stored now (Fulfilled currentSettings) =
  SendRequest (js "SetInputSettings")
              (JObj [(js "inputName", JStr (configured_sourceName stored));
                     (js "inputSettings",
                      JObj [(js "url", JStr (highlight_url data stored now (c :: baseUrl)))])])
              (update_waiter data stored now currentSettings).
Proof.
  intros Hurl. unfold update_waiter, fetch_waiter, sendHighlightToOBS.
  cbn [advance mbind Proc_bind proc_bind try_catch sendRequest_await negb awaited].
  unfold fetched_url in Hurl. unfold or_empty. rewrite Hurl.
  cbn [truthy negb proc_bind try_catch]. reflexivity.
Qed.

Lemma fetch_waiter_without_url data stored now currentSettings :
  truthy (fetched_url currentSettings) = false ->
  fetch_waiter data stored now (Fulfilled currentSettings) =
  awaited (Rejected (Error (source_not_found (configured_sourceName stored)))).
Proof.
  intros Hurl. unfold fetch_waiter, sendHighlightToOBS.
  cbn [advance mbind Proc_bind proc_bind try_catch sendRequest_await negb awaited].
  unfold fetched_url in Hurl. unfold or_empty. rewrite Hurl.
  cbn [truthy negb proc_bind try_catch]. reflexivity.
Qed.

Lemma update_waiter_rejected data stored now currentSettings c baseUrl e :
  fetched_url currentSettings = Some (JStr (c :: baseUrl)) ->
  update_waiter data stored now currentSettings (Rejected e) = awaited (Rejected e).
Proof.
  intros Hurl. unfold update_waiter, fetch_waiter, sendHighlightToOBS.
  cbn [advance mbind Proc_bind proc_bind try_catch sendRequest_await negb awaited].
  unfold fetched_url in Hurl. unfold or_empty. rewrite Hurl.
  cbn [truthy negb proc_bind try_catch]. reflexivity.
Qed.

Lemma update_waiter_fulfilled data stored now currentSettings c baseUrl updated :
  fetched_url currentSettings = Some (JStr (c :: baseUrl)) ->
  update_waiter data stored now currentSettings (Fulfilled updated) =
  SendRequest (js "PressInputPropertiesButton")
              (JObj [(js "inputName", JStr (configured_sourceName stored));
                     (js "propertyName", JStr (js "refreshnocache"))])
              (refresh_waiter data stored now currentSettings).
Proof.
  intros Hurl. unfold refresh_waiter, update_waiter, fetch_waiter, sendHighlightToOBS.
  cbn [advance mbind Proc_bind proc_bind try_catch sendRequest_await negb awaited].
  unfold fetched_url in Hurl. unfold or_empty. rewrite Hurl.
  cbn [truthy negb proc_bind try_catch awaited]. reflexivity.
Qed.

Lemma refresh_waiter_settled data stored now currentSettings c baseUrl outcome :
  fetched_url currentSettings = Some (JStr (c :: baseUrl)) ->
  refresh_waiter data stored now currentSettings outcome =
  awaited (match outcome with Fulfilled _ => Fulfilled true | Rejected e => Rejected e end).
Proof.
  intros Hurl. unfold refresh_waiter, update_waiter, fetch_waiter, sendHighlightToOBS.
  cbn [advance mbind Proc_bind proc_bind try_catch sendRequest_await negb awaited].
  unfold fetched_url in Hurl. unfold or_empty. rewrite Hurl.
  cbn [truthy negb proc_bind try_catch awaited]. destruct outcome; reflexivity.
Qed.

Section Worker.

Variable WebSocket_accepts : jsstring -> bool.

Local Abbreviation host_step := (step WebSocket_accepts).
Local Abbreviation host_run := (run WebSocket_accepts).


Lemma run_cons (w : World) (e : HostEvent) (events : list HostEvent) :
  host_run w (e :: events) = host_run (host_step w e) events.
Proof. reflexivity. Qed.

Lemma run_nil (w : World) : host_run w [] = w.
Proof. reflexivity. Qed.

Lemma step_resumes (w : World) (t : Task) :
  host_step (suspend t w) (TaskResumes (length (tasks w))) =
  resume WebSocket_accepts t (set_tasks (tasks w) (suspend t w)).
Proof.
  cbn [step]. cbn [tasks suspend set_tasks].
  rewrite resumed_task_lookup, resumed_task_delete. reflexivity.
Qed.

Lemma step_response (w : World) (s : nat) (requestId : jsstring) (waiter : Waiter)
      (requestStatus : bool * option jsstring) (responseData : option JSON) :
  sockets w !! s = Some OPEN ->
  pendingRequests w !! requestId = Some waiter ->
  host_step w (SocketMessage s (RequestResponse requestId (Some requestStatus) responseData)) =
  settle requestId waiter (response_outcome requestStatus responseData)
    (set_pendingRequests (delete requestId (pendingRequests w))
       (emit (Received s (RequestResponse requestId (Some requestStatus) responseData)) w)).
Proof.
  intros Hopen Hpending. cbn [step]. rewrite Hopen. cbn [handleOBSMessage].
  unfold handleRequestResponse. cbn [pendingRequests emit set_trace]. rewrite Hpending.
  destruct requestStatus as [[] comment]; reflexivity.
Qed.

Lemma exec_request (w : World) (s sender : nat) (requestType : jsstring) (requestData : JSON)
      (k : Settled (option JSON) -> Proc bool) :
  open_socket w = Some s ->
  exec (SendRequest requestType requestData k) sender w =
  emit (Sent s (Request requestType (request_id (messageRequestId w)) requestData))
    (setTimeout (RequestTimeout (request_id (messageRequestId w))) 10000
       (set_pendingRequests
          (<[request_id (messageRequestId w) := HighlightWaiter k sender]> (pendingRequests w))
          (set_messageRequestId (messageRequestId w + 1) w))).
Proof.
  intros Hopen. cbn [exec]. unfold sendRequest, sendToOBS, setTimeout. cbv zeta.
  change (open_socket (set_timers _ _)) with (open_socket w). rewrite Hopen. reflexivity.
Qed.

(** What a highlight needs of the world to go on: the socket the script
    holds is [s], and it is open. *)
Definition holds_open (s : nat) (w : World) : Prop :=
  obsWebSocket w = Some s /\ sockets w !! s = Some OPEN.

Lemma holds_open_socket (s : nat) (w : World) : holds_open s w <-> open_socket w = Some s.
Proof.
  unfold holds_open, open_socket. split.
  - intros [-> Hs]. rewrite decide_True by exact Hs. reflexivity.
  - destruct (obsWebSocket w) as [s'|]; [|discriminate].
    destruct (decide _) as [Hs|]; [|discriminate]. intros [= ->]. auto.
Qed.

(** An answer of OBS to a request of a highlight, when the highlight
    goes on with one more request. *)
Lemma highlight_goes_on (w : World) (s sender : nat) (requestId : jsstring)
      (k k' : Settled (option JSON) -> Proc bool)
      (requestStatus : bool * option jsstring) (responseData : option JSON)
      (requestType : jsstring) (requestData : JSON) :
  holds_open s w ->
  pendingRequests w !! requestId = Some (HighlightWaiter k sender) ->
  k (response_outcome requestStatus responseData) = SendRequest requestType requestData k' ->
  let w' := host_step w (SocketMessage s (RequestResponse requestId (Some requestStatus)
                                                          responseData)) in
  trace w' =
    Sent s (Request requestType (request_id (messageRequestId w)) requestData)
      :: Settle requestId (response_outcome requestStatus responseData)
      :: Received s (RequestResponse requestId (Some requestStatus) responseData)
      :: trace w
  /\ holds_open s w'
  /\ tasks w' = tasks w
  /\ messageRequestId w' = messageRequestId w + 1
  /\ pendingRequests w' =
     <[request_id (messageRequestId w) := HighlightWaiter k' sender]>
       (delete requestId (pendingRequests w)).
Proof.
  intros Hholds Hpending Hk w'. subst w'.
  pose proof Hholds as [Hsock Hopen].
  rewrite (step_response w s requestId _ requestStatus responseData Hopen Hpending).
  unfold settle, resume_waiter. rewrite Hk.
  rewrite (exec_request _ s).
  - repeat split; try reflexivity; assumption.
  - apply holds_open_socket. split; assumption.
Qed.

(** An answer of OBS to a request of a highlight, when it ends the
    highlight. *)
Lemma highlight_ends (w : World) (s sender : nat) (requestId : jsstring)
      (k : Settled (option JSON) -> Proc bool)
      (requestStatus : bool * option jsstring) (responseData : option JSON)
      (outcome : Settled bool) :
  sockets w !! s = Some OPEN ->
  pendingRequests w !! requestId = Some (HighlightWaiter k sender) ->
  k (response_outcome requestStatus responseData) = awaited outcome ->
  let w' := host_step w (SocketMessage s (RequestResponse requestId (Some requestStatus)
                                                          responseData)) in
  trace w' =
    Responded sender (highlight_response outcome)
      :: Settle requestId (response_outcome requestStatus responseData)
      :: Received s (RequestResponse requestId (Some requestStatus) responseData)
      :: trace w
  /\ tasks w' = tasks w
  /\ messageRequestId w' = messageRequestId w
  /\ pendingRequests w' = delete requestId (pendingRequests w).
Proof.
  intros Hopen Hpending Hk w'. subst w'.
  rewrite (step_response w s requestId _ requestStatus responseData Hopen Hpending).
  unfold settle, resume_waiter. rewrite Hk.
  destruct outcome; repeat split; reflexivity.
Qed.

(** The click, and the read of the storage: the fetch goes out. *)
Lemma highlight_begins (w : World) (s sender : nat) (data : MessageData) :
  isAuthenticated w = true ->
  holds_open s w ->
  let w' := host_run w [RuntimeMessageArrives sender (HIGHLIGHT_MESSAGE data);
                        TaskResumes (length (tasks w))] in
  trace w' =
    Sent s (Request (js "GetInputSettings") (request_id (messageRequestId w))
                    (JObj [(js "inputName", JStr (configured_sourceName (storage w)))]))
      :: trace w
  /\ holds_open s w'
  /\ tasks w' = tasks w
  /\ messageRequestId w' = messageRequestId w + 1
  /\ pendingRequests w' =
     <[request_id (messageRequestId w) :=
         HighlightWaiter (fetch_waiter data (storage w) (clock w)) sender]>
       (pendingRequests w).
Proof.
  intros Hauth Hholds w'. subst w'. pose proof Hholds as [Hsock Hopen].
  rewrite run_cons, run_cons, run_nil.
  change (host_step w (RuntimeMessageArrives sender (HIGHLIGHT_MESSAGE data)))
    with (onMessage sender (HIGHLIGHT_MESSAGE data) w).
  rewrite (highlight_suspends_at_storage w sender data Hauth).
  rewrite step_resumes. cbn [resume].
  rewrite (highlight_issues_fetch _ s).
  - repeat split; try reflexivity; assumption.
  - apply holds_open_socket. split; assumption.
Qed.

(** A request of a highlight and the answer of OBS to it, as the log
    shows them, newest first. *)
Definition exchange (s : nat) (request : jsstring * JSON) (requestId : jsstring)
           (requestStatus : bool * option jsstring) (responseData : option JSON)
  : list Action :=
  [Settle requestId (response_outcome requestStatus responseData);
   Received s (RequestResponse requestId (Some requestStatus) responseData);
   Sent s (Request request.1 requestId request.2)].

Definition answers (s : nat) (requestId : jsstring) (requestStatus : bool * option jsstring)
           (responseData : option JSON) : HostEvent :=
  SocketMessage s (RequestResponse requestId (Some requestStatus) responseData).

Definition highlight_asked (sender : nat) (data : MessageData) (w : World) : list HostEvent :=
  [RuntimeMessageArrives sender (HIGHLIGHT_MESSAGE data); TaskResumes (length (tasks w))].

Lemma run_app (w : World) (events later : list HostEvent) :
  host_run w (events ++ later) = host_run (host_run w events) later.
Proof. apply fold_left_app. Qed.

Lemma request_id_apart (n : N) (i j : N) : i ≠ j -> request_id (n + i) ≠ request_id (n + j).
Proof. intros Hne Heq%request_id_inj. lia. Qed.

(** X7. A highlight in the worker, from the click to the answer: with
    the script authenticated over its open socket, and a URL in the
    fetched settings, the three requests go out one after the other
    under consecutive ids, each after the answer to the one before, the
    update carrying the rewritten URL; the sender is then answered
    [{success: true}], and none of the three requests is left
    pending. *)
Theorem highlight_succeeds_in_the_worker
        (w : World) (s sender : nat) (data : MessageData)
        (currentSettings updated refreshed : option JSON) (baseUrl : jsstring)
        (c1 c2 c3 : option jsstring) :
  isAuthenticated w = true ->
  obsWebSocket w = Some s -> sockets w !! s = Some OPEN ->
  fetched_url currentSettings = Some (JStr baseUrl) -> baseUrl ≠ [] ->
  let n := messageRequestId w in
  let sourceName := configured_sourceName (storage w) in
  let w' := host_run w (highlight_asked sender data w ++
                        [answers s (request_id n) (true, c1) currentSettings;
                         answers s (request_id (n + 1)) (true, c2) updated;
                         answers s (request_id (n + 2)) (true, c3) refreshed]) in
  trace w' =
    Responded sender Success
      :: exchange s (PressInputPropertiesButton_request sourceName)
                  (request_id (n + 2)) (true, c3) refreshed
      ++ exchange s (SetInputSettings_request
                       sourceName (highlight_url data (storage w) (clock w) baseUrl))
                  (request_id (n + 1)) (true, c2) updated
      ++ exchange s (GetInputSettings_request sourceName)
                  (request_id n) (true, c1) currentSettings
      ++ trace w
  /\ messageRequestId w' = n + 3
  /\ tasks w' = tasks w
  /\ pendingRequests w' !! request_id n = None
  /\ pendingRequests w' !! request_id (n + 1) = None
  /\ pendingRequests w' !! request_id (n + 2) = None.
Proof.
  intros Hauth Hsock Hopen Hurl Hne n sourceName w'.
  destruct baseUrl as [|c baseUrl]; [contradiction|].
  assert (Hholds : holds_open s w) by (split; assumption).
  subst w'. rewrite run_app.
  destruct (highlight_begins w s sender data Hauth Hholds)
    as (Ht1 & Hh1 & Hk1 & Hn1 & Hp1).
  fold (highlight_asked sender data w) in Ht1, Hh1, Hk1, Hn1, Hp1.
  remember (host_run w (highlight_asked sender data w)) as w1 eqn:E1. clear E1.
  rewrite run_cons.
  assert (Hfetch : pendingRequests w1 !! request_id n =
                   Some (HighlightWaiter (fetch_waiter data (storage w) (clock w)) sender))
    by (rewrite Hp1; apply lookup_insert_eq).
  destruct (highlight_goes_on w1 s sender (request_id n) _ _ (true, c1) currentSettings _ _
              Hh1 Hfetch (fetch_waiter_fulfilled _ _ _ _ _ _ Hurl))
    as (Ht2 & Hh2 & Hk2 & Hn2 & Hp2).
  fold (answers s (request_id n) (true, c1) currentSettings) in Ht2, Hh2, Hk2, Hn2, Hp2.
  remember (host_step w1 (answers s (request_id n) (true, c1) currentSettings)) as w2 eqn:E2.
  clear E2. rewrite run_cons.
  rewrite Hn1 in Ht2, Hp2, Hn2. fold n in Ht2, Hp2, Hn2.
  assert (Hupdate : pendingRequests w2 !! request_id (n + 1) =
                    Some (HighlightWaiter
                            (update_waiter data (storage w) (clock w) currentSettings) sender))
    by (rewrite Hp2; apply lookup_insert_eq).
  destruct (highlight_goes_on w2 s sender (request_id (n + 1)) _ _ (true, c2) updated _ _
              Hh2 Hupdate (update_waiter_fulfilled _ _ _ _ _ _ updated Hurl))
    as (Ht3 & Hh3 & Hk3 & Hn3 & Hp3).
  fold (answers s (request_id (n + 1)) (true, c2) updated) in Ht3, Hh3, Hk3, Hn3, Hp3.
  remember (host_step w2 (answers s (request_id (n + 1)) (true, c2) updated)) as w3 eqn:E3.
  clear E3. rewrite run_cons, run_nil.
  rewrite Hn2 in Ht3, Hp3, Hn3.
  replace (n + 1 + 1) with (n + 2) in Ht3, Hp3, Hn3 by lia.
  assert (Hrefresh : pendingRequests w3 !! request_id (n + 2) =
                     Some (HighlightWaiter
                             (refresh_waiter data (storage w) (clock w) currentSettings) sender))
    by (rewrite Hp3; apply lookup_insert_eq).
  destruct Hh3 as [_ Hopen3].
  destruct (highlight_ends w3 s sender (request_id (n + 2)) _ (true, c3) refreshed
              (Fulfilled true) Hopen3 Hrefresh
              (refresh_waiter_settled _ _ _ _ _ _ (Fulfilled refreshed) Hurl))
    as (Ht4 & Hk4 & Hn4 & Hp4).
  fold (answers s (request_id (n + 2)) (true, c3) refreshed) in Ht4, Hk4, Hn4, Hp4.
  remember (host_step w3 (answers s (request_id (n + 2)) (true, c3) refreshed)) as w4 eqn:E4.
  clear E4.
  assert (H01 : request_id n ≠ request_id (n + 1)).
  { intros Heq%request_id_inj. lia. }
  assert (H02 : request_id n ≠ request_id (n + 2)).
  { intros Heq%request_id_inj. lia. }
  assert (H12 : request_id (n + 1) ≠ request_id (n + 2)).
  { intros Heq%request_id_inj. lia. }
  split; [|split; [|split; [|split; [|split]]]].
  - rewrite Ht4, Ht3, Ht2, Ht1. reflexivity.
  - rewrite Hn4, Hn3. lia.
  - congruence.
  - rewrite Hp4, Hp3, Hp2.
    rewrite lookup_delete_ne, lookup_insert_ne, lookup_delete_ne, lookup_insert_ne by auto.
    apply lookup_delete_eq.
  - rewrite Hp4, Hp3.
    rewrite lookup_delete_ne, lookup_insert_ne by auto.
    apply lookup_delete_eq.
  - rewrite Hp4. apply lookup_delete_eq.
Qed.

(** X8. OBS refuses a request of a highlight, at the fetch, at the
    update or at the refresh: the sender is answered
    [{success: false}] with the comment of OBS, or with 'Request failed'
    when there is none or it is empty, and no further request is
    issued. *)
Theorem highlight_fails_with_the_comment_of_OBS
        (w : World) (s sender : nat) (data : MessageData)
        (comment : option jsstring) (responseData : option JSON) :
  isAuthenticated w = true ->
  obsWebSocket w = Some s -> sockets w !! s = Some OPEN ->
  let n := messageRequestId w in
  let sourceName := configured_sourceName (storage w) in
  let failure := Responded sender (Failure (or_default comment (js "Request failed"))) in
  let fetch := GetInputSettings_request sourceName in
  let refresh := PressInputPropertiesButton_request sourceName in
  (let w' := host_run w (highlight_asked sender data w ++
                         [answers s (request_id n) (false, comment) responseData]) in
   trace w' = failure :: exchange s fetch (request_id n) (false, comment) responseData
                      ++ trace w
   /\ messageRequestId w' = n + 1)
  /\ (forall currentSettings baseUrl c1,
        fetched_url currentSettings = Some (JStr baseUrl) -> baseUrl ≠ [] ->
        let update := SetInputSettings_request
                        sourceName (highlight_url data (storage w) (clock w) baseUrl) in
        (let w' := host_run w (highlight_asked sender data w ++
                               [answers s (request_id n) (true, c1) currentSettings;
                                answers s (request_id (n + 1)) (false, comment)
                                        responseData]) in
         trace w' = failure
                      :: exchange s update (request_id (n + 1)) (false, comment) responseData
                      ++ exchange s fetch (request_id n) (true, c1) currentSettings
                      ++ trace w
         /\ messageRequestId w' = n + 2)
        /\ (forall updated c2,
              let w' := host_run w (highlight_asked sender data w ++
                                    [answers s (request_id n) (true, c1) currentSettings;
                                     answers s (request_id (n + 1)) (true, c2) updated;
                                     answers s (request_id (n + 2)) (false, comment)
                                             responseData]) in
              trace w' = failure
                           :: exchange s refresh (request_id (n + 2)) (false, comment)
                                       responseData
                           ++ exchange s update (request_id (n + 1)) (true, c2) updated
                           ++ exchange s fetch (request_id n) (true, c1) currentSettings
                           ++ trace w
              /\ messageRequestId w' = n + 3)).
Proof.
  intros Hauth Hsock Hopen n sourceName failure fetch refresh.
  assert (Hholds : holds_open s w) by (split; assumption).
  destruct (highlight_begins w s sender data Hauth Hholds)
    as (Ht1 & Hh1 & Hk1 & Hn1 & Hp1).
  fold (highlight_asked sender data w) in Ht1, Hh1, Hk1, Hn1, Hp1. fold n in Ht1, Hn1, Hp1.
  assert (Hfetch : pendingRequests (host_run w (highlight_asked sender data w))
                     !! request_id n =
                   Some (HighlightWaiter (fetch_waiter data (storage w) (clock w)) sender))
    by (rewrite Hp1; apply lookup_insert_eq).
  remember (host_run w (highlight_asked sender data w)) as w1 eqn:E1.
  split.
  - cbv zeta. rewrite run_app, <- E1, run_cons, run_nil. clear E1.
    destruct Hh1 as [_ Hopen1].
    destruct (highlight_ends w1 s sender (request_id n) _ (false, comment) responseData
                (Rejected (Error (or_default comment (js "Request failed"))))
                Hopen1 Hfetch (fetch_waiter_rejected _ _ _ _))
      as (Ht2 & _ & Hn2 & _).
    unfold answers. rewrite Ht2, Hn2, Ht1, Hn1. split; reflexivity.
  - intros currentSettings baseUrl c1 Hurl Hne update.
    destruct baseUrl as [|c baseUrl]; [contradiction|].
    destruct (highlight_goes_on w1 s sender (request_id n) _ _ (true, c1) currentSettings _ _
                Hh1 Hfetch (fetch_waiter_fulfilled _ _ _ _ _ _ Hurl))
      as (Ht2 & Hh2 & Hk2 & Hn2 & Hp2).
    fold (answers s (request_id n) (true, c1) currentSettings) in Ht2, Hh2, Hk2, Hn2, Hp2.
    rewrite Hn1 in Ht2, Hp2, Hn2.
    assert (Hupdate : pendingRequests
                        (host_step w1 (answers s (request_id n) (true, c1) currentSettings))
                        !! request_id (n + 1) =
                      Some (HighlightWaiter
                              (update_waiter data (storage w) (clock w) currentSettings)
                              sender))
      by (rewrite Hp2; apply lookup_insert_eq).
    remember (host_step w1 (answers s (request_id n) (true, c1) currentSettings)) as w2 eqn:E2.
    split.
    + cbv zeta. rewrite run_app, <- E1, run_cons, <- E2, run_cons, run_nil. clear E1 E2.
      destruct Hh2 as [_ Hopen2].
      destruct (highlight_ends w2 s sender (request_id (n + 1)) _ (false, comment)
                  responseData
                  (Rejected (Error (or_default comment (js "Request failed"))))
                  Hopen2 Hupdate (update_waiter_rejected _ _ _ _ _ _ _ Hurl))
        as (Ht3 & _ & Hn3 & _).
      unfold answers. rewrite Ht3, Hn3, Ht2, Hn2, Ht1. split; [reflexivity|lia].
    + intros updated c2.
      destruct (highlight_goes_on w2 s sender (request_id (n + 1)) _ _ (true, c2) updated _ _
                  Hh2 Hupdate (update_waiter_fulfilled _ _ _ _ _ _ updated Hurl))
        as (Ht3 & Hh3 & Hk3 & Hn3 & Hp3).
      fold (answers s (request_id (n + 1)) (true, c2) updated) in Ht3, Hh3, Hk3, Hn3, Hp3.
      rewrite Hn2 in Ht3, Hp3, Hn3.
      replace (n + 1 + 1) with (n + 2) in Ht3, Hp3, Hn3 by lia.
      assert (Hrefresh : pendingRequests
                           (host_step w2 (answers s (request_id (n + 1)) (true, c2) updated))
                           !! request_id (n + 2) =
                         Some (HighlightWaiter
                                 (refresh_waiter data (storage w) (clock w) currentSettings)
                                 sender))
        by (rewrite Hp3; apply lookup_insert_eq).
      remember (host_step w2 (answers s (request_id (n + 1)) (true, c2) updated)) as w3 eqn:E3.
      cbv zeta.
      rewrite run_app, <- E1, run_cons, <- E2, run_cons, <- E3, run_cons, run_nil.
      clear E1 E2 E3. destruct Hh3 as [_ Hopen3].
      destruct (highlight_ends w3 s sender (request_id (n + 2)) _ (false, comment)
                  responseData
                  (Rejected (Error (or_default comment (js "Request failed"))))
                  Hopen3 Hrefresh
                  (refresh_waiter_settled _ _ _ _ _ _
                     (Rejected (Error (or_default comment (js "Request failed")))) Hurl))
        as (Ht4 & _ & Hn4 & _).
      unfold answers. rewrite Ht4, Hn4, Ht3, Hn3, Ht2, Ht1. split; [reflexivity|lia].
Qed.

(** ** The keepalive at work *)


(** X3. A tick of the keepalive arms the next tick 20 seconds ahead.
    When the script is authenticated and holds an open socket, the tick
    sends one GetVersion request on that socket under the next
    correlation id, and registers it with its 10-second timeout;
    otherwise it sends nothing and registers nothing. *)
Theorem keepAlive_tick_pings (w : World) (i : nat) (t : Timer) (id : nat) :
  timers w !! i = Some t -> kind t = KeepAliveTick id ->
  (deadline t <=? clock w) = true ->
  let w' := host_step w (TimerFires i) in
  let requestId := request_id (messageRequestId w) in
  let again := {| deadline := clock w + 20000; kind := KeepAliveTick id |} in
  (forall s,
      isAuthenticated w = true -> open_socket w = Some s ->
      trace w' = Sent s (Request (js "GetVersion") requestId (JObj [])) :: trace w
      /\ pendingRequests w' = <[requestId := KeepAlivePing]> (pendingRequests w)
      /\ messageRequestId w' = messageRequestId w + 1
      /\ timers w' =
         delete i (timers w) ++
           [again; {| deadline := clock w + 10000; kind := RequestTimeout requestId |}])
  /\ (isAuthenticated w = false \/ open_socket w = None ->
      trace w' = trace w
      /\ pendingRequests w' = pendingRequests w
      /\ messageRequestId w' = messageRequestId w
      /\ timers w' = delete i (timers w) ++ [again]).
Proof.
  intros Hi Hk Hdue w' requestId again. subst w'. cbn [step]. rewrite Hi, Hdue.
  unfold fire. rewrite Hk. unfold keepAlive_tick.
  change (open_socket (setTimeout _ _ _)) with (open_socket w).
  cbn [isAuthenticated autoReconnect isConnected setTimeout set_timers].
  split.
  - intros s Hauth Hopen. rewrite Hauth, Hopen.
    rewrite bool_decide_eq_true_2 by eauto. cbn [andb].
    unfold sendRequest, sendToOBS, setTimeout. cbv zeta.
    change (open_socket (set_timers _ _)) with (open_socket w). rewrite Hopen.
    cbn -[request_id js]. rewrite <- app_assoc. repeat split; reflexivity.
  - intros Hnot.
    assert (Hcond : isAuthenticated w && bool_decide (is_Some (open_socket w)) = false).
    { destruct Hnot as [->| ->]; [reflexivity|]. apply andb_false_iff. right.
      apply bool_decide_eq_false_2. intros [x Hx]. discriminate. }
    rewrite Hcond. destruct (autoReconnect w && negb (isConnected w)).
    + unfold connectToOBS.
      change (open_socket (set_reconnectAttempts _ _)) with (open_socket w).
      destruct (open_socket w); repeat split; reflexivity.
    + repeat split; reflexivity.
Qed.

(** The ping of the keepalive fails in [w]: the timeout of the request
    is due and fires, or OBS answers the request with a failure on a
    socket that is open. *)
Definition ping_fails (w : World) (requestId : jsstring) (e : HostEvent) : Prop :=
  (exists i t,
      e = TimerFires i /\ timers w !! i = Some t
      /\ kind t = RequestTimeout requestId /\ (deadline t <=? clock w) = true)
  \/ (exists s comment responseData,
        e = SocketMessage s (RequestResponse requestId (Some (false, comment)) responseData)
        /\ sockets w !! s = Some OPEN).

(** X4. The ping of the keepalive fails, by its timeout or by a refusal
    of OBS: the request is removed and the attempt counter is reset.
    While the script holds an open socket that is all: no connect is
    started and auto-reconnect is left as it is.  Without an open
    socket the script connects as on a request of the user, and turns
    auto-reconnect on. *)
Theorem keepAlive_failure_reconnects_only_without_socket
        (w : World) (requestId : jsstring) (e : HostEvent) :
  pendingRequests w !! requestId = Some KeepAlivePing ->
  ping_fails w requestId e ->
  let w' := host_step w e in
  pendingRequests w' = delete requestId (pendingRequests w)
  /\ reconnectAttempts w' = 0
  /\ sockets w' = sockets w /\ obsWebSocket w' = obsWebSocket w
  /\ (is_Some (open_socket w) ->
      tasks w' = tasks w /\ autoReconnect w' = autoReconnect w)
  /\ (open_socket w = None ->
      tasks w' = tasks w ++ [ConnectAfterStorage (obsUrl (storage w))]
      /\ autoReconnect w' = true).
Proof.
  intros Hp Hfails w'. subst w'.
  destruct Hfails as [(i & t & -> & Hi & Hk & Hdue)|(s & comment & responseData & -> & Hs)];
    cbn [step].
  - rewrite Hi, Hdue. unfold fire. rewrite Hk. unfold request_timeout.
    cbn [pendingRequests set_timers]. rewrite Hp.
    unfold settle, resume_waiter, keepAlive_failed, connectToOBS.
    change (open_socket (set_reconnectAttempts _ _)) with (open_socket w).
    destruct (open_socket w) as [current|]; (do 4 (split; [reflexivity|])); split.
    + intros _. split; reflexivity.
    + intros [=].
    + intros [x [=]].
    + intros _. split; reflexivity.
  - rewrite Hs. cbn [handleOBSMessage]. unfold handleRequestResponse.
    cbn [pendingRequests emit set_trace]. rewrite Hp.
    unfold settle, resume_waiter, keepAlive_failed, connectToOBS.
    change (open_socket (set_reconnectAttempts _ _)) with (open_socket w).
    destruct (open_socket w) as [current|]; (do 4 (split; [reflexivity|])); split.
    + intros _. split; reflexivity.
    + intros [=].
    + intros [x [=]].
    + intros _. split; reflexivity.
Qed.

Lemma step_TimerFires (w : World) (i : nat) (t : Timer) :
  timers w !! i = Some t -> (deadline t <=? clock w) = true ->
  host_step w (TimerFires i) = fire t (set_timers (delete i (timers w)) w).
Proof. intros Hi Hdue. cbn [step]. rewrite Hi, Hdue. reflexivity. Qed.

(** The ping of the keepalive times out while the script holds no open
    socket: the catch of the keepalive connects as if the user had
    asked. *)
Lemma ping_times_out_without_socket (w : World) (i : nat) (t : Timer) (requestId : jsstring) :
  pendingRequests w !! requestId = Some KeepAlivePing ->
  open_socket w = None ->
  timers w !! i = Some t -> kind t = RequestTimeout requestId ->
  (deadline t <=? clock w) = true ->
  host_step w (TimerFires i) =
  suspend (ConnectAfterStorage (obsUrl (storage w)))
    (set_reconnectAttempts 0
       (set_autoReconnect true
          (set_reconnectAttempts 0
             (emit (Settle requestId (Rejected (Error (js "Request timeout"))))
                (set_pendingRequests (delete requestId (pendingRequests w))
                   (set_timers (delete i (timers w)) w)))))).
Proof.
  intros Hp Hopen Hi Hk Hdue. rewrite (step_TimerFires w i t Hi Hdue).
  unfold fire. rewrite Hk. unfold request_timeout.
  cbn [pendingRequests set_timers]. rewrite Hp.
  unfold settle, resume_waiter, keepAlive_failed, connectToOBS.
  change (open_socket (set_reconnectAttempts _ _)) with (open_socket w). rewrite Hopen.
  reflexivity.
Qed.

Lemma connect_resumes (w : World) (stored_obsUrl : option jsstring) :
  WebSocket_accepts (or_default stored_obsUrl OBS_CONFIG_url) = true ->
  let w' := host_step (suspend (ConnectAfterStorage stored_obsUrl) w)
                      (TaskResumes (length (tasks w))) in
  obsWebSocket w' = Some (length (sockets w))
  /\ sockets w' = sockets w ++ [CONNECTING]
  /\ tasks w' = tasks w
  /\ trace w' = SocketCreated (length (sockets w)) (or_default stored_obsUrl OBS_CONFIG_url)
                 :: trace w.
Proof.
  intros Haccepts w'. subst w'. rewrite step_resumes. cbn [resume].
  unfold connectToOBS_resume. rewrite Haccepts. repeat split; reflexivity.
Qed.

Lemma onMessage_DISCONNECT_OBS (w : World) (sender : nat) :
  host_step w (RuntimeMessageArrives sender DISCONNECT_OBS) =
  respond sender Success
    (disconnectFromOBS (set_storage (storage_set (only_autoReconnect false) (storage w)) w)).
Proof. reflexivity. Qed.

Lemma DISCONNECT_OBS_fields (w : World) (sender : nat) :
  let w1 := host_step w (RuntimeMessageArrives sender DISCONNECT_OBS) in
  autoReconnect w1 = false /\ obsWebSocket w1 = None
  /\ storage w1 = storage_set (only_autoReconnect false) (storage w)
  /\ tasks w1 = tasks w /\ clock w1 = clock w
  /\ pendingRequests w1 = pendingRequests w.
Proof.
  intros w1. subst w1. rewrite onMessage_DISCONNECT_OBS.
  pose proof (disconnectFromOBS_fields
                (set_storage (storage_set (only_autoReconnect false) (storage w)) w))
    as (Hpending & Hauto & _ & _ & _ & _).
  pose proof (disconnectFromOBS_rest
                (set_storage (storage_set (only_autoReconnect false) (storage w)) w))
    as (Hsock & _ & _ & Htasks & Hstorage & Hclock & _).
  revert Hpending Hauto Hsock Htasks Hstorage Hclock.
  generalize (disconnectFromOBS
                (set_storage (storage_set (only_autoReconnect false) (storage w)) w)).
  intros d Hpending Hauto Hsock Htasks Hstorage Hclock.
  split; [exact Hauto|]. split; [exact Hsock|]. split; [exact Hstorage|].
  split; [exact Htasks|]. split; [exact Hclock|exact Hpending].
Qed.

(** The ping of the keepalive times out while the script holds no
    socket: the keepalive connects, and turns auto-reconnect on. *)
Lemma ping_outlives (w : World) (i : nat) (t : Timer) (requestId : jsstring) (ms : N) :
  pendingRequests w !! requestId = Some KeepAlivePing ->
  obsWebSocket w = None ->
  timers w !! i = Some t -> kind t = RequestTimeout requestId ->
  (deadline t <=? clock w + ms) = true ->
  let w2 := host_run w [TimePasses ms; TimerFires i] in
  let url := or_default (obsUrl (storage w)) OBS_CONFIG_url in
  autoReconnect w2 = true
  /\ tasks w2 = tasks w ++ [ConnectAfterStorage (obsUrl (storage w))]
  /\ (WebSocket_accepts url = true ->
      let w3 := host_step w2 (TaskResumes (length (tasks w))) in
      obsWebSocket w3 = Some (length (sockets w))
      /\ sockets w3 = sockets w ++ [CONNECTING]
      /\ hd_error (trace w3) = Some (SocketCreated (length (sockets w)) url)).
Proof.
  intros Hp Hsock Hi Hk Hdue w2 url.
  assert (Hfire : w2 =
                  suspend (ConnectAfterStorage (obsUrl (storage w)))
                    (set_reconnectAttempts 0
                       (set_autoReconnect true
                          (set_reconnectAttempts 0
                             (emit (Settle requestId (Rejected (Error (js "Request timeout"))))
                                (set_pendingRequests
                                   (delete requestId (pendingRequests w))
                                   (set_timers (delete i (timers w))
                                      (set_clock (clock w + ms) w)))))))).
  { subst w2. change (host_run w [TimePasses ms; TimerFires i])
      with (host_step (set_clock (clock w + ms) w) (TimerFires i)).
    rewrite (ping_times_out_without_socket _ i t requestId); try assumption.
    - reflexivity.
    - unfold open_socket. cbn [obsWebSocket set_clock]. rewrite Hsock. reflexivity. }
  clearbody w2. subst w2.
  split; [reflexivity|]. split; [reflexivity|].
  intros Haccepts.
  match goal with
  | |- context [suspend ?task ?world] =>
      pose proof (connect_resumes world (obsUrl (storage w)) Haccepts) as (Ho & Hs & _ & Ht)
  end.
  cbv zeta. 
  change (length (tasks w)) with
    (length (tasks (set_reconnectAttempts 0
                       (set_autoReconnect true
                          (set_reconnectAttempts 0
                             (emit (Settle requestId (Rejected (Error (js "Request timeout"))))
                                (set_pendingRequests
                                   (delete requestId (pendingRequests w))
                                   (set_timers (delete i (timers w))
                                      (set_clock (clock w + ms) w))))))))).
  rewrite Ho, Hs, Ht. repeat split; reflexivity.
Qed.

(** X5. A ping in flight outlives a disconnect asked for by the user.
    The disconnect turns auto-reconnect off, in the script and in the
    storage, and drops the socket; when the ping times out afterwards,
    the keepalive connects again, to the stored URL, and turns
    auto-reconnect back on. *)
Theorem keepAlive_ping_outlives_disconnect
        (w : World) (sender i : nat) (t : Timer) (requestId : jsstring) (ms : N) :
  pendingRequests w !! requestId = Some KeepAlivePing ->
  let w1 := host_step w (RuntimeMessageArrives sender DISCONNECT_OBS) in
  timers w1 !! i = Some t -> kind t = RequestTimeout requestId ->
  (deadline t <=? clock w + ms) = true ->
  let w2 := host_run w1 [TimePasses ms; TimerFires i] in
  let url := or_default (obsUrl (storage w)) OBS_CONFIG_url in
  autoReconnect w1 = false /\ obsWebSocket w1 = None
  /\ stored_autoReconnect (storage w1) = Some false
  /\ autoReconnect w2 = true
  /\ tasks w2 = tasks w ++ [ConnectAfterStorage (obsUrl (storage w))]
  /\ (WebSocket_accepts url = true ->
      let w3 := host_step w2 (TaskResumes (length (tasks w))) in
      obsWebSocket w3 = Some (length (sockets w1))
      /\ sockets w3 = sockets w1 ++ [CONNECTING]
      /\ hd_error (trace w3) = Some (SocketCreated (length (sockets w1)) url)).
Proof.
  intros Hp w1.
  destruct (DISCONNECT_OBS_fields w sender) as (Hauto & Hsock & Hstorage & Htasks & Hclock & Hpend).
  fold w1 in Hauto, Hsock, Hstorage, Htasks, Hclock, Hpend. clearbody w1.
  intros Hi Hk Hdue.
  rewrite <- Hclock in Hdue. rewrite <- Hpend in Hp.
  pose proof (ping_outlives w1 i t requestId ms Hp Hsock Hi Hk Hdue) as Hlater.
  cbv zeta in Hlater. rewrite Hstorage, Htasks in Hlater.
  change (obsUrl (storage_set (only_autoReconnect false) (storage w)))
    with (obsUrl (storage w)) in Hlater.
  cbv zeta. split; [exact Hauto|]. split; [exact Hsock|].
  split; [rewrite Hstorage; reflexivity|]. exact Hlater.
Qed.

(** ** The handshake with a challenge *)


(** X1. A Hello that demands authentication, with a password in the
    storage: once the storage has been read and the digest taken, the
    Identify goes out on the open socket the script holds, with
    base64(SHA256(base64(SHA256(password + salt)) + challenge)) as its
    [authentication]; when the script holds no open socket, nothing is
    sent. *)
Theorem hello_with_challenge (w : World) (s : nat) (authentication : jsstring * jsstring)
        (c : N) (password : jsstring) :
  sockets w !! s = Some OPEN ->
  obsPassword (storage w) = Some (c :: password) ->
  let digest := spec_authResponse (c :: password) (salt authentication)
                                  (challenge authentication) in
  let heard := host_step w (SocketMessage s (Hello (Some authentication))) in
  let w' := host_run heard [TaskResumes (length (tasks w)); TaskResumes (length (tasks w))] in
  trace heard = Received s (Hello (Some authentication)) :: trace w
  /\ tasks w' = tasks w
  /\ trace w' =
     match open_socket w with
     | Some current => Sent current (Identify 1 (Some digest)) :: trace heard
     | None => trace heard
     end.
Proof.
  intros Hopen Hpw digest heard w'. subst heard w'. cbn [run fold_left step].
  rewrite Hopen. cbn [handleOBSMessage]. unfold handleHello.
  cbn [suspend emit set_trace set_tasks tasks storage trace].
  rewrite resumed_task_lookup, resumed_task_delete. cbn [resume].
  unfold handleHello_resume. cbv zeta. rewrite Hpw. cbn [or_default].
  rewrite generateAuthString_fulfils.
  cbn [suspend emit set_trace set_tasks tasks storage trace].
  rewrite resumed_task_lookup, resumed_task_delete. cbn [resume].
  unfold sendToOBS, open_socket.
  cbn [obsWebSocket sockets suspend emit set_tasks set_trace].
  destruct (obsWebSocket w) as [current|]; [|repeat split; reflexivity].
  destruct (decide (sockets w !! current = Some OPEN)); repeat split; reflexivity.
Qed.

(** ** Connecting, settings and restarts *)


(** A connect that finds no open socket, once the storage has
    answered. *)
Lemma connect_resumed (userInitiated : bool) (w : World) :
  open_socket w = None ->
  let w' := host_step (connectToOBS userInitiated w) (TaskResumes (length (tasks w))) in
  let url := or_default (obsUrl (storage w)) OBS_CONFIG_url in
  autoReconnect w' = (if userInitiated then true else autoReconnect w)
  /\ reconnectAttempts w' = (if userInitiated then 0 else reconnectAttempts w)
  /\ tasks w' = tasks w /\ timers w' = timers w
  /\ if WebSocket_accepts url
     then obsWebSocket w' = Some (length (sockets w))
          /\ sockets w' = sockets w ++ [CONNECTING]
          /\ trace w' = SocketCreated (length (sockets w)) url :: trace w
     else obsWebSocket w' = obsWebSocket w
          /\ sockets w' = sockets w
          /\ trace w' = StatusUpdate (isConnected w) (isAuthenticated w)
                                     (Some (js "Failed to connect")) :: trace w.
Proof.
  intros Hopen w' url. subst w'. unfold connectToOBS. rewrite Hopen.
  destruct userInitiated.
  - change (length (tasks w))
      with (length (tasks (set_reconnectAttempts 0 (set_autoReconnect true w)))).
    rewrite step_resumes. cbn [resume]. unfold connectToOBS_resume. cbv zeta.
    change (or_default _ OBS_CONFIG_url) with url.
    destruct (WebSocket_accepts url); repeat split; reflexivity.
  - rewrite step_resumes. cbn [resume]. unfold connectToOBS_resume. cbv zeta.
    change (or_default _ OBS_CONFIG_url) with url.
    destruct (WebSocket_accepts url); repeat split; reflexivity.
Qed.

(** X9. CONNECT_OBS.  With an open socket in hand the worker answers
    and does nothing else.  Otherwise it turns auto-reconnect on, resets
    the attempt counter and, once the storage has answered, creates a
    socket to the stored URL, or to ws://localhost:4455 when none or
    an empty one is stored; when the URL is not one a WebSocket accepts,
    it reports 'Failed to connect', creates no socket and arms no
    retry. *)
Theorem connect_on_request (w : World) (sender : nat) :
  let url := or_default (obsUrl (storage w)) OBS_CONFIG_url in
  (is_Some (open_socket w) ->
   host_step w (RuntimeMessageArrives sender CONNECT_OBS) = respond sender Success w)
  /\ (open_socket w = None ->
      let w' := host_run w [RuntimeMessageArrives sender CONNECT_OBS;
                            TaskResumes (length (tasks w))] in
      autoReconnect w' = true /\ reconnectAttempts w' = 0
      /\ tasks w' = tasks w /\ timers w' = timers w
      /\ if WebSocket_accepts url
         then obsWebSocket w' = Some (length (sockets w))
              /\ sockets w' = sockets w ++ [CONNECTING]
              /\ trace w' = SocketCreated (length (sockets w)) url
                            :: Responded sender Success :: trace w
         else obsWebSocket w' = obsWebSocket w
              /\ sockets w' = sockets w
              /\ trace w' = StatusUpdate (isConnected w) (isAuthenticated w)
                                         (Some (js "Failed to connect"))
                            :: Responded sender Success :: trace w).
Proof.
  intros url. split.
  - intros [s Hs]. cbn [step onMessage]. unfold connectToOBS. rewrite Hs. reflexivity.
  - intros Hopen w'. subst w'. rewrite run_cons. cbn [run fold_left].
    change (host_step w (RuntimeMessageArrives sender CONNECT_OBS))
      with (respond sender Success (connectToOBS true w)).
    unfold connectToOBS. rewrite Hopen. unfold respond, emit, suspend.
    cbn [tasks trace set_tasks set_trace set_reconnectAttempts set_autoReconnect].
    cbn [step]. cbn [tasks set_tasks set_trace].
    rewrite resumed_task_lookup, resumed_task_delete. cbn [resume].
    unfold connectToOBS_resume. cbv zeta.
    cbn [sockets set_tasks set_trace set_reconnectAttempts set_autoReconnect].
    change (or_default _ OBS_CONFIG_url) with url.
    destruct (WebSocket_accepts url); repeat split; reflexivity.
Qed.

(** What GET_SETTINGS answers on a storage. *)
Definition settings_of (stored : Storage) : Response :=
  Settings (or_default (obsUrl stored) OBS_CONFIG_url)
           (or_default (obsPassword stored) [])
           (or_default (browserSourceName stored) OBS_CONFIG_browserSourceName)
           (match displayDuration stored with Some (N.pos d) => N.pos d | _ => 8 end).

Lemma GET_SETTINGS_answers (w : World) (sender : nat) :
  host_run w [RuntimeMessageArrives sender GET_SETTINGS; TaskResumes (length (tasks w))] =
  respond sender (settings_of (storage w))
          (set_tasks (tasks w) (suspend (GetSettingsAfterStorage (storage w) sender) w)).
Proof.
  rewrite run_cons. cbn [run fold_left].
  change (host_step w (RuntimeMessageArrives sender GET_SETTINGS))
    with (suspend (GetSettingsAfterStorage (storage w) sender) w).
  rewrite step_resumes. reflexivity.
Qed.

(** A key of the storage after a save: the value saved under it, or,
    when the saved object lacks the key, the value kept from before. *)
Definition saved_or_kept {A} (saved kept : option A) : option A :=
  match saved with
  | Some value => Some value
  | None => kept
  end.

(** X10. SAVE_SETTINGS then GET_SETTINGS: each setting read back is the
    one saved, or, for a key the saved object lacks, the one the
    storage held before; an absent or empty URL or source name reads
    back as the default, an absent password as the empty string, and an
    absent duration or a duration of 0 as 8; [autoReconnect] is stored
    as true. *)
Theorem settings_read_back (w : World) (sender reader : nat) (data : Storage) :
  let saved := host_step w (RuntimeMessageArrives sender (SAVE_SETTINGS data)) in
  let w' := host_run saved [RuntimeMessageArrives reader GET_SETTINGS;
                            TaskResumes (length (tasks saved))] in
  let url := saved_or_kept (obsUrl data) (obsUrl (storage w)) in
  let password := saved_or_kept (obsPassword data) (obsPassword (storage w)) in
  let sourceName := saved_or_kept (browserSourceName data) (browserSourceName (storage w)) in
  let duration := saved_or_kept (displayDuration data) (displayDuration (storage w)) in
  stored_autoReconnect (storage saved) = Some true
  /\ (exists answer, hd_error (trace w') = Some (Responded reader answer)
       /\ answer =
          Settings (match url with
                    | Some (c :: url) => c :: url
                    | _ => js "ws://localhost:4455"
                    end)
                   (match password with Some password => password | None => [] end)
                   (match sourceName with
                    | Some (c :: sourceName) => c :: sourceName
                    | _ => js "TwitchHighlight"
                    end)
                   (match duration with
                    | Some duration => if decide (duration = 0) then 8 else duration
                    | None => 8
                    end)
       /\ (forall url password sourceName duration,
              obsUrl data = Some url -> obsPassword data = Some password ->
              browserSourceName data = Some sourceName ->
              displayDuration data = Some duration ->
              answer = Settings (if decide (url = []) then js "ws://localhost:4455" else url)
                                password
                                (if decide (sourceName = [])
                                 then js "TwitchHighlight" else sourceName)
                                (if decide (duration = 0) then 8 else duration))
       /\ (obsUrl data = None -> obsPassword data = None ->
           browserSourceName data = None -> displayDuration data = None ->
           answer = settings_of (storage w))).
Proof.
  intros saved w'.
  assert (Hsaved : saved =
                   suspend (SaveSettingsAfterStorage sender)
                     (set_storage (storage_set (only_autoReconnect true)
                                               (storage_set data (storage w))) w))
    by reflexivity.
  clearbody saved. subst w'. rewrite GET_SETTINGS_answers. subst saved.
  cbv zeta. split; [reflexivity|].
  exists (settings_of (storage_set (only_autoReconnect true) (storage_set data (storage w)))).
  split; [reflexivity|]. split; [|split].
  - unfold settings_of, storage_set, only_autoReconnect, saved_or_kept.
    cbn [obsUrl obsPassword browserSourceName displayDuration from_option].
    unfold or_default. f_equal.
    all: repeat match goal with
                | |- context [from_option Some ?old ?new] =>
                    destruct new; cbn [from_option]
                end.
    all: try reflexivity.
    all: repeat match goal with
                | |- context [match ?x with _ => _ end] => destruct x
                end; try reflexivity; congruence.
  - intros url password sourceName duration Hu Hp Hn Hd.
    unfold settings_of, storage_set, only_autoReconnect.
    cbn [obsUrl obsPassword browserSourceName displayDuration from_option].
    rewrite Hu, Hp, Hn, Hd. cbn [from_option].
    destruct url, password, sourceName, duration; reflexivity.
  - intros Hu Hp Hn Hd.
    unfold settings_of, storage_set, only_autoReconnect.
    cbn [obsUrl obsPassword browserSourceName displayDuration from_option].
    rewrite Hu, Hp, Hn, Hd. reflexivity.
Qed.

(** The worker starts on a storage: its script has run, and the read
    of [autoReconnect] returns. *)
Definition started (stored : Storage) (now : N) : World :=
  host_step (init stored now) (TaskResumes 0).

Lemma started_idle (stored : Storage) (now : N) :
  stored_autoReconnect stored ≠ Some true ->
  started stored now = set_tasks [] (init stored now).
Proof.
  intros Hoff. unfold started. cbn [step init tasks lookup list_lookup].
  cbn. destruct (stored_autoReconnect stored) as [[]|]; try reflexivity.
  destruct Hoff. reflexivity.
Qed.

Lemma started_connecting (stored : Storage) (now : N) :
  stored_autoReconnect stored = Some true ->
  started stored now =
  suspend (ConnectAfterStorage (obsUrl stored))
          (set_autoReconnect true (set_tasks [] (init stored now))).
Proof. intros Hon. unfold started. cbn. rewrite Hon. reflexivity. Qed.

(** X11. A worker that starts on the storage left by DISCONNECT_OBS
    does nothing; one that starts on the storage left by SAVE_SETTINGS
    turns auto-reconnect on and connects to the stored URL. *)
Theorem restart_follows_the_last_request (w : World) (sender : nat) (now : N) :
  (let stored := storage (host_step w (RuntimeMessageArrives sender DISCONNECT_OBS)) in
   started stored now = set_tasks [] (init stored now))
  /\ (forall data,
        let stored := storage (host_step w (RuntimeMessageArrives sender (SAVE_SETTINGS data))) in
        let url := or_default (obsUrl stored) OBS_CONFIG_url in
        let w' := host_step (started stored now) (TaskResumes 0) in
        autoReconnect w' = true /\ tasks w' = []
        /\ (WebSocket_accepts url = true ->
            sockets w' = [CONNECTING] /\ obsWebSocket w' = Some 0%nat
            /\ trace w' = [SocketCreated 0 url])).
Proof.
  split.
  - intros stored. apply started_idle. subst stored.
    change (host_step w (RuntimeMessageArrives sender DISCONNECT_OBS))
      with (respond sender Success
              (disconnectFromOBS
                 (set_storage (storage_set (only_autoReconnect false) (storage w)) w))).
    destruct (disconnectFromOBS_rest
                (set_storage (storage_set (only_autoReconnect false) (storage w)) w))
      as (_ & _ & _ & _ & Hstorage & _).
    revert Hstorage. generalize (disconnectFromOBS
                (set_storage (storage_set (only_autoReconnect false) (storage w)) w)).
    intros d Hstorage. cbn [storage respond emit set_trace]. rewrite Hstorage. discriminate.
  - intros data stored url w'.
    assert (Hon : stored_autoReconnect stored = Some true) by reflexivity.
    clearbody stored. subst w'. rewrite (started_connecting stored now Hon).
    change 0%nat with (length (tasks (set_autoReconnect true (set_tasks [] (init stored now))))).
    rewrite step_resumes. cbn [resume]. unfold connectToOBS_resume. cbv zeta.
    split; [|split].
    + destruct (WebSocket_accepts _); reflexivity.
    + destruct (WebSocket_accepts _); reflexivity.
    + intros Haccepts. subst url. rewrite Haccepts. repeat split; reflexivity.
Qed.

Lemma lookup_last_timer (ts : list Timer) (t : Timer) :
  (ts ++ [t]) !! (length (ts ++ [t]) - 1)%nat = Some t.
Proof.
  rewrite length_app. cbn [length]. replace (length ts + 1 - 1)%nat with (length ts) by lia.
  apply list_lookup_middle. reflexivity.
Qed.

Lemma delete_last_timer (ts : list Timer) (t : Timer) :
  delete (length (ts ++ [t]) - 1)%nat (ts ++ [t]) = ts.
Proof.
  rewrite length_app. cbn [length]. replace (length ts + 1 - 1)%nat with (length ts) by lia.
  rewrite delete_middle. apply app_nil_r.
Qed.

(** The save of the popup, once the storage has answered: the sender
    is answered, the script disconnects, and the reconnect is armed
    half a second ahead. *)
Lemma SAVE_SETTINGS_resumed (w : World) (sender : nat) (data : Storage) :
  let saved := storage_set (only_autoReconnect true) (storage_set data (storage w)) in
  host_run w [RuntimeMessageArrives sender (SAVE_SETTINGS data);
              TaskResumes (length (tasks w))] =
  setTimeout SaveSettingsReconnect 500
    (disconnectFromOBS
       (respond sender Success
          (set_tasks (tasks w)
             (suspend (SaveSettingsAfterStorage sender) (set_storage saved w))))).
Proof.
  intros saved. rewrite run_cons. cbn [run fold_left].
  change (host_step w (RuntimeMessageArrives sender (SAVE_SETTINGS data)))
    with (suspend (SaveSettingsAfterStorage sender) (set_storage saved w)).
  change (length (tasks w)) with (length (tasks (set_storage saved w))).
  rewrite step_resumes. reflexivity.
Qed.

(** X12. SAVE_SETTINGS, once the storage has answered: the script
    disconnects (no socket in hand, auto-reconnect off, keepalive
    stopped) and arms a reconnect 500 ms ahead; when that fires, and
    the storage has answered again, the socket the script held before
    is neither open nor connecting, and a new socket to the saved URL
    is in hand, with auto-reconnect on and the attempt counter at 0. *)
Theorem save_reconnects_to_the_saved_url (w : World) (sender : nat) (data : Storage)
        (url : jsstring) :
  obsUrl data = Some url -> url ≠ [] -> WebSocket_accepts url = true ->
  let w1 := host_run w [RuntimeMessageArrives sender (SAVE_SETTINGS data);
                        TaskResumes (length (tasks w))] in
  let w2 := host_run w1 [TimePasses 500; TimerFires (length (timers w1) - 1);
                         TaskResumes (length (tasks w1))] in
  (obsWebSocket w1 = None /\ autoReconnect w1 = false
   /\ isAuthenticated w1 = false /\ keepAliveInterval w1 = None
   /\ last (timers w1) = Some {| deadline := clock w + 500; kind := SaveSettingsReconnect |})
  /\ (forall s, obsWebSocket w = Some s -> is_Some (sockets w !! s) ->
                sockets w2 !! s ≠ Some OPEN /\ sockets w2 !! s ≠ Some CONNECTING)
  /\ autoReconnect w2 = true /\ reconnectAttempts w2 = 0
  /\ obsWebSocket w2 = Some (length (sockets w))
  /\ sockets w2 !! length (sockets w) = Some CONNECTING
  /\ hd_error (trace w2) = Some (SocketCreated (length (sockets w)) url).
Proof.
  intros Hurl Hne Haccepts w1 w2. subst w2 w1. rewrite SAVE_SETTINGS_resumed. cbv zeta.
  set (saved := storage_set (only_autoReconnect true) (storage_set data (storage w))).
  assert (Hsaved : or_default (obsUrl saved) OBS_CONFIG_url = url).
  { subst saved. unfold storage_set. cbn [obsUrl only_autoReconnect from_option].
    rewrite Hurl. cbn [from_option]. destruct url; [contradiction|reflexivity]. }
  pose proof (disconnectFromOBS_fields
                (respond sender Success
                   (set_tasks (tasks w)
                      (suspend (SaveSettingsAfterStorage sender) (set_storage saved w)))))
    as (_ & Hauto & _ & Hinterval & Htimers & _).
  pose proof (disconnectFromOBS_rest
                (respond sender Success
                   (set_tasks (tasks w)
                      (suspend (SaveSettingsAfterStorage sender) (set_storage saved w)))))
    as (Hsock & Hauth & _ & Htasks & Hstorage & Hclock & _ & _).
  assert (Hcloses : forall s, obsWebSocket w = Some s ->
            sockets (disconnectFromOBS
                       (respond sender Success
                          (set_tasks (tasks w)
                             (suspend (SaveSettingsAfterStorage sender)
                                      (set_storage saved w))))) !! s ≠ Some OPEN
            /\ sockets (disconnectFromOBS
                          (respond sender Success
                             (set_tasks (tasks w)
                                (suspend (SaveSettingsAfterStorage sender)
                                         (set_storage saved w))))) !! s ≠ Some CONNECTING).
  { intros s Hs.
    destruct (disconnectFromOBS_closes
                (respond sender Success
                   (set_tasks (tasks w)
                      (suspend (SaveSettingsAfterStorage sender) (set_storage saved w))))
                s Hs) as (H1 & H2 & _).
    split; assumption. }
  assert (Hlength : length (sockets (disconnectFromOBS
                       (respond sender Success
                          (set_tasks (tasks w)
                             (suspend (SaveSettingsAfterStorage sender)
                                      (set_storage saved w)))))) = length (sockets w)).
  { destruct (disconnectFromOBS_rest
                (respond sender Success
                   (set_tasks (tasks w)
                      (suspend (SaveSettingsAfterStorage sender) (set_storage saved w)))))
      as (_ & _ & _ & _ & _ & _ & _ & Hsockets).
    rewrite Hsockets. cbn [obsWebSocket sockets respond emit set_trace set_tasks suspend
                           set_storage].
    destruct (obsWebSocket w) as [s|]; [|reflexivity].
    destruct (sockets w !! s) as [[]|]; rewrite ?length_insert; reflexivity. }
  cbn [tasks storage clock respond emit set_trace set_tasks suspend set_storage]
    in Htasks, Hstorage, Hclock.
  revert Hauto Hinterval Htimers Hsock Hauth Htasks Hstorage Hclock Hcloses Hlength.
  generalize (stopKeepAlive
                (respond sender Success
                   (set_tasks (tasks w)
                      (suspend (SaveSettingsAfterStorage sender) (set_storage saved w))))).
  generalize (disconnectFromOBS
                (respond sender Success
                   (set_tasks (tasks w)
                      (suspend (SaveSettingsAfterStorage sender) (set_storage saved w))))).
  intros d stopped Hauto Hinterval Htimers Hsock Hauth Htasks Hstorage Hclock Hcloses Hlength.
  split.
  { cbn [obsWebSocket autoReconnect isAuthenticated keepAliveInterval timers setTimeout
         set_timers clock].
    rewrite last_snoc, Hclock. repeat split; assumption. }
  rewrite run_cons, run_cons, run_cons. cbn [run fold_left].
  change (host_step (setTimeout SaveSettingsReconnect 500 d) (TimePasses 500))
    with (set_clock (clock d + 500) (setTimeout SaveSettingsReconnect 500 d)).
  assert (Hfire :
    host_step (set_clock (clock d + 500) (setTimeout SaveSettingsReconnect 500 d))
              (TimerFires (length (timers (setTimeout SaveSettingsReconnect 500 d)) - 1)) =
    connectToOBS true (set_timers (timers d) (set_clock (clock d + 500)
                                               (setTimeout SaveSettingsReconnect 500 d)))).
  { cbn [step]. cbn [timers clock setTimeout set_timers set_clock].
    rewrite lookup_last_timer, delete_last_timer. cbn [deadline].
    rewrite N.leb_refl. reflexivity. }
  rewrite Hfire.
  set (armed := set_timers (timers d) (set_clock (clock d + 500)
                                         (setTimeout SaveSettingsReconnect 500 d))).
  assert (Hopen : open_socket armed = None).
  { unfold open_socket, armed. cbn [obsWebSocket set_timers set_clock setTimeout].
    rewrite Hsock. reflexivity. }
  change (tasks (setTimeout SaveSettingsReconnect 500 d)) with (tasks armed).
  destruct (connect_resumed true armed Hopen) as (Ha & Hr & _ & _ & Hcreated).
  change (storage armed) with (storage d) in Hcreated. rewrite Hstorage, Hsaved in Hcreated.
  rewrite Haccepts in Hcreated. destruct Hcreated as (Ho & Hs & Ht).
  change (sockets armed) with (sockets d) in Ho, Hs, Ht. rewrite Hlength in Ho, Ht.
  split; [|split; [exact Ha|split; [exact Hr|split; [exact Ho|split]]]].
  - intros s Hs' Hreal. rewrite Hs. destruct (Hcloses s Hs') as [H1 H2].
    apply lookup_lt_is_Some in Hreal. rewrite lookup_app_l by lia. auto.
  - rewrite Hs, <- Hlength. apply list_lookup_middle. reflexivity.
  - rewrite Ht. reflexivity.
Qed.

(** ** A highlight that gets no answer *)

(** The fetch of a highlight gets no answer: ten seconds after the
    click the sender is told 'Request timeout'. *)
Lemma highlight_begins_timer (w : World) (s sender : nat) (data : MessageData) :
  isAuthenticated w = true ->
  holds_open s w ->
  let w' := host_run w (highlight_asked sender data w) in
  timers w' = timers w ++ [{| deadline := clock w + 10000;
                              kind := RequestTimeout (request_id (messageRequestId w)) |}]
  /\ clock w' = clock w.
Proof.
  intros Hauth Hholds w'. subst w'. pose proof Hholds as [Hsock Hopen].
  unfold highlight_asked. rewrite run_cons, run_cons, run_nil.
  change (host_step w (RuntimeMessageArrives sender (HIGHLIGHT_MESSAGE data)))
    with (onMessage sender (HIGHLIGHT_MESSAGE data) w).
  rewrite (highlight_suspends_at_storage w sender data Hauth).
  rewrite step_resumes. cbn [resume].
  rewrite (highlight_issues_fetch _ s).
  - split; reflexivity.
  - apply holds_open_socket. split; assumption.
Qed.

(** X19. The fetch of a highlight gets no answer: when its timeout
    fires, ten seconds after the click, the sender is answered
    [{success: false, error: 'Request timeout'}], the request is pending
    no more, and nothing else was sent. *)
Theorem highlight_times_out (w : World) (s sender : nat) (data : MessageData) :
  isAuthenticated w = true ->
  obsWebSocket w = Some s -> sockets w !! s = Some OPEN ->
  let n := messageRequestId w in
  let timeout := Rejected (Error (js "Request timeout")) in
  let w' := host_run w (highlight_asked sender data w ++
                        [TimePasses 10000; TimerFires (length (timers w))]) in
  trace w' =
    [Responded sender (Failure (js "Request timeout"));
     Settle (request_id n) timeout;
     Sent s (Request (js "GetInputSettings") (request_id n)
                     (JObj [(js "inputName", JStr (configured_sourceName (storage w)))]))]
      ++ trace w
  /\ pendingRequests w' !! request_id n = None
  /\ messageRequestId w' = n + 1
  /\ timers w' = timers w.
Proof.
  intros Hauth Hsock Hopen n timeout w'.
  assert (Hholds : holds_open s w) by (split; assumption).
  destruct (highlight_begins w s sender data Hauth Hholds) as (Ht1 & _ & _ & Hn1 & Hp1).
  destruct (highlight_begins_timer w s sender data Hauth Hholds) as (Htimers & Hclock).
  fold (highlight_asked sender data w) in Ht1, Hn1, Hp1. fold n in Ht1, Hn1, Hp1, Htimers.
  subst w'. rewrite run_app.
  remember (host_run w (highlight_asked sender data w)) as w1 eqn:E1. clear E1.
  rewrite run_cons, run_cons, run_nil.
  change (host_step w1 (TimePasses 10000)) with (set_clock (clock w1 + 10000) w1).
  rewrite (step_TimerFires _ (length (timers w))
             {| deadline := clock w + 10000; kind := RequestTimeout (request_id n) |}).
  - unfold fire. cbn [kind]. unfold request_timeout.
    cbn [pendingRequests set_timers set_clock]. rewrite Hp1, lookup_insert_eq.
    unfold settle, resume_waiter. rewrite fetch_waiter_rejected.
    cbn [awaited exec highlight_response error_message respond emit set_trace trace
         pendingRequests messageRequestId timers set_pendingRequests set_timers set_clock].
    rewrite Ht1, Hn1, Htimers, delete_middle, app_nil_r, lookup_delete_eq.
    repeat split; reflexivity.
  - cbn [timers set_clock]. rewrite Htimers. apply list_lookup_middle. reflexivity.
  - cbn [deadline clock set_clock]. rewrite Hclock. apply N.leb_refl.
Qed.

(** X20. A highlight while the script is authenticated and holds no
    open socket: the fetch is rejected on the spot, its id is used up
    and its timeout armed all the same, nothing is sent, and the sender
    is answered [{success: false, error: 'WebSocket not connected'}]. *)
Theorem highlight_without_socket (w : World) (sender : nat) (data : MessageData) :
  isAuthenticated w = true ->
  open_socket w = None ->
  let n := messageRequestId w in
  let w' := host_run w (highlight_asked sender data w) in
  trace w' =
    [Responded sender (Failure (js "WebSocket not connected"));
     Settle (request_id n) (Rejected (Error (js "WebSocket not connected")))]
      ++ trace w
  /\ messageRequestId w' = n + 1
  /\ tasks w' = tasks w
  /\ pendingRequests w' = delete (request_id n) (<[request_id n :=
        HighlightWaiter (fetch_waiter data (storage w) (clock w)) sender]> (pendingRequests w))
  /\ last (timers w') = Some {| deadline := clock w + 10000;
                                kind := RequestTimeout (request_id n) |}.
Proof.
  intros Hauth Hopen n w'. subst w'.
  unfold highlight_asked. rewrite run_cons, run_cons, run_nil.
  change (host_step w (RuntimeMessageArrives sender (HIGHLIGHT_MESSAGE data)))
    with (onMessage sender (HIGHLIGHT_MESSAGE data) w).
  rewrite (highlight_suspends_at_storage w sender data Hauth).
  rewrite step_resumes. cbn [resume].
  unfold highlight_after_storage, sendHighlightToOBS.
  cbn [exec mbind Proc_bind proc_bind try_catch sendRequest_await negb].
  unfold sendRequest, sendToOBS, setTimeout. cbv zeta.
  change (open_socket (set_timers _ _)) with (open_socket w). rewrite Hopen.
  cbn [awaited proc_bind try_catch exec].
  cbn [highlight_response error_message respond emit set_trace trace tasks
       pendingRequests messageRequestId timers set_pendingRequests set_timers
       set_messageRequestId suspend set_tasks clock].
  rewrite last_snoc. repeat split; reflexivity.
Qed.

End Worker.

From Stdlib Require HexadecimalString.

(** ** The digest in hexadecimal: [sha256] *)

(** [n.toString(16)] of a non-negative integer. *)
Definition Number_toString_16 (n : N) : jsstring :=
  js (HexadecimalString.NilEmpty.string_of_uint (N.to_hex_uint n)).

(** [s.padStart(targetLength, pad)] for a pad of one code unit. *)
Definition String_padStart (targetLength : nat) (pad : N) (s : jsstring) : jsstring :=
  repeat pad (targetLength - length s) ++ s.

Definition digit_zero : N := 48.

Definition sha256 (message : jsstring) : Settled jsstring :=
  let data := TextEncoder_encode message in
  let hashArray := map Byte.to_N (SHA256.digest data) in
  Fulfilled (concat (map (fun b => String_padStart 2 digit_zero (Number_toString_16 b))
                         hashArray)).

(** Hexadecimal read back, two digits to the octet. *)
Fixpoint spec_hex_decode (s : jsstring) : option (list N) :=
  match s with
  | [] => Some []
  | h :: l :: rest =>
      match hex_digit_value h, hex_digit_value l, spec_hex_decode rest with
      | Some a, Some b, Some octets => Some (16 * a + b :: octets)
      | _, _, _ => None
      end
  | [_] => None
  end.

Definition is_lower_hex (c : N) : bool :=
  ((48 <=? c) && (c <=? 57)) || ((97 <=? c) && (c <=? 102)).

(** One octet, as [sha256] writes it. *)
Definition hex_of_octet (b : N) : jsstring :=
  String_padStart 2 digit_zero (Number_toString_16 b).

Definition hex_of_octet_ok (b : N) : bool :=
  match hex_of_octet b with
  | [h; l] =>
      is_lower_hex h && is_lower_hex l
      && match hex_digit_value h, hex_digit_value l with
         | Some x, Some y => 16 * x + y =? b
         | _, _ => false
         end
  | _ => false
  end.

Lemma hex_of_octet_spec (b : N) : b < 256 -> hex_of_octet_ok b = true.
Proof. apply (for_all_octets hex_of_octet_ok). vm_compute. reflexivity. Qed.

Lemma hex_of_octets (bs : list N) :
  Forall (fun b => b < 256) bs ->
  let h := concat (map hex_of_octet bs) in
  length h = (2 * length bs)%nat
  /\ forallb is_lower_hex h = true
  /\ spec_hex_decode h = Some bs.
Proof.
  induction bs as [|b bs IH]; intros Hbs; [repeat split; reflexivity|].
  apply Forall_cons in Hbs as [Hb Hbs]. specialize (IH Hbs) as (Hlen & Hhex & Hdec).
  pose proof (hex_of_octet_spec b Hb) as Hok. unfold hex_of_octet_ok in Hok.
  cbn [map concat]. destruct (hex_of_octet b) as [|h [|l [|? ?]]]; try discriminate.
  apply andb_true_iff in Hok as [Hok Hval]. apply andb_true_iff in Hok as [Hh Hl].
  destruct (hex_digit_value h) as [x|] eqn:Hx; [|discriminate].
  destruct (hex_digit_value l) as [y|] eqn:Hy; [|discriminate].
  apply N.eqb_eq in Hval.
  cbn [app length forallb spec_hex_decode]. rewrite Hx, Hy, Hh, Hl, Hdec, Hlen, Hval.
  repeat split; [lia|exact Hhex].
Qed.

(** X13. [sha256] fulfils with the SHA-256 digest of the UTF-8 bytes of
    its argument as 64 lower-case hexadecimal digits, the same 32 octets
    that [sha256Base64] gives in base64. *)
Theorem sha256_is_the_digest_in_hexadecimal (message : jsstring) :
  exists hex base64,
    sha256 message = Fulfilled hex
    /\ sha256Base64 message = Fulfilled base64
    /\ length hex = 64%nat
    /\ forallb is_lower_hex hex = true
    /\ spec_hex_decode hex = Some (map Byte.to_N (spec_SHA256 message))
    /\ spec_base64_decode base64 = spec_hex_decode hex.
Proof.
  destruct (hex_of_octets (map Byte.to_N (spec_SHA256 message)) (bytes_are_octets _))
    as (Hlen & Hhex & Hdec).
  exists (concat (map hex_of_octet (map Byte.to_N (spec_SHA256 message)))),
         (spec_base64 (spec_SHA256 message)).
  split; [reflexivity|]. split; [apply sha256Base64_spec|].
  split; [rewrite Hlen, length_map; unfold spec_SHA256; rewrite digest_length; reflexivity|].
  split; [exact Hhex|]. split; [exact Hdec|].
  rewrite Hdec. apply spec_base64_decode_encode, bytes_are_octets.
Qed.

(** * The popup and the content script *)

(** ** Strings of the host language *)

(** White space and line terminators: what [String.prototype.trim]
    strips, what [parseInt] skips, and what [\s] matches. *)
Definition is_whitespace (c : N) : bool :=
  ((9 <=? c) && (c <=? 13)) || (c =? 32) || (c =? 0xA0) || (c =? 0x1680)
  || ((0x2000 <=? c) && (c <=? 0x200A)) || (c =? 0x2028) || (c =? 0x2029)
  || (c =? 0x202F) || (c =? 0x205F) || (c =? 0x3000) || (c =? 0xFEFF).

Fixpoint String_trimStart (s : jsstring) : jsstring :=
  match s with
  | c :: rest => if is_whitespace c then String_trimStart rest else s
  | [] => []
  end.

Definition String_trimEnd (s : jsstring) : jsstring := rev (String_trimStart (rev s)).

Definition String_trim (s : jsstring) : jsstring := String_trimEnd (String_trimStart s).

(** The value of a digit in a radix up to 16. *)
Definition radix_digit (radix c : N) : option N :=
  match hex_digit_value c with
  | Some d => if d <? radix then Some d else None
  | None => None
  end.

(** The digits at the head of a string, read in [radix]: their value
    and their number. *)
Fixpoint leading_digits (radix : N) (s : jsstring) (value : N) (count : nat) : N * nat :=
  match s with
  | c :: rest =>
      match radix_digit radix c with
      | Some d => leading_digits radix rest (radix * value + d) (S count)
      | None => (value, count)
      end
  | [] => (value, count)
  end.

Definition minus_sign : N := 45.

(** [parseInt(string)] with no radix given: white space is skipped, a
    sign is read, [0x] or [0X] selects radix 16, and the digits that
    follow are read as far as they go.  [None] is NaN.  The value is
    the integer the digits denote; the host rounds it to a double, which
    leaves its sign and its order with respect to 1 and 60 as they
    are. *)
Definition parseInt (string : jsstring) : option Z :=
  let trimmed := String_trimStart string in
  let '(negative, unsigned) :=
    match trimmed with
    | c :: rest =>
        if c =? minus_sign then (true, rest)
        else if c =? plus_sign then (false, rest)
        else (false, trimmed)
    | [] => (false, trimmed)
    end in
  let '(radix, digits) :=
    match unsigned with
    | c :: x :: rest =>
        if (c =? 48) && ((x =? 120) || (x =? 88)) then (16, rest) else (10, unsigned)
    | _ => (10, unsigned)
    end in
  match leading_digits radix digits 0 0 with
  | (_, O) => None
  | (value, _) => Some (if negative then - Z.of_N value else Z.of_N value)%Z
  end.

(** The display duration as [saveSettings] validates it:
    [parseInt(value) || 8], clamped between 1 and 60. *)
Definition validated_duration (value : jsstring) : Z :=
  let duration :=
    match parseInt value with
    | Some n => if (n =? 0)%Z then 8%Z else n
    | None => 8%Z
    end in
  Z.max 1 (Z.min 60 duration).

(** [Number_toString] writes decimal digits, and [leading_digits]
    reads them back. *)
Fixpoint uint_value (d : Decimal.uint) (value : N) : N :=
  match d with
  | Decimal.Nil => value
  | Decimal.D0 d => uint_value d (10 * value)
  | Decimal.D1 d => uint_value d (10 * value + 1)
  | Decimal.D2 d => uint_value d (10 * value + 2)
  | Decimal.D3 d => uint_value d (10 * value + 3)
  | Decimal.D4 d => uint_value d (10 * value + 4)
  | Decimal.D5 d => uint_value d (10 * value + 5)
  | Decimal.D6 d => uint_value d (10 * value + 6)
  | Decimal.D7 d => uint_value d (10 * value + 7)
  | Decimal.D8 d => uint_value d (10 * value + 8)
  | Decimal.D9 d => uint_value d (10 * value + 9)
  end.

Lemma uint_value_acc (d : Decimal.uint) (p : positive) :
  uint_value d (N.pos p) = N.pos (Pos.of_uint_acc d p).
Proof.
  revert p. induction d; intros p; cbn [uint_value Pos.of_uint_acc]; try reflexivity;
    rewrite <- IHd; f_equal; lia.
Qed.

Lemma uint_value_of_uint (d : Decimal.uint) : uint_value d 0 = N.of_uint d.
Proof.
  unfold N.of_uint. induction d; cbn [uint_value Pos.of_uint]; try reflexivity;
    try (rewrite <- uint_value_acc; f_equal; lia).
  exact IHd.
Qed.

Definition stops_digits (rest : jsstring) : Prop :=
  match rest with
  | c :: _ => radix_digit 10 c = None
  | [] => True
  end.

Lemma leading_digits_stop (rest : jsstring) (value : N) (count : nat) :
  stops_digits rest -> leading_digits 10 rest value count = (value, count).
Proof. destruct rest as [|c rest]; [reflexivity|]. cbn. intros ->. reflexivity. Qed.

Lemma leading_digits_uint (d : Decimal.uint) (rest : jsstring) (value : N) (count : nat) :
  stops_digits rest ->
  leading_digits 10 (js (NilEmpty.string_of_uint d) ++ rest) value count =
  (uint_value d value, (count + Decimal.nb_digits d)%nat).
Proof.
  intros Hrest. revert value count.
  induction d; intros value count;
    cbn [NilEmpty.string_of_uint uint_value Decimal.nb_digits];
    [rewrite Nat.add_0_r; apply leading_digits_stop, Hrest|..];
    (change (js (String ?a ?s)) with (N_of_ascii a :: js s));
    cbn [app leading_digits];
    match goal with
    | |- context [radix_digit 10 (N_of_ascii ?a)] =>
        let v := eval vm_compute in (radix_digit 10 (N_of_ascii a)) in
        change (radix_digit 10 (N_of_ascii a)) with v
    end;
    cbv iota beta; rewrite IHd, ?N.add_0_r, Nat.add_succ_r; reflexivity.
Qed.

Lemma nb_digits_to_uint (n : N) : (0 < Decimal.nb_digits (N.to_uint n))%nat.
Proof.
  destruct n as [|p]; [cbn; lia|]. cbn [N.to_uint].
  pose proof (DecimalPos.Unsigned.to_uint_nonnil p) as Hnn.
  destruct (Pos.to_uint p); [congruence|cbn; lia..].
Qed.

Lemma leading_digits_Number_toString (n : N) (rest : jsstring) :
  stops_digits rest ->
  exists count, leading_digits 10 (Number_toString n ++ rest) 0 0 = (n, S count).
Proof.
  intros Hrest. unfold Number_toString.
  rewrite (leading_digits_uint _ rest 0 0 Hrest), uint_value_of_uint,
    DecimalN.Unsigned.of_to.
  pose proof (nb_digits_to_uint n). cbn [Nat.add].
  destruct (Decimal.nb_digits (N.to_uint n)); [lia|]. eauto.
Qed.

Definition is_digit (c : N) : bool := (48 <=? c) && (c <=? 57).

Lemma trimStart_whitespace (ws s : jsstring) :
  forallb is_whitespace ws = true ->
  match s with c :: _ => is_whitespace c = false | [] => True end ->
  String_trimStart (ws ++ s) = s.
Proof.
  intros Hws Hs. induction ws as [|w ws IH]; cbn [app String_trimStart].
  - destruct s as [|c s]; [reflexivity|]. cbn [String_trimStart]. rewrite Hs. reflexivity.
  - cbn [forallb] in Hws. apply andb_true_iff in Hws as [-> Hws]. apply IH, Hws.
Qed.

Lemma Number_toString_digits (n : N) :
  exists c tail, Number_toString n = c :: tail /\ forallb is_digit (c :: tail) = true.
Proof.
  unfold Number_toString.
  assert (Hall : forall d, forallb is_digit (js (NilEmpty.string_of_uint d)) = true).
  { induction d; cbn [NilEmpty.string_of_uint]; [reflexivity|..];
      (change (js (String ?a ?s)) with (N_of_ascii a :: js s)); cbn [forallb];
      rewrite IHd; reflexivity. }
  pose proof (nb_digits_to_uint n) as Hpos. specialize (Hall (N.to_uint n)).
  destruct (N.to_uint n) as [|d|d|d|d|d|d|d|d|d|d]; [cbn in Hpos; lia|..];
    cbn [NilEmpty.string_of_uint] in *;
    (change (js (String ?a ?s)) with (N_of_ascii a :: js s) in * );
    eauto.
Qed.

(** Where a number ends: at the end of the string, or before a code
    unit that is no decimal digit and no [x]. *)
Definition ends_number (rest : jsstring) : Prop :=
  match rest with
  | c :: _ => radix_digit 10 c = None /\ c ≠ 120 /\ c ≠ 88
  | [] => True
  end.

Lemma is_digit_bounds (c : N) : is_digit c = true -> 48 <= c <= 57.
Proof. unfold is_digit. intros [H1 H2]%andb_true_iff. apply N.leb_le in H1, H2. lia. Qed.

Lemma is_digit_not_whitespace (c : N) : is_digit c = true -> is_whitespace c = false.
Proof.
  intros H%is_digit_bounds. unfold is_whitespace.
  repeat (apply orb_false_iff; split); try (apply N.eqb_neq; lia);
    apply andb_false_iff; (left; apply N.leb_gt; lia) || (right; apply N.leb_gt; lia).
Qed.

(** The number at the head of a string of digits is read in radix 10. *)
Lemma no_hex_prefix (c : N) (tail rest : jsstring) :
  forallb is_digit (c :: tail) = true -> ends_number rest ->
  match c :: tail ++ rest with
  | c :: x :: r =>
      if (c =? 48) && ((x =? 120) || (x =? 88)) then (16, r) else (10, c :: tail ++ rest)
  | _ => (10, c :: tail ++ rest)
  end = (10, c :: tail ++ rest).
Proof.
  intros Hdigits Hrest. cbn [forallb] in Hdigits. apply andb_true_iff in Hdigits as [_ Htail].
  destruct tail as [|x tail]; cbn [app].
  - destruct rest as [|x rest]; [reflexivity|]. destruct Hrest as (_ & H1 & H2).
    apply N.eqb_neq in H1, H2. rewrite H1, H2, andb_false_r. reflexivity.
  - cbn [forallb] in Htail. apply andb_true_iff in Htail as [Hx%is_digit_bounds _].
    assert (H1 : (x =? 120) = false) by (apply N.eqb_neq; lia).
    assert (H2 : (x =? 88) = false) by (apply N.eqb_neq; lia).
    rewrite H1, H2, andb_false_r. reflexivity.
Qed.

Lemma parseInt_decimal (ws rest : jsstring) (n : N) :
  forallb is_whitespace ws = true -> ends_number rest ->
  parseInt (ws ++ Number_toString n ++ rest) = Some (Z.of_N n)
  /\ parseInt (ws ++ minus_sign :: Number_toString n ++ rest) = Some (- Z.of_N n)%Z
  /\ parseInt (ws ++ plus_sign :: Number_toString n ++ rest) = Some (Z.of_N n).
Proof.
  intros Hws Hrest.
  assert (Hstops : stops_digits rest).
  { destruct rest as [|c rest]; [exact I|]. apply Hrest. }
  destruct (leading_digits_Number_toString n rest Hstops) as [count Hread].
  destruct (Number_toString_digits n) as (c & tail & Hn & Hdigits).
  rewrite Hn in *. cbn [app] in Hread.
  pose proof (no_hex_prefix c tail rest Hdigits Hrest) as Hprefix.
  pose proof Hdigits as Hc. cbn [forallb] in Hc. apply andb_true_iff in Hc as [Hc _].
  pose proof (is_digit_bounds c Hc) as Hbounds.
  pose proof (is_digit_not_whitespace c Hc) as Hnw.
  assert (Hm : (c =? minus_sign) = false) by (apply N.eqb_neq; unfold minus_sign; lia).
  assert (Hp : (c =? plus_sign) = false) by (apply N.eqb_neq; unfold plus_sign; lia).
  split; [|split]; unfold parseInt.
  - rewrite trimStart_whitespace by (cbn [app]; assumption).
    cbn [app]. rewrite Hm, Hp, Hprefix, Hread. reflexivity.
  - rewrite trimStart_whitespace by (try exact Hws; reflexivity).
    rewrite N.eqb_refl. cbn [app]. rewrite Hprefix, Hread. reflexivity.
  - rewrite trimStart_whitespace by (try exact Hws; reflexivity).
    change (plus_sign =? minus_sign) with false. rewrite N.eqb_refl.
    cbn [app]. rewrite Hprefix, Hread. reflexivity.
Qed.

Lemma parseInt_no_number (ws rest : jsstring) (c : N) :
  forallb is_whitespace ws = true ->
  is_whitespace c = false -> radix_digit 10 c = None ->
  c ≠ minus_sign -> c ≠ plus_sign ->
  parseInt ws = None /\ parseInt (ws ++ c :: rest) = None.
Proof.
  intros Hws Hc Hd Hm Hp. split; unfold parseInt.
  - rewrite <- (app_nil_r ws), trimStart_whitespace by (try exact Hws; exact I). reflexivity.
  - rewrite trimStart_whitespace by assumption.
    apply N.eqb_neq in Hm, Hp. rewrite Hm, Hp.
    assert (H48 : (c =? 48) = false).
    { apply N.eqb_neq. intros ->. vm_compute in Hd. discriminate. }
    destruct rest as [|x rest]; rewrite ?H48; cbn [andb leading_digits]; rewrite Hd;
      reflexivity.
Qed.

Lemma validated_duration_range (value : jsstring) : (1 <= validated_duration value <= 60)%Z.
Proof. unfold validated_duration. cbv zeta. lia. Qed.

Lemma validated_duration_decimal (ws rest : jsstring) (n : N) :
  forallb is_whitespace ws = true -> ends_number rest ->
  validated_duration (ws ++ Number_toString n ++ rest) =
    (if n =? 0 then 8%Z else Z.of_N (N.min 60 n))
  /\ validated_duration (ws ++ minus_sign :: Number_toString n ++ rest) =
     (if n =? 0 then 8%Z else 1%Z).
Proof.
  intros Hws Hrest.
  destruct (parseInt_decimal ws rest n Hws Hrest) as (Hplain & Hminus & _).
  unfold validated_duration. rewrite Hplain, Hminus.
  destruct (N.eqb_spec n 0) as [->|Hn]; [split; reflexivity|].
  assert (H1 : (Z.of_N n =? 0)%Z = false) by (apply Z.eqb_neq; lia).
  assert (H2 : (- Z.of_N n =? 0)%Z = false) by (apply Z.eqb_neq; lia).
  rewrite H1, H2. split; lia.
Qed.

(** X14. The duration the popup saves is between 1 and 60, whatever
    the field holds: a decimal number is kept when it lies between 1 and
    60 and moved to the nearer bound otherwise; 0, like a field without
    a number, gives 8; a negative number gives 1. *)
Theorem saved_duration_is_valid (value : jsstring) :
  (1 <= validated_duration value <= 60)%Z
  /\ (forall ws rest n,
        forallb is_whitespace ws = true -> ends_number rest ->
        validated_duration (ws ++ Number_toString n ++ rest) =
          (if n =? 0 then 8%Z else Z.of_N (N.min 60 n))
        /\ validated_duration (ws ++ minus_sign :: Number_toString n ++ rest) =
           (if n =? 0 then 8%Z else 1%Z))
  /\ (forall ws rest c,
        forallb is_whitespace ws = true ->
        is_whitespace c = false -> radix_digit 10 c = None ->
        c ≠ minus_sign -> c ≠ plus_sign ->
        validated_duration ws = 8%Z /\ validated_duration (ws ++ c :: rest) = 8%Z).
Proof.
  split; [apply validated_duration_range|]. split.
  - intros ws rest n. apply validated_duration_decimal.
  - intros ws rest c Hws Hc Hd Hm Hp.
    destruct (parseInt_no_number ws rest c Hws Hc Hd Hm Hp) as [H1 H2].
    unfold validated_duration. rewrite H1, H2. split; reflexivity.
Qed.

(** *** Trimming *)

Lemma trimStart_head (s : jsstring) :
  match String_trimStart s with c :: _ => is_whitespace c = false | [] => True end.
Proof.
  induction s as [|c s IH]; [exact I|]. cbn [String_trimStart].
  destruct (is_whitespace c) eqn:Hc; [exact IH|exact Hc].
Qed.

Lemma trimStart_fixed (s : jsstring) :
  match s with c :: _ => is_whitespace c = false | [] => True end ->
  String_trimStart s = s.
Proof. destruct s as [|c s]; [reflexivity|]. cbn [String_trimStart]. intros ->. reflexivity. Qed.

Lemma trimStart_snoc (l : jsstring) (c : N) :
  is_whitespace c = false -> exists pre, String_trimStart (l ++ [c]) = pre ++ [c].
Proof.
  intros Hc. induction l as [|a l IH]; cbn [app String_trimStart].
  - rewrite Hc. exists []. reflexivity.
  - destruct (is_whitespace a); [exact IH|]. exists (a :: l). reflexivity.
Qed.

(** A trimmed string neither begins nor ends with white space. *)
Definition trimmed (s : jsstring) : Prop :=
  match s with c :: _ => is_whitespace c = false | [] => True end
  /\ match rev s with c :: _ => is_whitespace c = false | [] => True end.

Lemma trimEnd_keeps_head (t : jsstring) :
  match t with c :: _ => is_whitespace c = false | [] => True end ->
  match String_trimEnd t with c :: _ => is_whitespace c = false | [] => True end.
Proof.
  destruct t as [|c r]; [intros _; exact I|]. intros Hc. unfold String_trimEnd.
  cbn [rev]. destruct (trimStart_snoc (rev r) c Hc) as [pre ->].
  rewrite rev_app_distr. cbn. exact Hc.
Qed.

Lemma trim_trimmed (s : jsstring) : trimmed (String_trim s).
Proof.
  split.
  - apply trimEnd_keeps_head, trimStart_head.
  - unfold String_trim, String_trimEnd. rewrite rev_involutive. apply trimStart_head.
Qed.

Lemma trim_fixed (s : jsstring) : trimmed s -> String_trim s = s.
Proof.
  intros [Hhead Hlast]. unfold String_trim, String_trimEnd.
  rewrite (trimStart_fixed s Hhead), (trimStart_fixed (rev s) Hlast). apply rev_involutive.
Qed.

Lemma trim_idempotent (s : jsstring) : String_trim (String_trim s) = String_trim s.
Proof. apply trim_fixed, trim_trimmed. Qed.

(** ** The popup ([popup.js]) *)

Module PopupJs.

(** The fields of the form. *)
Record Form := {
  obsUrlInput : jsstring;
  obsPasswordInput : jsstring;
  browserSourceNameInput : jsstring;
  displayDurationInput : jsstring;
  showAvatarCheckbox : bool
}.

(** [saveSettings]: the duration field is rewritten with the validated
    duration, and the settings go to the worker.  The message also
    carries [showAvatar], a key the worker stores and never reads. *)
Definition saveSettings (form : Form) : Form * RuntimeMessage :=
  let duration := validated_duration (displayDurationInput form) in
  let form := {| obsUrlInput := obsUrlInput form;
                 obsPasswordInput := obsPasswordInput form;
                 browserSourceNameInput := browserSourceNameInput form;
                 displayDurationInput := Number_toString (Z.to_N duration);
                 showAvatarCheckbox := showAvatarCheckbox form |} in
  (form,
   SAVE_SETTINGS
     {| obsUrl := Some (or_default (Some (String_trim (obsUrlInput form)))
                                   (js "ws://localhost:4455"));
        obsPassword := Some (obsPasswordInput form);
        browserSourceName :=
          Some (or_default (Some (String_trim (browserSourceNameInput form)))
                           (js "TwitchHighlight"));
        displayDuration := Some (Z.to_N duration);
        stored_autoReconnect := None |}).

(** [loadSettings], on the answer of the worker to GET_SETTINGS.  The
    answer has no [showAvatar], so that [response.showAvatar !== false]
    holds. *)
Definition loadSettings (response : Response) : Form :=
  match response with
  | Settings url password sourceName duration =>
      {| obsUrlInput := or_default (Some url) (js "ws://localhost:4455");
         obsPasswordInput := password;
         browserSourceNameInput := or_default (Some sourceName) (js "TwitchHighlight");
         displayDurationInput := Number_toString (if duration =? 0 then 8 else duration);
         showAvatarCheckbox := true |}
  | _ =>
      {| obsUrlInput := js "ws://localhost:4455";
         obsPasswordInput := [];
         browserSourceNameInput := js "TwitchHighlight";
         displayDurationInput := Number_toString 8;
         showAvatarCheckbox := true |}
  end.

End PopupJs.

Lemma or_default_trim_fixed (s fallback : jsstring) :
  trimmed fallback ->
  String_trim (or_default (Some (String_trim s)) fallback) =
  or_default (Some (String_trim s)) fallback.
Proof.
  intros Hf. apply trim_fixed. destruct (String_trim s) eqn:E; [exact Hf|].
  cbn [or_default]. rewrite <- E. apply trim_trimmed.
Qed.

Lemma or_default_twice (s fallback : jsstring) :
  fallback ≠ [] ->
  or_default (Some (or_default (Some s) fallback)) fallback = or_default (Some s) fallback.
Proof. intros Hf. destruct s; cbn [or_default]; [|reflexivity]. destruct fallback; congruence. Qed.

Lemma validated_duration_printed (d : Z) :
  (1 <= d <= 60)%Z -> validated_duration (Number_toString (Z.to_N d)) = d.
Proof.
  intros Hd.
  destruct (validated_duration_decimal [] [] (Z.to_N d) eq_refl I) as [H _].
  cbn [app] in H. rewrite app_nil_r in H. rewrite H.
  destruct (N.eqb_spec (Z.to_N d) 0); lia.
Qed.

Section PopupAndWorker.

Variable WebSocket_accepts : jsstring -> bool.

Local Abbreviation host_step := (step WebSocket_accepts).
Local Abbreviation host_run := (run WebSocket_accepts).

(** The form the popup shows when it opens after [form] was saved:
    the worker stores the message, answers GET_SETTINGS, and the
    popup loads the answer. *)
Definition reopened (w : World) (form : PopupJs.Form) : option PopupJs.Form :=
  let saved := host_step w (RuntimeMessageArrives 0 (PopupJs.saveSettings form).2) in
  let w' := host_run saved [RuntimeMessageArrives 1 GET_SETTINGS;
                            TaskResumes (length (tasks saved))] in
  match trace w' with
  | Responded _ answer :: _ => Some (PopupJs.loadSettings answer)
  | _ => None
  end.

Lemma reopened_shows (w : World) (form : PopupJs.Form) (data : Storage) :
  (PopupJs.saveSettings form).2 = SAVE_SETTINGS data ->
  reopened w form =
  Some (PopupJs.loadSettings
          (settings_of (storage_set (only_autoReconnect true) (storage_set data (storage w))))).
Proof.
  intros Hmsg. unfold reopened. rewrite Hmsg.
  change (host_step w (RuntimeMessageArrives 0 (SAVE_SETTINGS data)))
    with (suspend (SaveSettingsAfterStorage 0)
            (set_storage (storage_set (only_autoReconnect true)
                                      (storage_set data (storage w))) w)).
  cbv zeta. rewrite GET_SETTINGS_answers. reflexivity.
Qed.

(** X15. The popup ([popup.js]) reopened after a save shows what was
    saved: the URL and the source name trimmed, or their defaults when
    nothing is left of them, the password as typed, the validated
    duration, and the avatar box checked whatever it was; saving what
    is shown sends the same URL, password, source name and duration
    again, and reopening shows it unchanged. *)
Theorem popup_shows_what_it_saved (w : World) (form : PopupJs.Form) :
  exists shown,
    reopened w form = Some shown
    /\ PopupJs.obsUrlInput shown =
       (if decide (String_trim (PopupJs.obsUrlInput form) = [])
        then js "ws://localhost:4455" else String_trim (PopupJs.obsUrlInput form))
    /\ PopupJs.obsPasswordInput shown = PopupJs.obsPasswordInput form
    /\ PopupJs.browserSourceNameInput shown =
       (if decide (String_trim (PopupJs.browserSourceNameInput form) = [])
        then js "TwitchHighlight" else String_trim (PopupJs.browserSourceNameInput form))
    /\ PopupJs.displayDurationInput shown =
       Number_toString (Z.to_N (validated_duration (PopupJs.displayDurationInput form)))
    /\ PopupJs.showAvatarCheckbox shown = true
    /\ (PopupJs.saveSettings shown).2 = (PopupJs.saveSettings form).2
    /\ reopened w shown = Some shown.
Proof.
  pose proof (validated_duration_range (PopupJs.displayDurationInput form)) as Hd.
  set (d := validated_duration (PopupJs.displayDurationInput form)) in *.
  set (url := String_trim (PopupJs.obsUrlInput form)).
  set (name := String_trim (PopupJs.browserSourceNameInput form)).
  set (shown := {| PopupJs.obsUrlInput := or_default (Some url) (js "ws://localhost:4455");
                   PopupJs.obsPasswordInput := PopupJs.obsPasswordInput form;
                   PopupJs.browserSourceNameInput :=
                     or_default (Some name) (js "TwitchHighlight");
                   PopupJs.displayDurationInput := Number_toString (Z.to_N d);
                   PopupJs.showAvatarCheckbox := true |}).
  assert (Hload : forall stored,
             PopupJs.loadSettings
               (settings_of
                  (storage_set (only_autoReconnect true)
                     (storage_set
                        {| obsUrl := Some (or_default (Some url) (js "ws://localhost:4455"));
                           obsPassword := Some (PopupJs.obsPasswordInput form);
                           browserSourceName :=
                             Some (or_default (Some name) (js "TwitchHighlight"));
                           displayDuration := Some (Z.to_N d);
                           stored_autoReconnect := None |} stored))) = shown).
  { intros stored. unfold settings_of, storage_set, only_autoReconnect, PopupJs.loadSettings.
    cbn [obsUrl obsPassword browserSourceName displayDuration from_option].
    subst shown. f_equal.
    - rewrite or_default_twice by discriminate.
      unfold OBS_CONFIG_url. rewrite or_default_twice by discriminate. reflexivity.
    - destruct (PopupJs.obsPasswordInput form); reflexivity.
    - rewrite or_default_twice by discriminate.
      unfold OBS_CONFIG_browserSourceName. rewrite or_default_twice by discriminate.
      reflexivity.
    - destruct (Z.to_N d) eqn:E; [lia|]. reflexivity. }
  assert (Hsame : (PopupJs.saveSettings shown).2 = (PopupJs.saveSettings form).2).
  { unfold PopupJs.saveSettings. cbv zeta.
    cbn [snd PopupJs.obsUrlInput PopupJs.obsPasswordInput PopupJs.browserSourceNameInput
         PopupJs.displayDurationInput shown].
    fold d url name.
    rewrite (validated_duration_printed d Hd).
    subst url name.
    rewrite !or_default_trim_fixed by (split; reflexivity).
    rewrite !or_default_twice by discriminate. reflexivity. }
  exists shown. split; [|split; [|split; [|split; [|split; [|split; [|split]]]]]].
  - rewrite (reopened_shows w form _ eq_refl). f_equal. apply Hload.
  - subst shown url. cbn [PopupJs.obsUrlInput].
    destruct (String_trim (PopupJs.obsUrlInput form)); reflexivity.
  - reflexivity.
  - subst shown name. cbn [PopupJs.browserSourceNameInput].
    destruct (String_trim (PopupJs.browserSourceNameInput form)); reflexivity.
  - reflexivity.
  - reflexivity.
  - exact Hsame.
  - rewrite (reopened_shows w shown _ Hsame). f_equal. apply Hload.
Qed.

End PopupAndWorker.

(** ** The status indicator of the popup *)

(** [classList]: an ordered set of tokens. *)
Definition classList_remove (tokens l : list jsstring) : list jsstring :=
  filter (fun token => token ∉ tokens) l.

Definition classList_add (token : jsstring) (l : list jsstring) : list jsstring :=
  if decide (token ∈ l) then l else l ++ [token].

Definition check_mark : N := 0x2713.

(** The arguments of one call of [updateStatus]; an error that is
    [null], absent or empty is no error. *)
Record StatusUpdate_args := {
  shown_connected : bool;
  shown_authenticated : bool;
  shown_error : option jsstring
}.

Definition has_error (u : StatusUpdate_args) : bool :=
  match shown_error u with Some (_ :: _) => true | _ => false end.

(** The popup script of the extension: the state shows in the tooltip
    of the dot. *)
Module PopupScript.

Record StatusDot := {
  classList : list jsstring;
  title : jsstring;
  style_background : jsstring
}.

Definition updateStatus (u : StatusUpdate_args) (statusDot : StatusDot) : StatusDot :=
  let classes := classList_remove [js "connected"; js "connecting"] (classList statusDot) in
  match shown_error u with
  | Some (c :: error) =>
      {| classList := classes; title := c :: error; style_background := js "#ff4444" |}
  | _ =>
      if shown_authenticated u then
        {| classList := classList_add (js "connected") classes;
           title := js "Connected & Authenticated " ++ [check_mark];
           style_background := [] |}
      else if shown_connected u then
        {| classList := classList_add (js "connecting") classes;
           title := js "Connected, authenticating...";
           style_background := [] |}
      else
        {| classList := classes; title := js "Disconnected"; style_background := [] |}
  end.

End PopupScript.

(** [popup.js]: the state shows in a text beside the dot, and the
    background of the dot is written only on an error. *)
Module PopupJs_status.

Record StatusView := {
  classList : list jsstring;
  statusText : jsstring;
  style_background : jsstring
}.

Definition updateStatus (u : StatusUpdate_args) (view : StatusView) : StatusView :=
  let classes := classList_remove [js "connected"; js "connecting"] (classList view) in
  match shown_error u with
  | Some (c :: error) =>
      {| classList := classes; statusText := c :: error; style_background := js "#ff4444" |}
  | _ =>
      if shown_authenticated u then
        {| classList := classList_add (js "connected") classes;
           statusText := js "Connected & Authenticated " ++ [check_mark];
           style_background := style_background view |}
      else if shown_connected u then
        {| classList := classList_add (js "connecting") classes;
           statusText := js "Connected, authenticating...";
           style_background := style_background view |}
      else
        {| classList := classes; statusText := js "Disconnected";
           style_background := style_background view |}
  end.

End PopupJs_status.

(** The class that goes with a state, if any. *)
Definition status_class (u : StatusUpdate_args) : option jsstring :=
  if has_error u then None
  else if shown_authenticated u then Some (js "connected")
  else if shown_connected u then Some (js "connecting")
  else None.

Lemma classList_remove_idempotent (tokens l : list jsstring) :
  classList_remove tokens (classList_remove tokens l) = classList_remove tokens l.
Proof.
  unfold classList_remove. induction l as [|t l IH]; [reflexivity|].
  rewrite filter_cons. destruct (decide (t ∉ tokens)) as [Hout|Hin].
  - rewrite filter_cons. rewrite decide_True by exact Hout. rewrite IH. reflexivity.
  - exact IH.
Qed.

Lemma classList_remove_app (tokens l l' : list jsstring) :
  classList_remove tokens (l ++ l') = classList_remove tokens l ++ classList_remove tokens l'.
Proof. apply filter_app. Qed.

Lemma classList_removed (tokens l : list jsstring) (token : jsstring) :
  token ∈ tokens -> token ∉ classList_remove tokens l.
Proof. intros Hin [Hout _]%list_elem_of_filter. contradiction. Qed.

(** What the status classes look like after an update: the old ones
    are gone, and the class of the state, if any, is at the end. *)
Lemma updated_classes (u : StatusUpdate_args) (l : list jsstring) :
  let classes := classList_remove [js "connected"; js "connecting"] l in
  (match shown_error u with
   | Some (_ :: _) => classes
   | _ => if shown_authenticated u then classList_add (js "connected") classes
          else if shown_connected u then classList_add (js "connecting") classes
          else classes
   end) = classes ++ match status_class u with Some c => [c] | None => [] end.
Proof.
  intros classes. unfold status_class, has_error.
  assert (H1 : js "connected" ∉ classes).
  { apply classList_removed. apply elem_of_cons. left. reflexivity. }
  assert (H2 : js "connecting" ∉ classes).
  { apply classList_removed. apply elem_of_cons. right. apply elem_of_cons. left. reflexivity. }
  unfold classList_add. rewrite !decide_False by assumption.
  destruct (shown_error u) as [[|c e]|]; try (symmetry; apply app_nil_r);
    destruct (shown_authenticated u); try reflexivity;
    destruct (shown_connected u); try reflexivity; symmetry; apply app_nil_r.
Qed.

Lemma status_class_removed (u : StatusUpdate_args) :
  classList_remove [js "connected"; js "connecting"]
                   (match status_class u with Some c => [c] | None => [] end) = [].
Proof.
  unfold status_class. destruct (has_error u); [reflexivity|].
  destruct (shown_authenticated u); [vm_compute; reflexivity|].
  destruct (shown_connected u); [vm_compute; reflexivity|reflexivity].
Qed.

(** X16. The popup script shows the last state it was told, whatever
    it showed before: at most one of the classes [connected] and
    [connecting], after the other classes of the dot; an error before
    everything else, on a red background, which any later state
    without error clears. *)
Theorem updateStatus_shows_the_last_state
        (u earlier : StatusUpdate_args) (statusDot : PopupScript.StatusDot) :
  let others := classList_remove [js "connected"; js "connecting"]
                                 (PopupScript.classList statusDot) in
  let shown := PopupScript.updateStatus u statusDot in
  PopupScript.updateStatus u (PopupScript.updateStatus earlier statusDot) = shown
  /\ PopupScript.classList shown =
     others ++ match status_class u with Some c => [c] | None => [] end
  /\ PopupScript.style_background shown = (if has_error u then js "#ff4444" else [])
  /\ PopupScript.title shown =
     match shown_error u with
     | Some (c :: error) => c :: error
     | _ => if shown_authenticated u then js "Connected & Authenticated " ++ [check_mark]
            else if shown_connected u then js "Connected, authenticating..."
            else js "Disconnected"
     end.
Proof.
  intros others shown.
  assert (Hclasses : forall v dot,
             PopupScript.classList (PopupScript.updateStatus v dot) =
             classList_remove [js "connected"; js "connecting"] (PopupScript.classList dot)
               ++ match status_class v with Some c => [c] | None => [] end).
  { intros v dot. rewrite <- updated_classes. unfold PopupScript.updateStatus. cbv zeta.
    destruct (shown_error v) as [[|c e]|]; try reflexivity;
      destruct (shown_authenticated v); try reflexivity;
      destruct (shown_connected v); reflexivity. }
  assert (Hothers : classList_remove [js "connected"; js "connecting"]
                      (PopupScript.classList (PopupScript.updateStatus earlier statusDot)) =
                    others).
  { rewrite Hclasses, classList_remove_app, classList_remove_idempotent,
      status_class_removed. apply app_nil_r. }
  split; [|split; [apply Hclasses|split]].
  - subst shown. unfold PopupScript.updateStatus at 1 3. cbv zeta. rewrite Hothers.
    reflexivity.
  - subst shown. unfold PopupScript.updateStatus, has_error.
    destruct (shown_error u) as [[|c e]|]; try reflexivity;
      destruct (shown_authenticated u); try reflexivity;
      destruct (shown_connected u); reflexivity.
  - subst shown. unfold PopupScript.updateStatus.
    destruct (shown_error u) as [[|c e]|]; try reflexivity;
      destruct (shown_authenticated u); try reflexivity;
      destruct (shown_connected u); reflexivity.
Qed.

(** X17. In [popup.js] the background of the dot, once red, stays red:
    after any updates it is red when one of them carried an error, and
    what it was before otherwise. *)
Theorem red_dot_stays_red (updates : list StatusUpdate_args)
        (view : PopupJs_status.StatusView) :
  PopupJs_status.style_background
    (fold_left (fun v u => PopupJs_status.updateStatus u v) updates view) =
  (if existsb has_error updates then js "#ff4444"
   else PopupJs_status.style_background view).
Proof.
  revert view. induction updates as [|u updates IH]; intros view; [reflexivity|].
  cbn [fold_left existsb]. rewrite IH.
  destruct (existsb has_error updates); [rewrite orb_true_r; reflexivity|].
  rewrite orb_false_r. unfold PopupJs_status.updateStatus, has_error.
  destruct (shown_error u) as [[|c e]|]; try reflexivity;
    destruct (shown_authenticated u); try reflexivity;
    destruct (shown_connected u); reflexivity.
Qed.

(** ** The content script: what is read off a chat line *)

Definition colon : N := 58.
Definition at_sign : N := 64.

(** [s.replace(/^[@]/, '')] *)
Definition strip_at_sign (s : jsstring) : jsstring :=
  match s with
  | c :: rest => if c =? at_sign then rest else s
  | [] => []
  end.

(** [s.replace(/^\s*:\s*/, '')]: the pattern matches when a colon
    follows the white space at the head of the string. *)
Definition strip_leading_colon (s : jsstring) : jsstring :=
  match String_trimStart s with
  | c :: rest => if c =? colon then String_trimStart rest else s
  | [] => s
  end.

(** [s.replace(/\s+/g, ' ')], reading from the left; [in_run] tells
    that the code unit before was white space. *)
Fixpoint replace_runs (in_run : bool) (s : jsstring) : jsstring :=
  match s with
  | [] => []
  | c :: rest =>
      if is_whitespace c
      then if in_run then replace_runs true rest else space :: replace_runs true rest
      else c :: replace_runs false rest
  end.

Definition normalize_whitespace (s : jsstring) : jsstring := replace_runs false s.

(** An element as [extractMessageData] reads it. *)
Record ElementRead := {
  textContent : jsstring;
  style_color : jsstring;        (* [el.style.color], empty when not set *)
  computed_color : jsstring      (* [getComputedStyle(el).color] *)
}.

(** What the queries of [extractMessageData] on a chat line return. *)
Record ChatLineRead := {
  usernameEl : option ElementRead;
  innerUsername : option jsstring;   (* text of the nested 7TV span in [usernameEl] *)
  messageEl : option jsstring;       (* text of the message body *)
  clone_textContent : jsstring;      (* text of the line without names, badges, buttons *)
  seventv_colorEl : option ElementRead;
  timestampEl : option jsstring;
  toLocaleTimeString : jsstring;
  Date_now : N
}.

Definition or_else {A} (x y : option A) : option A :=
  match x with Some _ => x | None => y end.

Definition extractMessageData (chatLine : ChatLineRead) : MessageData :=
  let username :=
    match usernameEl chatLine with
    | Some el =>
        let username :=
          match innerUsername chatLine with
          | Some inner => String_trim inner
          | None => []
          end in
        match username with
        | [] => String_trim (textContent el)
        | _ => username
        end
    | None => []
    end in
  let username := or_default (Some username) (js "Anonymous") in
  let username := String_trim (strip_at_sign username) in
  let messageText :=
    match messageEl chatLine with
    | Some text => String_trim text
    | None => []
    end in
  let messageText :=
    match messageText with
    | [] => String_trim (clone_textContent chatLine)
    | _ => messageText
    end in
  let messageText :=
    String_trim (normalize_whitespace (strip_leading_colon messageText)) in
  let userColor :=
    match or_else (seventv_colorEl chatLine) (usernameEl chatLine) with
    | Some colorEl =>
        match style_color colorEl with
        | _ :: _ => style_color colorEl
        | [] =>
            match computed_color colorEl with
            | [] => js "#9147ff"
            | computed =>
                if decide (computed = js "rgb(0, 0, 0)") then js "#9147ff" else computed
            end
        end
    | None => js "#9147ff"
    end in
  let timestamp :=
    or_default (String_trim <$> timestampEl chatLine) (toLocaleTimeString chatLine) in
  {| username := username; message := messageText; userColor := userColor;
     timestamp := timestamp; extractedAt := Date_now chatLine |}.

(** White space in a string is single spaces only. *)
Fixpoint single_spaced (s : jsstring) : Prop :=
  match s with
  | [] => True
  | c :: rest =>
      (is_whitespace c = true ->
       c = space /\ match rest with d :: _ => is_whitespace d = false | [] => True end)
      /\ single_spaced rest
  end.

Lemma replace_runs_single_spaced (in_run : bool) (s : jsstring) :
  single_spaced (replace_runs in_run s)
  /\ (in_run = true ->
      match replace_runs in_run s with d :: _ => is_whitespace d = false | [] => True end).
Proof.
  revert in_run. induction s as [|c s IH]; intros in_run;
    [split; [exact I|intros _; exact I]|].
  cbn [replace_runs]. destruct (is_whitespace c) eqn:Hc.
  - destruct in_run.
    + apply IH.
    + split; [|discriminate]. cbn [single_spaced]. split; [|apply IH].
      intros _. split; [reflexivity|]. apply IH. reflexivity.
  - split.
    + cbn [single_spaced]. split; [congruence|apply IH].
    + intros _. exact Hc.
Qed.

Lemma single_spaced_suffix (t s : jsstring) : single_spaced (t ++ s) -> single_spaced s.
Proof. induction t as [|c t IH]; [auto|]. cbn. intros [_ H]. apply IH, H. Qed.

Lemma single_spaced_prefix (s t : jsstring) : single_spaced (s ++ t) -> single_spaced s.
Proof.
  induction s as [|c s IH]; [intros; exact I|]. cbn [app single_spaced].
  intros [Hc Hrest]. split; [|apply IH, Hrest].
  intros Hw. destruct (Hc Hw) as [-> Hnext]. split; [reflexivity|].
  destruct s as [|d s]; [exact I|exact Hnext].
Qed.

Lemma trimStart_suffix (s : jsstring) : exists t, s = t ++ String_trimStart s.
Proof.
  induction s as [|c s IH]; [exists []; reflexivity|]. destruct IH as [t IH].
  cbn [String_trimStart].
  destruct (is_whitespace c); [|exists []; reflexivity].
  exists (c :: t). cbn. rewrite <- IH. reflexivity.
Qed.

Lemma trimEnd_prefix (s : jsstring) : exists t, s = String_trimEnd s ++ t.
Proof.
  unfold String_trimEnd. destruct (trimStart_suffix (rev s)) as [t Ht].
  exists (rev t). rewrite <- rev_app_distr, <- Ht. symmetry. apply rev_involutive.
Qed.

Lemma trim_single_spaced (s : jsstring) : single_spaced s -> single_spaced (String_trim s).
Proof.
  intros Hs. unfold String_trim.
  destruct (trimStart_suffix s) as [t Ht]. rewrite Ht in Hs.
  apply single_spaced_suffix in Hs.
  destruct (trimEnd_prefix (String_trimStart s)) as [t' Ht']. rewrite Ht' in Hs.
  apply single_spaced_prefix in Hs. exact Hs.
Qed.

(** The code units of a string that are not white space. *)
Definition visible (s : jsstring) : jsstring :=
  List.filter (fun c => negb (is_whitespace c)) s.

(** The text the message is taken from: the message body, or, when
    the line has none or a blank one, the line without its names,
    badges, time and buttons. *)
Definition message_source (chatLine : ChatLineRead) : jsstring :=
  match messageEl chatLine with
  | Some text =>
      if decide (String_trim text = []) then clone_textContent chatLine else text
  | None => clone_textContent chatLine
  end.

(** The text the name is taken from: the nested span of the name
    element, or the element itself when the span is missing or blank. *)
Definition username_source (chatLine : ChatLineRead) : jsstring :=
  match usernameEl chatLine with
  | Some el =>
      match innerUsername chatLine with
      | Some inner => if decide (String_trim inner = []) then textContent el else inner
      | None => textContent el
      end
  | None => []
  end.

Lemma visible_trimStart (s : jsstring) : visible (String_trimStart s) = visible s.
Proof.
  induction s as [|c s IH]; [reflexivity|]. cbn [String_trimStart].
  destruct (is_whitespace c) eqn:Hc; [|reflexivity].
  rewrite IH. unfold visible. cbn [List.filter]. rewrite Hc. reflexivity.
Qed.

Lemma visible_trim (s : jsstring) : visible (String_trim s) = visible s.
Proof.
  unfold String_trim, String_trimEnd, visible.
  rewrite List.filter_rev. fold (visible (String_trimStart (rev (String_trimStart s)))).
  rewrite visible_trimStart. unfold visible. rewrite List.filter_rev, rev_involutive.
  apply visible_trimStart.
Qed.

Lemma visible_replace_runs (in_run : bool) (s : jsstring) :
  visible (replace_runs in_run s) = visible s.
Proof.
  revert in_run. induction s as [|c s IH]; intros in_run; [reflexivity|].
  cbn [replace_runs]. destruct (is_whitespace c) eqn:Hc.
  - destruct in_run; cbn [visible List.filter]; rewrite Hc; cbn [negb];
      [apply IH|]. change (is_whitespace space) with true. cbn [negb]. apply IH.
  - cbn [visible List.filter]. rewrite Hc. cbn [negb]. f_equal. apply IH.
Qed.

Lemma visible_strip_leading_colon (s : jsstring) :
  visible (strip_leading_colon s) =
  match visible s with
  | c :: rest => if c =? colon then rest else c :: rest
  | [] => []
  end.
Proof.
  unfold strip_leading_colon. rewrite <- (visible_trimStart s).
  pose proof (trimStart_head s) as Hhead.
  destruct (String_trimStart s) as [|c rest] eqn:E.
  - rewrite <- E, visible_trimStart. rewrite <- (visible_trimStart s), E. reflexivity.
  - cbn [visible List.filter]. rewrite Hhead. cbn [negb].
    destruct (c =? colon).
    + apply visible_trimStart.
    + rewrite <- (visible_trimStart s), E. cbn [visible List.filter].
      rewrite Hhead. reflexivity.
Qed.

Lemma trim_blank (s : jsstring) : String_trim s = [] -> visible s = [].
Proof. intros H. rewrite <- visible_trim, H. reflexivity. Qed.

(** X18. What the content script sends for a chat line.  The message
    is the text of the message body (of the line without names, badges,
    time and buttons when the body is missing or blank) trimmed, less
    a colon at its head and the white space around it, with each run of
    white space replaced by one space, and trimmed again: it has single
    spaces for all its white space, and the other code units of the
    text, less that colon, in their order.  The name is the
    text of the name (from the nested span when it has one that is not
    blank) trimmed, less one @ at its head, and Anonymous when the line
    shows no name or a blank one.  The colour is the colour set on the
    element, else its computed colour, and #9147ff when there is no
    element; it is never empty.  The time is the trimmed time of the
    line, and the local time when the line shows none or a blank
    one. *)
Theorem extracted_message_is_clean (chatLine : ChatLineRead) :
  let data := extractMessageData chatLine in
  (message data =
     String_trim (normalize_whitespace
                    (strip_leading_colon (String_trim (message_source chatLine))))
   /\ trimmed (message data) /\ single_spaced (message data)
   /\ visible (message data) =
      match visible (message_source chatLine) with
      | c :: rest => if c =? colon then rest else c :: rest
      | [] => []
      end)
  /\ (trimmed (username data)
      /\ username data =
         if decide (String_trim (username_source chatLine) = []) then js "Anonymous"
         else String_trim (strip_at_sign (String_trim (username_source chatLine))))
  /\ (userColor data ≠ []
      /\ (or_else (seventv_colorEl chatLine) (usernameEl chatLine) = None ->
          userColor data = js "#9147ff")
      /\ (forall colorEl,
            or_else (seventv_colorEl chatLine) (usernameEl chatLine) = Some colorEl ->
            userColor data =
              if decide (style_color colorEl = []) then
                if decide (computed_color colorEl = []
                           \/ computed_color colorEl = js "rgb(0, 0, 0)")
                then js "#9147ff" else computed_color colorEl
              else style_color colorEl))
  /\ (timestamp data =
        match timestampEl chatLine with
        | Some text =>
            if decide (String_trim text = []) then toLocaleTimeString chatLine
            else String_trim text
        | None => toLocaleTimeString chatLine
        end)
  /\ extractedAt data = Date_now chatLine.
Proof.
  intros data. subst data. unfold extractMessageData. cbv zeta.
  cbn [username message userColor timestamp extractedAt].
  split; [|split; [|split; [|split; [|reflexivity]]]].
  - set (body := match messageEl chatLine with
                 | Some text => String_trim text
                 | None => []
                 end).
    assert (Hsrc : match body with
                   | [] => String_trim (clone_textContent chatLine)
                   | _ :: _ => body
                   end = String_trim (message_source chatLine)).
    { subst body. unfold message_source. destruct (messageEl chatLine) as [text|].
      - destruct (decide (String_trim text = [])) as [E|E].
        + rewrite E. reflexivity.
        + destruct (String_trim text) as [|c r] eqn:Et; [contradiction|]. reflexivity.
      - reflexivity. }
    rewrite Hsrc. split; [reflexivity|]. split; [apply trim_trimmed|]. split.
    { apply trim_single_spaced. apply (replace_runs_single_spaced false). }
    rewrite visible_trim. unfold normalize_whitespace.
    rewrite visible_replace_runs, visible_strip_leading_colon, visible_trim. reflexivity.
  - split; [apply trim_trimmed|]. unfold username_source.
    destruct (usernameEl chatLine) as [el|].
    + destruct (innerUsername chatLine) as [inner|].
      * destruct (decide (String_trim inner = [])) as [E|E].
        -- rewrite E. destruct (String_trim (textContent el)) as [|c r] eqn:Et.
           ++ rewrite decide_True by reflexivity. vm_compute. reflexivity.
           ++ rewrite decide_False by discriminate. reflexivity.
        -- rewrite decide_False by exact E.
           destruct (String_trim inner) as [|c r] eqn:Et; [contradiction|]. reflexivity.
      * destruct (String_trim (textContent el)) as [|c r] eqn:Et.
        -- rewrite decide_True by reflexivity. vm_compute. reflexivity.
        -- rewrite decide_False by discriminate. reflexivity.
    + vm_compute. reflexivity.
  - split; [|split].
    + destruct (or_else _ _) as [colorEl|]; [|discriminate].
      destruct (style_color colorEl); [|discriminate].
      destruct (computed_color colorEl) as [|c computed]; [discriminate|].
      destruct (decide _); discriminate.
    + intros ->. reflexivity.
    + intros colorEl ->. destruct (style_color colorEl) as [|c r].
      * rewrite decide_True by reflexivity.
        destruct (computed_color colorEl) as [|c computed].
        -- rewrite decide_True by (left; reflexivity). reflexivity.
        -- destruct (decide (c :: computed = js "rgb(0, 0, 0)")) as [E|E].
           ++ rewrite decide_True by (right; exact E). reflexivity.
           ++ rewrite decide_False; [reflexivity|]. intros [H|H]; [discriminate|contradiction].
      * rewrite decide_False by discriminate. reflexivity.
  - destruct (timestampEl chatLine) as [text|]; [|reflexivity].
    cbn [fmap option_fmap option_map]. destruct (String_trim text) as [|c r] eqn:Et.
    + rewrite decide_True by reflexivity. reflexivity.
    + rewrite decide_False by discriminate. reflexivity.
Qed.

(** ** The further properties at concrete inputs *)

(** The worker authenticated over its first socket, at time 0. *)
Definition authenticated_world : World :=
  run accept_all (init no_settings 0) handshake_events.

(** Twenty seconds later the keepalive has sent its first ping. *)
Definition pinging_world : World :=
  run accept_all authenticated_world [TimePasses 20000; TimerFires 0].

(** Two connects in a row whose reads of the storage return late: the
    script holds the second socket, still connecting, when the first
    is identified. *)
Definition authenticated_on_a_stale_socket : World :=
  run accept_all (init no_settings 0)
      [RuntimeMessageArrives 0 CONNECT_OBS; RuntimeMessageArrives 1 CONNECT_OBS;
       TaskResumes 1; SocketOpens 0; SocketMessage 0 (Hello None); TaskResumes 2;
       TaskResumes 1; SocketMessage 0 Identified].

(** The worker whose socket has opened, with a password in the
    storage. *)
Definition opened_with_password : World :=
  run accept_all (init with_password 0)
      [RuntimeMessageArrives 0 CONNECT_OBS; TaskResumes 1; SocketOpens 0].

Lemma hello_with_challenge_witness :
  sockets opened_with_password !! 0%nat = Some OPEN
  /\ obsPassword (storage opened_with_password) = Some (js "supersecretpassword")
  /\ hd_error
       (trace (run accept_all
                   (step accept_all opened_with_password
                         (SocketMessage 0 (Hello (Some sample_authentication))))
                   [TaskResumes (length (tasks opened_with_password));
                    TaskResumes (length (tasks opened_with_password))])) =
     Some (Sent 0 (Identify 1 (Some (js "1Ct943GAT+6YQUUX47Ia/ncufilbe6+oD6lY+5kaCu4=")))).
Proof.
  assert (Hopen : sockets opened_with_password !! 0%nat = Some OPEN)
    by (vm_compute; reflexivity).
  assert (Hpw : obsPassword (storage opened_with_password) =
                Some (js "supersecretpassword"))
    by (vm_compute; reflexivity).
  split; [exact Hopen|]. split; [exact Hpw|].
  rewrite (proj2 (proj2 (hello_with_challenge accept_all opened_with_password 0
                           sample_authentication _ _ Hopen Hpw))).
  vm_compute. reflexivity.
Defined.

(** The first tick of the keepalive, due. *)
Definition first_tick_due : World := step accept_all authenticated_world (TimePasses 20000).

Lemma keepAlive_tick_pings_witness :
  timers first_tick_due !! 0%nat = Some {| deadline := 20000; kind := KeepAliveTick 1 |}
  /\ isAuthenticated first_tick_due = true
  /\ open_socket first_tick_due = Some 0%nat
  /\ trace (step accept_all first_tick_due (TimerFires 0)) =
     Sent 0 (Request (js "GetVersion") (request_id (messageRequestId first_tick_due))
                     (JObj []))
       :: trace first_tick_due.
Proof.
  assert (Hi : timers first_tick_due !! 0%nat =
               Some {| deadline := 20000; kind := KeepAliveTick 1 |})
    by (vm_compute; reflexivity).
  assert (Hauth : isAuthenticated first_tick_due = true) by (vm_compute; reflexivity).
  assert (Hopen : open_socket first_tick_due = Some 0%nat) by (vm_compute; reflexivity).
  split; [exact Hi|]. split; [exact Hauth|]. split; [exact Hopen|].
  apply (proj1 (keepAlive_tick_pings accept_all first_tick_due 0
                  {| deadline := 20000; kind := KeepAliveTick 1 |} 1 Hi eq_refl eq_refl)
               0%nat Hauth Hopen).
Defined.

(** The first ping of the keepalive, unanswered after ten seconds. *)
Definition ping_unanswered : World := step accept_all pinging_world (TimePasses 10000).

(** The first ping unanswered, and its socket closed. *)
Definition ping_unanswered_closed : World := step accept_all ping_unanswered (SocketCloses 0).

(** A refusal of the first ping by OBS. *)
Definition ping_refused : HostEvent :=
  SocketMessage 0 (RequestResponse (js "req_1") (Some (false, None)) None).

Lemma keepAlive_failure_reconnects_only_without_socket_witness :
  (pendingRequests ping_unanswered !! js "req_1" = Some KeepAlivePing
   /\ ping_fails ping_unanswered (js "req_1") (TimerFires 1)
   /\ is_Some (open_socket ping_unanswered)
   /\ reconnectAttempts (step accept_all ping_unanswered (TimerFires 1)) = 0
   /\ tasks (step accept_all ping_unanswered (TimerFires 1)) = tasks ping_unanswered)
  /\ (pendingRequests pinging_world !! js "req_1" = Some KeepAlivePing
      /\ ping_fails pinging_world (js "req_1") ping_refused
      /\ is_Some (open_socket pinging_world)
      /\ reconnectAttempts (step accept_all pinging_world ping_refused) = 0
      /\ tasks (step accept_all pinging_world ping_refused) = tasks pinging_world)
  /\ (pendingRequests ping_unanswered_closed !! js "req_1" = Some KeepAlivePing
      /\ ping_fails ping_unanswered_closed (js "req_1") (TimerFires 0)
      /\ open_socket ping_unanswered_closed = None
      /\ tasks (step accept_all ping_unanswered_closed (TimerFires 0)) =
         tasks ping_unanswered_closed
           ++ [ConnectAfterStorage (obsUrl (storage ping_unanswered_closed))]
      /\ autoReconnect (step accept_all ping_unanswered_closed (TimerFires 0)) = true).
Proof.
  split; [|split].
  - assert (Hp : pendingRequests ping_unanswered !! js "req_1" = Some KeepAlivePing)
      by (vm_compute; reflexivity).
    assert (Hf : ping_fails ping_unanswered (js "req_1") (TimerFires 1)).
    { left. exists 1%nat, {| deadline := 30000; kind := RequestTimeout (js "req_1") |}.
      repeat split; vm_compute; reflexivity. }
    assert (Ho : is_Some (open_socket ping_unanswered)) by (vm_compute; eauto).
    destruct (keepAlive_failure_reconnects_only_without_socket
                accept_all ping_unanswered (js "req_1") (TimerFires 1) Hp Hf)
      as (_ & Hattempts & _ & _ & Hstays & _).
    split; [exact Hp|]. split; [exact Hf|]. split; [exact Ho|].
    split; [exact Hattempts|exact (proj1 (Hstays Ho))].
  - assert (Hp : pendingRequests pinging_world !! js "req_1" = Some KeepAlivePing)
      by (vm_compute; reflexivity).
    assert (Hf : ping_fails pinging_world (js "req_1") ping_refused).
    { right. exists 0%nat, None, None. split; [reflexivity|]. vm_compute. reflexivity. }
    assert (Ho : is_Some (open_socket pinging_world)) by (vm_compute; eauto).
    destruct (keepAlive_failure_reconnects_only_without_socket
                accept_all pinging_world (js "req_1") ping_refused Hp Hf)
      as (_ & Hattempts & _ & _ & Hstays & _).
    split; [exact Hp|]. split; [exact Hf|]. split; [exact Ho|].
    split; [exact Hattempts|exact (proj1 (Hstays Ho))].
  - assert (Hp : pendingRequests ping_unanswered_closed !! js "req_1" = Some KeepAlivePing)
      by (vm_compute; reflexivity).
    assert (Hf : ping_fails ping_unanswered_closed (js "req_1") (TimerFires 0)).
    { left. exists 0%nat, {| deadline := 30000; kind := RequestTimeout (js "req_1") |}.
      repeat split; vm_compute; reflexivity. }
    assert (Ho : open_socket ping_unanswered_closed = None) by (vm_compute; reflexivity).
    destruct (keepAlive_failure_reconnects_only_without_socket
                accept_all ping_unanswered_closed (js "req_1") (TimerFires 0) Hp Hf)
      as (_ & _ & _ & _ & _ & Hconnects).
    split; [exact Hp|]. split; [exact Hf|]. split; [exact Ho|]. exact (Hconnects Ho).
Defined.

Lemma keepAlive_ping_outlives_disconnect_witness :
  pendingRequests pinging_world !! js "req_1" = Some KeepAlivePing
  /\ timers (step accept_all pinging_world (RuntimeMessageArrives 2 DISCONNECT_OBS)) !! 0%nat =
     Some {| deadline := 30000; kind := RequestTimeout (js "req_1") |}
  /\ autoReconnect (step accept_all pinging_world (RuntimeMessageArrives 2 DISCONNECT_OBS)) =
     false
  /\ autoReconnect
       (run accept_all (step accept_all pinging_world (RuntimeMessageArrives 2 DISCONNECT_OBS))
            [TimePasses 10000; TimerFires 0]) = true.
Proof.
  assert (Hp : pendingRequests pinging_world !! js "req_1" = Some KeepAlivePing)
    by (vm_compute; reflexivity).
  assert (Hi : timers (step accept_all pinging_world
                            (RuntimeMessageArrives 2 DISCONNECT_OBS)) !! 0%nat =
               Some {| deadline := 30000; kind := RequestTimeout (js "req_1") |})
    by (vm_compute; reflexivity).
  assert (Hdue : (30000 <=? clock pinging_world + 10000) = true) by (vm_compute; reflexivity).
  destruct (keepAlive_ping_outlives_disconnect
              accept_all pinging_world 2 0
              {| deadline := 30000; kind := RequestTimeout (js "req_1") |}
              (js "req_1") 10000 Hp Hi eq_refl Hdue)
    as (Hoff & _ & _ & Hon & _).
  split; [exact Hp|]. split; [exact Hi|]. split; [exact Hoff|exact Hon].
Defined.

Definition sample_url : jsstring := js "https://example.org/overlay.html?username=old&x=1".

Lemma highlight_succeeds_in_the_worker_witness :
  isAuthenticated authenticated_world = true
  /\ obsWebSocket authenticated_world = Some 0%nat
  /\ sockets authenticated_world !! 0%nat = Some OPEN
  /\ fetched_url sample_settings = Some (JStr sample_url)
  /\ hd_error
       (trace (run accept_all authenticated_world
                   (highlight_asked 1 sample_message authenticated_world ++
                    [answers 0 (request_id (messageRequestId authenticated_world))
                             (true, None) sample_settings;
                     answers 0 (request_id (messageRequestId authenticated_world + 1))
                             (true, None) None;
                     answers 0 (request_id (messageRequestId authenticated_world + 2))
                             (true, None) None]))) =
     Some (Responded 1 Success).
Proof.
  assert (Hauth : isAuthenticated authenticated_world = true) by (vm_compute; reflexivity).
  assert (Hsock : obsWebSocket authenticated_world = Some 0%nat) by (vm_compute; reflexivity).
  assert (Hopen : sockets authenticated_world !! 0%nat = Some OPEN)
    by (vm_compute; reflexivity).
  assert (Hurl : fetched_url sample_settings = Some (JStr sample_url))
    by (vm_compute; reflexivity).
  assert (Hne : sample_url ≠ []) by (vm_compute; discriminate).
  split; [exact Hauth|]. split; [exact Hsock|]. split; [exact Hopen|]. split; [exact Hurl|].
  rewrite (proj1 (highlight_succeeds_in_the_worker
                    accept_all authenticated_world 0 1 sample_message sample_settings
                    None None sample_url None None None Hauth Hsock Hopen Hurl Hne)).
  reflexivity.
Defined.

Lemma highlight_fails_with_the_comment_of_OBS_witness :
  isAuthenticated authenticated_world = true
  /\ obsWebSocket authenticated_world = Some 0%nat
  /\ sockets authenticated_world !! 0%nat = Some OPEN
  /\ hd_error
       (trace (run accept_all authenticated_world
                   (highlight_asked 1 sample_message authenticated_world ++
                    [answers 0 (request_id (messageRequestId authenticated_world))
                             (false, Some (js "No source was found")) None]))) =
     Some (Responded 1 (Failure (js "No source was found")))
  /\ hd_error
       (trace (run accept_all authenticated_world
                   (highlight_asked 1 sample_message authenticated_world ++
                    [answers 0 (request_id (messageRequestId authenticated_world))
                             (false, None) None]))) =
     Some (Responded 1 (Failure (js "Request failed"))).
Proof.
  assert (Hauth : isAuthenticated authenticated_world = true) by (vm_compute; reflexivity).
  assert (Hsock : obsWebSocket authenticated_world = Some 0%nat) by (vm_compute; reflexivity).
  assert (Hopen : sockets authenticated_world !! 0%nat = Some OPEN)
    by (vm_compute; reflexivity).
  split; [exact Hauth|]. split; [exact Hsock|]. split; [exact Hopen|]. split.
  - rewrite (proj1 (proj1 (highlight_fails_with_the_comment_of_OBS
                             accept_all authenticated_world 0 1 sample_message
                             (Some (js "No source was found")) None Hauth Hsock Hopen))).
    reflexivity.
  - rewrite (proj1 (proj1 (highlight_fails_with_the_comment_of_OBS
                             accept_all authenticated_world 0 1 sample_message
                             None None Hauth Hsock Hopen))).
    reflexivity.
Defined.

Definition new_settings : Storage :=
  {| obsUrl := Some (js "ws://studio.example:4455"); obsPassword := Some (js "secret");
     browserSourceName := Some (js "Overlay"); displayDuration := Some 12;
     stored_autoReconnect := None |}.

Lemma save_reconnects_to_the_saved_url_witness :
  obsUrl new_settings = Some (js "ws://studio.example:4455")
  /\ obsWebSocket authenticated_world = Some 0%nat
  /\ (let w1 := run accept_all authenticated_world
                    [RuntimeMessageArrives 3 (SAVE_SETTINGS new_settings);
                     TaskResumes (length (tasks authenticated_world))] in
      let w2 := run accept_all w1
                    [TimePasses 500; TimerFires (length (timers w1) - 1);
                     TaskResumes (length (tasks w1))] in
      hd_error (trace w2) =
        Some (SocketCreated (length (sockets authenticated_world))
                            (js "ws://studio.example:4455"))
      /\ sockets w2 !! 0%nat ≠ Some OPEN).
Proof.
  assert (Hne : js "ws://studio.example:4455" ≠ []) by (vm_compute; discriminate).
  assert (Hsock : obsWebSocket authenticated_world = Some 0%nat) by (vm_compute; reflexivity).
  assert (Hreal : is_Some (sockets authenticated_world !! 0%nat)) by (vm_compute; eauto).
  destruct (save_reconnects_to_the_saved_url
              accept_all authenticated_world 3 new_settings (js "ws://studio.example:4455")
              eq_refl Hne eq_refl)
    as (_ & Hclosed & _ & _ & _ & _ & Hcreated).
  split; [reflexivity|]. split; [exact Hsock|]. cbv zeta.
  split; [exact Hcreated|exact (proj1 (Hclosed 0%nat Hsock Hreal))].
Defined.

Lemma highlight_times_out_witness :
  isAuthenticated authenticated_world = true
  /\ obsWebSocket authenticated_world = Some 0%nat
  /\ sockets authenticated_world !! 0%nat = Some OPEN
  /\ hd_error
       (trace (run accept_all authenticated_world
                   (highlight_asked 1 sample_message authenticated_world ++
                    [TimePasses 10000; TimerFires (length (timers authenticated_world))]))) =
     Some (Responded 1 (Failure (js "Request timeout"))).
Proof.
  assert (Hauth : isAuthenticated authenticated_world = true) by (vm_compute; reflexivity).
  assert (Hsock : obsWebSocket authenticated_world = Some 0%nat) by (vm_compute; reflexivity).
  assert (Hopen : sockets authenticated_world !! 0%nat = Some OPEN)
    by (vm_compute; reflexivity).
  split; [exact Hauth|]. split; [exact Hsock|]. split; [exact Hopen|].
  rewrite (proj1 (highlight_times_out accept_all authenticated_world 0 1 sample_message
                    Hauth Hsock Hopen)).
  reflexivity.
Defined.

Lemma highlight_without_socket_witness :
  isAuthenticated authenticated_on_a_stale_socket = true
  /\ open_socket authenticated_on_a_stale_socket = None
  /\ sockets authenticated_on_a_stale_socket = [OPEN; CONNECTING]
  /\ hd_error
       (trace (run accept_all authenticated_on_a_stale_socket
                   (highlight_asked 1 sample_message authenticated_on_a_stale_socket))) =
     Some (Responded 1 (Failure (js "WebSocket not connected"))).
Proof.
  assert (Hauth : isAuthenticated authenticated_on_a_stale_socket = true)
    by (vm_compute; reflexivity).
  assert (Hopen : open_socket authenticated_on_a_stale_socket = None)
    by (vm_compute; reflexivity).
  split; [exact Hauth|]. split; [exact Hopen|]. split; [vm_compute; reflexivity|].
  rewrite (proj1 (highlight_without_socket accept_all authenticated_on_a_stale_socket 1
                    sample_message Hauth Hopen)).
  reflexivity.
Defined.
